(** * Atlantis: lock service, plan/apply executors, commit status and the
    lock admin surface, embedded from the Go sources.

    Part I holds the embedding (one module per Go package), Part II the
    properties.  State that the Go code keeps in BoltDB, on disk or behind a
    client is passed explicitly; collaborators that the Go structs hold as
    fields are fields of the corresponding records here. *)

From Stdlib Require Import ZArith Ascii String DecimalString.
From stdpp Require Import gmap strings list sorting.

Local Open Scope Z_scope.

(* ===================================================================== *)
(** * Part I: the embedding *)
(* ===================================================================== *)

(** ** The parts of the Go standard library the sources call *)

Module go.

(** Errors as built by [errors.New], [fmt.Errorf] and [errors.Wrap]. *)
Inductive error : Type :=
| errorsNew (msg : string)
| errorsWrap (cause : error) (msg : string).

#[global] Instance error_eq_dec : EqDecision error.
Proof. solve_decision. Defined.

Fixpoint Error (e : error) : string :=
  match e with
  | errorsNew msg => msg
  | errorsWrap cause msg => msg +:+ ": " +:+ Error cause
  end.

(** Library functions whose result depends on tables or on path syntax that
    is not part of this repository: the [%q] verb ([strconv.Quote]), the
    [path/filepath] helpers, [strings.Title] and the conversion [string(k)]
    of an integer to the text of that code point.  The embedding is
    parametric in them. *)
Class Library : Type := {
  Quote : string → string;
  Join : list string → string;
  Rel : string → string → string;
  Dir : string → string;
  Title : string → string;
  RuneString : Z → string
}.

Definition newline : string := String (ascii_of_nat 10) EmptyString.

Definition Itoa (n : Z) : string := NilZero.string_of_int (Z.to_int n).

Inductive arg : Type :=
| argString (s : string)
| argInt (n : Z)
| argError (e : error).

Definition verb `{Library} (v : ascii) (a : arg) : string :=
  match a with
  | argString s => if decide (v = "q"%char) then Quote s else s
  | argInt n => Itoa n
  | argError e => if decide (v = "q"%char) then Quote (Error e) else Error e
  end.

(** [fmt.Sprintf] for the verbs the sources use ([%s], [%q], [%d]): each
    verb consumes the next operand. *)
Fixpoint Sprintf `{Library} (format : string) (args : list arg) : string :=
  match format with
  | EmptyString => EmptyString
  | String c rest =>
      if decide (c = "%"%char) then
        match rest with
        | EmptyString => "%!(NOVERB)"
        | String v rest' =>
            match args with
            | a :: args' => verb v a +:+ Sprintf rest' args'
            | [] => "%!" +:+ String v "(MISSING)" +:+ Sprintf rest' []
            end
        end
      else String c (Sprintf rest args)
  end.

(** [bytes.HasPrefix k p] / [strings.HasPrefix]. *)
Definition HasPrefix (s p : string) : bool := String.prefix p s.

End go.

(** ** package models *)

Module models.

Inductive VCSHostType : Type :=
  Github | Gitlab | BitbucketCloud | BitbucketServer | AzureDevops.

Record VCSHost : Type := {
  Hostname : string;
  Type_ : VCSHostType
}.

Record Repo : Type := {
  FullName : string;
  Owner : string;
  Name : string;
  CloneURL : string;
  SanitizedCloneURL : string;
  RepoVCSHost : VCSHost
}.

Inductive PullRequestState : Type := Open | Closed.

Record PullRequest : Type := {
  Num : Z;
  HeadCommit : string;
  URL : string;
  Branch : string;
  Author : string;
  State : PullRequestState;
  HeadRepo : Repo;
  BaseRepo : Repo
}.

Record User : Type := { Username : string }.

Record Project : Type := {
  RepoFullName : string;
  Path : string
}.

(** [Time] is the instant in seconds; the location is not modelled. *)
Record ProjectLock : Type := {
  LockProject : Project;
  LockPull : PullRequest;
  LockUser : User;
  LockWorkspace : string;
  LockTime : Z
}.

Record Plan : Type := {
  PlanProject : Project;
  LocalPath : string
}.

Inductive CommitStatus : Type :=
  PendingCommitStatus | SuccessCommitStatus | FailedCommitStatus.

#[global] Instance VCSHostType_eq_dec : EqDecision VCSHostType.
Proof. solve_decision. Defined.
#[global] Instance VCSHost_eq_dec : EqDecision VCSHost.
Proof. solve_decision. Defined.
#[global] Instance Repo_eq_dec : EqDecision Repo.
Proof. solve_decision. Defined.
#[global] Instance PullRequestState_eq_dec : EqDecision PullRequestState.
Proof. solve_decision. Defined.
#[global] Instance PullRequest_eq_dec : EqDecision PullRequest.
Proof. solve_decision. Defined.
#[global] Instance User_eq_dec : EqDecision User.
Proof. solve_decision. Defined.
#[global] Instance Project_eq_dec : EqDecision Project.
Proof. solve_decision. Defined.
#[global] Instance ProjectLock_eq_dec : EqDecision ProjectLock.
Proof. solve_decision. Defined.
#[global] Instance CommitStatus_eq_dec : EqDecision CommitStatus.
Proof. solve_decision. Defined.

(** Go zero values ([models.Repo{}] and the like). *)
Definition zeroRepo : Repo :=
  {| FullName := EmptyString; Owner := EmptyString; Name := EmptyString;
     CloneURL := EmptyString; SanitizedCloneURL := EmptyString;
     RepoVCSHost := {| Hostname := EmptyString; Type_ := Github |} |}.

Definition zeroPullRequest : PullRequest :=
  {| Num := 0; HeadCommit := EmptyString; URL := EmptyString;
     Branch := EmptyString; Author := EmptyString; State := Open;
     HeadRepo := zeroRepo; BaseRepo := zeroRepo |}.

Definition zeroProjectLock : ProjectLock :=
  {| LockProject := {| RepoFullName := EmptyString; Path := EmptyString |};
     LockPull := zeroPullRequest;
     LockUser := {| Username := EmptyString |};
     LockWorkspace := EmptyString;
     LockTime := 0 |}.

(** [models.NewProject]: the path is stored as given by [filepath.Rel]. *)
Definition NewProject (repoFullName path : string) : Project :=
  {| RepoFullName := repoFullName; Path := path |}.

End models.

(** ** BoltDB: a bucket of byte strings ordered by key *)

Module bolt.
Import go models.

(** The bytes stored under a key.  A value that [json.Unmarshal] accepts is
    represented by the lock it decodes to (which is the lock [json.Marshal]
    was given); any other value by the decoder's message. *)
Inductive Blob : Type :=
| Json (l : ProjectLock)
| Undecodable (why : string).

#[global] Instance Blob_eq_dec : EqDecision Blob.
Proof. solve_decision. Defined.

Definition Marshal (l : ProjectLock) : Blob := Json l.

Definition Unmarshal (v : Blob) : ProjectLock + error :=
  match v with
  | Json l => inl l
  | Undecodable why => inr (errorsNew why)
  end.

Abbreviation bucket := (gmap string Blob).

Definition Get (key : string) (b : bucket) : option Blob := b !! key.
Definition Put (key : string) (v : Blob) (b : bucket) : bucket := <[key := v]> b.
Definition Delete (key : string) (b : bucket) : bucket := delete key b.

(** A cursor visits the pairs in byte order of their keys. *)
Definition key_le (x y : string * Blob) : Prop := String.le x.1 y.1.

#[global] Instance key_le_dec : RelDecision key_le.
Proof. intros x y. unfold key_le. apply _. Defined.

#[global] Instance key_le_trans : Transitive key_le.
Proof. intros x y z. unfold key_le. apply (transitivity (R:=String.le)). Qed.

#[global] Instance key_le_total : Total key_le.
Proof. intros x y. unfold key_le. apply (total String.le). Qed.

Definition Cursor (b : bucket) : list (string * Blob) :=
  merge_sort key_le (map_to_list b).

(** [c.Seek(seek)]: the pairs from the first key [>= seek] on. *)
Fixpoint Seek (seek : string) (c : list (string * Blob)) : list (string * Blob) :=
  match c with
  | [] => []
  | kv :: c' => if String.ltb kv.1 seek then Seek seek c' else c
  end.

End bolt.

(** ** package boltdb: the locking backend *)

Module boltdb.
Import go models bolt.

(** [lockKey]: [fmt.Sprintf("%s/%s/%s", p.RepoFullName, p.Path, workspace)]. *)
Definition lockKey (p : Project) (workspace : string) : string :=
  RepoFullName p +:+ "/" +:+ Path p +:+ "/" +:+ workspace.

(** [TryLock] runs one update transaction; the result is
    [(lockAcquired, currLock, err)] and the bucket after the transaction.  A
    transaction that returns an error is rolled back. *)
Definition TryLock (newLock : ProjectLock) (b : bucket)
  : (bool * ProjectLock * option error) * bucket :=
  let key := lockKey (LockProject newLock) (LockWorkspace newLock) in
  let newLockSerialized := Marshal newLock in
  match Get key b with
  | None => ((true, newLock, None), Put key newLockSerialized b)
  | Some currLockSerialized =>
      match Unmarshal currLockSerialized with
      | inr err =>
          ((false, zeroProjectLock,
            Some (errorsWrap (errorsWrap err "failed to deserialize current lock")
                             "DB transaction failed")), b)
      | inl currLock => ((false, currLock, None), b)
      end
  end.

(** [Unlock]: the deleted lock (or nil) and the error. *)
Definition Unlock (p : Project) (workspace : string) (b : bucket)
  : (option ProjectLock * option error) * bucket :=
  let key := lockKey p workspace in
  match Get key b with
  | None => ((None, None), Delete key b)
  | Some serialized =>
      match Unmarshal serialized with
      | inr err =>
          ((None, Some (errorsWrap (errorsWrap err "failed to deserialize lock")
                                   "DB transaction failed")), b)
      | inl lock => ((Some lock, None), Delete key b)
      end
  end.

(** The second loop of [List]: decode the collected values in order, stopping
    at the first that does not decode.  [k] is the index in the slice. *)
Fixpoint decodeAll `{Library} (k : Z) (locksBytes : list Blob) (locks : list ProjectLock)
  : list ProjectLock * option error :=
  match locksBytes with
  | [] => (locks, None)
  | v :: rest =>
      match Unmarshal v with
      | inr err =>
          (locks, Some (errorsWrap err
             (Sprintf "failed to deserialize lock at key %q" [argString (RuneString k)])))
      | inl lock => decodeAll (k + 1) rest (locks ++ [lock])
      end
  end.

Definition List `{Library} (b : bucket) : list ProjectLock * option error :=
  decodeAll 0 (snd <$> Cursor b) [].

(** The read transaction of [UnlockByPull]: from [c.Seek(repoFullName)], while
    the key has [repoFullName] as a prefix. *)
Fixpoint scanPull `{Library} (repoFullName : string) (pullNum : Z)
    (c : list (string * Blob)) (locks : list ProjectLock)
  : list ProjectLock * option error :=
  match c with
  | [] => (locks, None)
  | (k, v) :: c' =>
      if HasPrefix k repoFullName then
        match Unmarshal v with
        | inr err =>
            (locks, Some (errorsWrap err
               (Sprintf "deserializing lock at key %q" [argString k])))
        | inl lock =>
            scanPull repoFullName pullNum c'
              (if decide (Num (LockPull lock) = pullNum) then locks ++ [lock] else locks)
        end
      else (locks, None)
  end.

(** The delete loop of [UnlockByPull]. *)
Fixpoint unlockAll `{Library} (todo : list ProjectLock) (b : bucket) : option error * bucket :=
  match todo with
  | [] => (None, b)
  | lock :: rest =>
      match Unlock (LockProject lock) (LockWorkspace lock) b with
      | ((_, Some err), b') =>
          (Some (errorsWrap err
             (Sprintf "unlocking repo %s, path %s, workspace %s"
                [argString (RepoFullName (LockProject lock));
                 argString (Path (LockProject lock));
                 argString (LockWorkspace lock)])), b')
      | ((_, None), b') => unlockAll rest b'
      end
  end.

Definition UnlockByPull `{Library} (repoFullName : string) (pullNum : Z) (b : bucket)
  : (list ProjectLock * option error) * bucket :=
  match scanPull repoFullName pullNum (Seek repoFullName (Cursor b)) [] with
  | (locks, Some err) => ((locks, Some err), b)
  | (locks, None) =>
      let '(err, b') := unlockAll locks b in ((locks, err), b')
  end.

(** Every stored value decodes to a lock, and is stored under that lock's
    own key.  [TryLock] is the only writer, so this holds of every bucket the
    service produces. *)
Definition keyOf (l : ProjectLock) : string :=
  lockKey (LockProject l) (LockWorkspace l).

Definition keyed (b : bucket) : Prop :=
  map_Forall (λ k v, ∃ l, v = Json l ∧ keyOf l = k) b.

Definition entry (l : ProjectLock) : string * Blob := (keyOf l, Json l).

(** The locks that the scan of [UnlockByPull] takes: the key starts with the
    repository name and the pull request has the number. *)
Definition taken (repoFullName : string) (pullNum : Z) (l : ProjectLock) : Prop :=
  HasPrefix (keyOf l) repoFullName = true ∧ Num (LockPull l) = pullNum.

#[global] Instance taken_dec repoFullName pullNum l : Decision (taken repoFullName pullNum l).
Proof. unfold taken. apply _. Defined.

(** The bucket after deleting the keys of the given locks, in order. *)
Definition deleteAll (todo : list ProjectLock) (b : bucket) : bucket :=
  foldl (λ b l, Delete (keyOf l) b) b todo.

Definition lockAt (p : Project) (workspace : string) (pull : PullRequest)
    (user : User) (time : Z) : ProjectLock :=
  {| LockProject := p; LockPull := pull; LockUser := user;
     LockWorkspace := workspace; LockTime := time |}.

(** The operations of the lock service, to state what holds along every run. *)
Inductive op : Type :=
| opTryLock (newLock : ProjectLock)
| opUnlock (p : Project) (workspace : string)
| opUnlockByPull (repoFullName : string) (pullNum : Z).

Definition step `{Library} (b : bucket) (o : op) : bucket :=
  match o with
  | opTryLock newLock => snd (TryLock newLock b)
  | opUnlock p workspace => snd (Unlock p workspace b)
  | opUnlockByPull repoFullName pullNum => snd (UnlockByPull repoFullName pullNum b)
  end.

(** The bucket after a sequence of operations on the bucket [New] creates. *)
Definition run `{Library} (ops : list op) : bucket := foldl step ∅ ops.

(** The locks that [List] reports for a project and workspace. *)
Definition locksFor `{Library} (p : Project) (workspace : string) (b : bucket)
  : list ProjectLock :=
  filter (λ l, LockProject l = p ∧ LockWorkspace l = workspace) (List b).1.

End boltdb.

(** ** package events: results, commit status, the apply executor *)

Module events.
Import go models bolt boltdb.

Inductive CommandName : Type :=
  PlanCommand | ApplyCommand | HelpCommand | UnlockCommand.

#[global] Instance CommandName_eq_dec : EqDecision CommandName.
Proof. solve_decision. Defined.

(** Modelled from the spec: [CommandName.String] and [CommitStatus.String]
    are not among the sources; the spec gives the commit-status description
    as the command and the state, title-cased, so they are the lower-case
    names. *)
Definition CommandName_String (c : CommandName) : string :=
  match c with
  | PlanCommand => "plan"
  | ApplyCommand => "apply"
  | HelpCommand => "help"
  | UnlockCommand => "unlock"
  end.

Definition CommitStatus_String (s : CommitStatus) : string :=
  match s with
  | PendingCommitStatus => "pending"
  | SuccessCommitStatus => "success"
  | FailedCommitStatus => "failed"
  end.

Record Command : Type := {
  CmdName : CommandName;
  Workspace : string;
  Verbose : bool;
  Flags : list string;
  CmdDir : string
}.

Record CommandContext : Type := {
  CtxBaseRepo : Repo;
  CtxHeadRepo : Repo;
  CtxPull : PullRequest;
  CtxUser : User;
  CtxCommand : Command
}.

Record PlanSuccess : Type := {
  TerraformOutput : string;
  LockURL : string;
  RePlanCmd : string;
  ApplyCmd : string
}.

#[global] Instance PlanSuccess_eq_dec : EqDecision PlanSuccess.
Proof. solve_decision. Defined.

Record ProjectResult : Type := {
  ResultPath : string;
  ResultError : option error;
  ResultFailure : string;
  ResultPlanSuccess : option PlanSuccess;
  ResultApplySuccess : string
}.

#[global] Instance ProjectResult_eq_dec : EqDecision ProjectResult.
Proof. solve_decision. Defined.

(** [ProjectResult{}]. *)
Definition zeroProjectResult : ProjectResult :=
  {| ResultPath := EmptyString; ResultError := None; ResultFailure := EmptyString;
     ResultPlanSuccess := None; ResultApplySuccess := EmptyString |}.

(** [ProjectResult.Status]. *)
Definition Status (p : ProjectResult) : CommitStatus :=
  if decide (ResultError p ≠ None) then FailedCommitStatus
  else if decide (ResultFailure p ≠ EmptyString) then FailedCommitStatus
  else SuccessCommitStatus.

(** [CommandResult], called [CommandResponse] by the executors. *)
Record CommandResult : Type := {
  Error_ : option error;
  Failure : string;
  ProjectResults : list ProjectResult
}.

Definition errorResponse (e : error) : CommandResult :=
  {| Error_ := Some e; Failure := EmptyString; ProjectResults := [] |}.
Definition failureResponse (msg : string) : CommandResult :=
  {| Error_ := None; Failure := msg; ProjectResults := [] |}.
Definition resultsResponse (results : list ProjectResult) : CommandResult :=
  {| Error_ := None; Failure := EmptyString; ProjectResults := results |}.

(** *** The commit status updater *)

(** One call of [Client.UpdateStatus]. *)
Record StatusUpdate : Type := {
  StatusRepo : Repo;
  StatusPull : PullRequest;
  StatusState : CommitStatus;
  StatusSrc : string;
  StatusDescription : string;
  StatusURL : string
}.

(** [DefaultCommitStatusUpdater.Update]: the call it makes on the client. *)
Definition Update `{Library} (repo : Repo) (pull : PullRequest) (status : CommitStatus)
    (command : CommandName) : StatusUpdate :=
  let description :=
    Sprintf "%s %s" [argString (Title (CommandName_String command));
                     argString (Title (CommitStatus_String status))] in
  {| StatusRepo := repo; StatusPull := pull; StatusState := status;
     StatusSrc := "Atlantis"; StatusDescription := description;
     StatusURL := EmptyString |}.

Fixpoint worstStatus (ss : list CommitStatus) : CommitStatus :=
  match ss with
  | [] => SuccessCommitStatus
  | s :: ss' =>
      if decide (s = FailedCommitStatus) then FailedCommitStatus else worstStatus ss'
  end.

(** [DefaultCommitStatusUpdater.UpdateProjectResult]. *)
Definition UpdateProjectResult `{Library} (ctx : CommandContext) (commandName : CommandName)
    (res : CommandResult) : StatusUpdate :=
  let status :=
    if decide (Error_ res ≠ None ∨ Failure res ≠ EmptyString) then FailedCommitStatus
    else
      let statuses := foldl (λ statuses p, statuses ++ [Status p]) [] (ProjectResults res) in
      worstStatus statuses in
  Update (CtxBaseRepo ctx) (CtxPull ctx) status commandName.

(** What the claim calls a sub-result that is an Error or a Failure. *)
Definition failedResult (p : ProjectResult) : Prop :=
  ResultError p ≠ None ∨ ResultFailure p ≠ EmptyString.

(** *** The apply executor *)

Record CommandExtraArguments : Type := {
  ExtraName : string;
  ExtraArguments : list string
}.

Record ProjectConfig : Type := {
  PreInit : list string;
  PreGet : list string;
  PrePlan : list string;
  PostPlan : list string;
  PreApply : list string;
  PostApply : list string;
  ConfigTerraformVersion : option string;
  ConfigExtraArguments : list CommandExtraArguments
}.

Definition zeroProjectConfig : ProjectConfig :=
  {| PreInit := []; PreGet := []; PrePlan := []; PostPlan := []; PreApply := [];
     PostApply := []; ConfigTerraformVersion := None; ConfigExtraArguments := [] |}.

(** Modelled from the spec: [ProjectConfig.GetExtraArguments] is not among the
    sources; the configuration lists, per command name, the arguments to add. *)
Fixpoint GetExtraArguments (extra : list CommandExtraArguments) (commandName : string)
  : list string :=
  match extra with
  | [] => []
  | e :: rest =>
      if decide (ExtraName e = commandName) then ExtraArguments e
      else GetExtraArguments rest commandName
  end.

(** [locking.TryLockResponse]. *)
Record TryLockResponse : Type := {
  LockAcquired : bool;
  CurrLock : ProjectLock;
  LockKey : string
}.

Record PreExecuteResult : Type := {
  PreProjectResult : ProjectResult;
  PreProjectConfig : ProjectConfig;
  PreTerraformVersion : option string;
  PreLockResponse : TryLockResponse
}.

(** [webhooks.ApplyResult]. *)
Record ApplyResult : Type := {
  HookWorkspace : string;
  HookUser : User;
  HookRepo : Repo;
  HookPull : PullRequest;
  HookSuccess : bool
}.

Record FileInfo : Type := {
  FileName : string;
  IsDir : bool
}.

(** The clone tree as the executor sees it: what [os.Stat] answers for a path
    and the entries [filepath.Walk] visits from a root, in its order, each
    with the error it reports for that entry. *)
Record FileSystem : Type := {
  Stat : string → option FileInfo;
  WalkEntries : string → list (string * FileInfo * option error)
}.

(** [filepath.Walk]: call [fn] on every entry, stopping at the first error
    that [fn] returns. *)
Fixpoint Walk {S : Type} (entries : list (string * FileInfo * option error))
    (fn : string → FileInfo → option error → S → option error * S) (s : S)
  : option error * S :=
  match entries with
  | [] => (None, s)
  | (path, info, err) :: rest =>
      match fn path info err s with
      | (Some e, s') => (Some e, s')
      | (None, s') => Walk rest fn s'
      end
  end.

(** The executor and its collaborators.  The pre-executor works on the lock
    store; the tool, the hooks and the notifier do not. *)
Record ApplyExecutor : Type := {
  PullIsApproved : Repo → PullRequest → bool * option error;
  RequireApproval : bool;
  GetWorkspace : Repo → PullRequest → string → string + error;
  ProjectPreExecute : CommandContext → string → Project → bucket → PreExecuteResult * bucket;
  RunCommandWithVersion :
    string → list string → option string → string → string * option error;
  RunExecute :
    list string → string → string → option string → string → string * option error;
  Files : FileSystem
}.

(** The state an apply run works on: the lock store and the notifications
    sent so far. *)
Record World : Type := {
  Locks : bucket;
  Sent : list ApplyResult
}.

(** [ApplyExecutor.apply]. *)
Definition apply `{Library} (a : ApplyExecutor) (ctx : CommandContext) (repoDir : string)
    (plan : models.Plan) (w : World) : ProjectResult * World :=
  let '(preExecute, locks) := ProjectPreExecute a ctx repoDir (PlanProject plan) (Locks w) in
  let w := {| Locks := locks; Sent := Sent w |} in
  if decide (PreProjectResult preExecute ≠ zeroProjectResult)
  then (PreProjectResult preExecute, w)
  else
    let config := PreProjectConfig preExecute in
    let terraformVersion := PreTerraformVersion preExecute in
    let applyExtraArgs :=
      GetExtraArguments (ConfigExtraArguments config)
        (CommandName_String (CmdName (CtxCommand ctx))) in
    let absolutePath := Join [repoDir; Path (PlanProject plan)] in
    let workspace := Workspace (CtxCommand ctx) in
    let tfApplyCmd :=
      (("apply" :: "-no-color" :: nil) ++ applyExtraArgs) ++ Flags (CtxCommand ctx)
        ++ [LocalPath plan] in
    let '(output, err) :=
      RunCommandWithVersion a absolutePath tfApplyCmd terraformVersion workspace in
    let w :=
      {| Locks := Locks w;
         Sent := Sent w ++ [{| HookWorkspace := workspace; HookUser := CtxUser ctx;
                               HookRepo := CtxBaseRepo ctx; HookPull := CtxPull ctx;
                               HookSuccess := bool_decide (err = None) |}] |} in
    match err with
    | Some e =>
        ({| ResultPath := EmptyString;
            ResultError :=
              Some (errorsNew (Sprintf ("%s" +:+ newline +:+ "%s")
                                 [argString (Error e); argString output]));
            ResultFailure := EmptyString; ResultPlanSuccess := None;
            ResultApplySuccess := EmptyString |}, w)
    | None =>
        let ok :=
          {| ResultPath := EmptyString; ResultError := None;
             ResultFailure := EmptyString; ResultPlanSuccess := None;
             ResultApplySuccess := output |} in
        match PostApply config with
        | [] => (ok, w)
        | _ :: _ =>
            match RunExecute a (PostApply config) absolutePath workspace
                    terraformVersion "post_apply" with
            | (_, Some e) =>
                ({| ResultPath := EmptyString;
                    ResultError := Some (errorsWrap e "running post apply commands");
                    ResultFailure := EmptyString; ResultPlanSuccess := None;
                    ResultApplySuccess := EmptyString |}, w)
            | (_, None) => (ok, w)
            end
        end
    end.

(** The callback the executor gives to [filepath.Walk]. *)
Definition collect `{Library} (ctx : CommandContext) (repoDir : string)
    (path : string) (info : FileInfo) (err : option error) (plans : list models.Plan)
  : option error * list models.Plan :=
  match err with
  | Some e => (Some e, plans)
  | None =>
      if negb (IsDir info)
         && bool_decide (FileName info = Workspace (CtxCommand ctx) +:+ ".tfplan")
      then
        let rel := Rel repoDir (Dir path) in
        (None, plans ++ [{| PlanProject := NewProject (FullName (CtxBaseRepo ctx)) rel;
                            LocalPath := path |}])
      else (None, plans)
  end.

(** The plan-finding step of [Execute]: the plans to apply, or the response
    with which [Execute] returns at once. *)
Definition findPlans `{Library} (a : ApplyExecutor) (ctx : CommandContext) (repoDir : string)
  : list models.Plan + CommandResult :=
  if decide (CmdDir (CtxCommand ctx) = EmptyString) then
    match Walk (WalkEntries (Files a) repoDir) (collect ctx repoDir) [] with
    | (Some e, _) => inr (errorResponse (errorsWrap e "finding plans"))
    | (None, plans) => inl plans
    end
  else
    let planPath :=
      Join [repoDir; CmdDir (CtxCommand ctx); Workspace (CtxCommand ctx) +:+ ".tfplan"] in
    match Stat (Files a) planPath with
    | Some stat =>
        if IsDir stat then
          inr (errorResponse (errorsNew
                 (Sprintf "no plan found at path %q and workspace %q–did you run plan?"
                    [argString (CmdDir (CtxCommand ctx));
                     argString (Workspace (CtxCommand ctx))])))
        else
          let relProjectPath := Rel repoDir (Dir planPath) in
          inl [{| PlanProject := NewProject (FullName (CtxBaseRepo ctx)) relProjectPath;
                  LocalPath := planPath |}]
    | None =>
        inr (errorResponse (errorsNew
               (Sprintf "no plan found at path %q and workspace %q–did you run plan?"
                  [argString (CmdDir (CtxCommand ctx));
                   argString (Workspace (CtxCommand ctx))])))
    end.

(** The loop of [Execute] over the plans found. *)
Fixpoint applyAll `{Library} (a : ApplyExecutor) (ctx : CommandContext) (repoDir : string)
    (plans : list models.Plan) (results : list ProjectResult) (w : World)
  : list ProjectResult * World :=
  match plans with
  | [] => (results, w)
  | plan :: rest =>
      let '(result, w') := apply a ctx repoDir plan w in
      let result :=
        {| ResultPath := LocalPath plan; ResultError := ResultError result;
           ResultFailure := ResultFailure result;
           ResultPlanSuccess := ResultPlanSuccess result;
           ResultApplySuccess := ResultApplySuccess result |} in
      applyAll a ctx repoDir rest (results ++ [result]) w'
  end.

(** The part of [Execute] after the approval check. *)
Definition executeApproved `{Library} (a : ApplyExecutor) (ctx : CommandContext) (w : World)
  : CommandResult * World :=
  match GetWorkspace a (CtxBaseRepo ctx) (CtxPull ctx) (Workspace (CtxCommand ctx)) with
  | inr _ => (failureResponse "No workspace found. Did you run plan?", w)
  | inl repoDir =>
      match findPlans a ctx repoDir with
      | inr response => (response, w)
      | inl [] => (failureResponse "No plans found for that workspace.", w)
      | inl plans =>
          let '(results, w') := applyAll a ctx repoDir plans [] w in
          (resultsResponse results, w')
      end
  end.

(** The plan recorded for a plan file found at [path]. *)
Definition planAt `{Library} (ctx : CommandContext) (repoDir path : string) : models.Plan :=
  {| PlanProject := NewProject (FullName (CtxBaseRepo ctx)) (Rel repoDir (Dir path));
     LocalPath := path |}.

(** A visited entry is a file, not a directory, named after the workspace. *)
Definition isPlanFile (ctx : CommandContext) (e : string * FileInfo * option error) : Prop :=
  IsDir e.1.2 = false ∧ FileName e.1.2 = Workspace (CtxCommand ctx) +:+ ".tfplan".

#[global] Instance isPlanFile_dec ctx e : Decision (isPlanFile ctx e).
Proof. unfold isPlanFile. apply _. Defined.

(** The one path looked at when the command names a directory. *)
Definition planPath `{Library} (ctx : CommandContext) (repoDir : string) : string :=
  Join [repoDir; CmdDir (CtxCommand ctx); Workspace (CtxCommand ctx) +:+ ".tfplan"].

(** What the notifier was told about the run of [apply]: the tool's apply
    succeeded. *)
Definition toolApplySucceeded `{Library} (a : ApplyExecutor) (ctx : CommandContext)
    (repoDir : string) (plan : models.Plan) (w : World) : Prop :=
  ∃ n, Sent (apply a ctx repoDir plan w).2 = Sent w ++ [n] ∧ HookSuccess n = true.

(** The pull request of [ctx] holds the lock of the plan's project and the
    command's workspace. *)
Definition heldByPull (ctx : CommandContext) (plan : models.Plan) (b : bucket) : Prop :=
  ∃ l, Get (lockKey (PlanProject plan) (Workspace (CtxCommand ctx))) b = Some (Json l)
       ∧ LockPull l = CtxPull ctx.

(** The release on success as the specification words it: after a run in
    which the tool's apply succeeded, the pull request no longer holds the
    lock. *)
Definition releasedOnSuccess `{Library} (a : ApplyExecutor) (ctx : CommandContext)
    (repoDir : string) (plan : models.Plan) (w : World) : Prop :=
  toolApplySucceeded a ctx repoDir plan w →
  ¬ heldByPull ctx plan (Locks (apply a ctx repoDir plan w).2).

(** [ApplyExecutor.Execute]. *)
Definition Execute `{Library} (a : ApplyExecutor) (ctx : CommandContext) (w : World)
  : CommandResult * World :=
  if RequireApproval a then
    match PullIsApproved a (CtxBaseRepo ctx) (CtxPull ctx) with
    | (_, Some e) =>
        (errorResponse (errorsWrap e "checking if pull request was approved"), w)
    | (false, None) =>
        (failureResponse "Pull request must be approved before running apply.", w)
    | (true, None) => executeApproved a ctx w
    end
  else executeApproved a ctx w.

(** *** The project pre-executor *)

(** What the pre-executor calls besides the lock service. *)
Record PreExecutor : Type := {
  LoadConfig : string → ProjectConfig + error;
  RunInit : string → ProjectConfig → string → option error;
  Now : Z
}.

Definition preFailed (r : ProjectResult) (b : bucket) : PreExecuteResult * bucket :=
  ({| PreProjectResult := r; PreProjectConfig := zeroProjectConfig;
      PreTerraformVersion := None;
      PreLockResponse := {| LockAcquired := false; CurrLock := zeroProjectLock;
                            LockKey := EmptyString |} |}, b).

(** Modelled from the spec: [DefaultProjectPreExecutor.Execute] is not among
    the sources.  Following sections 4.F and 9: load the project
    configuration; [TryLock], where a lock that the same pull request already
    holds counts as acquired and any other holder gives a Failure naming the
    holder's pull request by its link; run init/get with the pre-hooks, and
    release the lock when that fails. *)
Definition DefaultProjectPreExecutor_Execute `{Library} (pe : PreExecutor)
    (ctx : CommandContext) (repoDir : string) (project : Project) (b : bucket)
  : PreExecuteResult * bucket :=
  let workspace := Workspace (CtxCommand ctx) in
  let failed e :=
    {| ResultPath := EmptyString; ResultError := Some e; ResultFailure := EmptyString;
       ResultPlanSuccess := None; ResultApplySuccess := EmptyString |} in
  match LoadConfig pe (Join [repoDir; Path project]) with
  | inr e => preFailed (failed e) b
  | inl config =>
      let newLock := lockAt project workspace (CtxPull ctx) (CtxUser ctx) (Now pe) in
      match TryLock newLock b with
      | ((_, _, Some e), b') => preFailed (failed (errorsWrap e "acquiring lock")) b'
      | ((acquired, curr, None), b') =>
          if negb acquired && negb (bool_decide (Num (LockPull curr) = Num (CtxPull ctx)))
          then
            preFailed
              {| ResultPath := EmptyString; ResultError := None;
                 ResultFailure := URL (LockPull curr);
                 ResultPlanSuccess := None; ResultApplySuccess := EmptyString |} b'
          else
            match RunInit pe (Join [repoDir; Path project]) config workspace with
            | Some e => preFailed (failed e) (boltdb.Unlock project workspace b').2
            | None =>
                ({| PreProjectResult := zeroProjectResult;
                    PreProjectConfig := config;
                    PreTerraformVersion := ConfigTerraformVersion config;
                    PreLockResponse :=
                      {| LockAcquired := true; CurrLock := curr;
                         LockKey := lockKey project workspace |} |}, b')
            end
      end
  end.

End events.

(** ** package runtime: building the plan command *)

Module runtime.
Import go models.

(** The part of the project configuration that the step runner reads. *)
Record ProjectCfg : Type := {
  ProjectName : option string;
  CfgTerraformVersion : option string
}.

Record ProjectCommandContext : Type := {
  BaseRepo : Repo;
  Pull : PullRequest;
  User_ : User;
  Workspace : string;
  ProjectConfig : option ProjectCfg;
  CommentArgs : list string
}.

(** The step runner with what it calls outside this file: the version
    constraint [>=0.12-a] of the go-version library, [GetPlanFilename] of this
    package (not among the sources) and whether [os.Stat] finds a path. *)
Record PlanStepRunner : Type := {
  DefaultTFVersion : string;
  vTwelveAndUp : string → bool;
  GetPlanFilename : string → option ProjectCfg → string;
  StatOK : string → bool
}.

(** [tfVars]. *)
Definition tfVars `{Library} (p : PlanStepRunner) (ctx : ProjectCommandContext)
    (tfVersion : string) : list string :=
  if vTwelveAndUp p tfVersion then []
  else
    [ "-var";
      Sprintf "%s=%q" [argString "atlantis_user"; argString (Username (User_ ctx))];
      "-var";
      Sprintf "%s=%q" [argString "atlantis_repo"; argString (FullName (BaseRepo ctx))];
      "-var";
      Sprintf "%s=%q" [argString "atlantis_repo_name"; argString (Name (BaseRepo ctx))];
      "-var";
      Sprintf "%s=%q" [argString "atlantis_repo_owner"; argString (Owner (BaseRepo ctx))];
      "-var";
      Sprintf "%s=%d" [argString "atlantis_pull_num"; argInt (Num (Pull ctx))] ].

(** [flatten]. *)
Definition flatten (slices : list (list string)) : list string :=
  foldl (λ flattened v, flattened ++ v) [] slices.

(** [buildPlanCmd]. *)
Definition buildPlanCmd `{Library} (p : PlanStepRunner) (ctx : ProjectCommandContext)
    (extraArgs : list string) (path : string) (tfVersion : string) : list string :=
  let tfVars := tfVars p ctx tfVersion in
  let planFile := Join [path; GetPlanFilename p (Workspace ctx) (ProjectConfig ctx)] in
  let envFile := Join [path; "env"; Workspace ctx +:+ ".tfvars"] in
  let envFileArgs := if StatOK p envFile then ["-var-file"; envFile] else [] in
  let argList :=
    [ [ "plan"; "-input=false"; "-refresh"; "-no-color"; "-out";
        Sprintf "%q" [argString planFile] ];
      tfVars;
      extraArgs;
      CommentArgs ctx;
      envFileArgs ] in
  flatten argList.

(** The placement as the specification words it: the [-var-file] pair comes
    before the extra arguments of the configuration and of the comment. *)
Definition varFileBeforeExtraArgs (cmd extraArgs commentArgs : list string) : Prop :=
  ∃ pre file mid post,
    cmd = pre ++ ["-var-file"; file] ++ mid ++ extraArgs ++ commentArgs ++ post.

End runtime.

(** ** package server: the lock admin surface *)

Module server.
Import go models bolt.

Inductive LogLevel : Type := Debug | Info | Warn | Error_.

(** What the handler wrote: [WriteHeader(code)] and the body. *)
Record Response : Type := {
  Code : Z;
  Body : string
}.

Definition StatusOK : Z := 200.
Definition StatusBadRequest : Z := 400.
Definition StatusNotFound : Z := 404.
Definition StatusInternalServerError : Z := 500.

(** One call of [VCSClient.CreateComment]. *)
Record Comment : Type := {
  CommentRepo : Repo;
  CommentPull : Z;
  CommentBody : string;
  CommentCommand : string
}.

(** The request as the handler reads it: the route variables. *)
Record Request : Type := {
  Vars : gmap string string
}.

(** The controller's collaborators.  [DeleteLock] of the delete-lock command
    works on the lock store; the others answer with their error. *)
Record LocksController : Type := {
  DeleteLockCommand :
    string → bucket → (option ProjectLock * option error) * bucket;
  WorkingDirLockerTryLock : string → Z → string → option error;
  DeleteForWorkspace : Repo → PullRequest → string → option error;
  UpdateProjectStatus : PullRequest → string → string → option error;
  CreateComment : Repo → Z → string → string → option error
}.

(** The lock store, the log, and the calls made on the working directory, the
    status database and the VCS client. *)
Record World : Type := {
  Locks : bucket;
  Log : list (LogLevel * string);
  DeletedWorkspaces : list (Repo * PullRequest * string);
  DiscardedProjects : list (PullRequest * string * string);
  Comments : list Comment
}.

Definition ishex (c : ascii) : bool :=
  let n := nat_of_ascii c in
  bool_decide (48 ≤ n ≤ 57)%nat || bool_decide (97 ≤ n ≤ 102)%nat
  || bool_decide (65 ≤ n ≤ 70)%nat.

Definition unhex (c : ascii) : nat :=
  let n := nat_of_ascii c in
  if bool_decide (48 ≤ n ≤ 57)%nat then (n - 48)%nat
  else if bool_decide (97 ≤ n ≤ 102)%nat then (n - 97 + 10)%nat
  else if bool_decide (65 ≤ n ≤ 70)%nat then (n - 65 + 10)%nat
  else 0%nat.

(** [url.PathUnescape]: [%XX] becomes the byte [XX]; a percent sign that two
    hexadecimal digits do not follow is an [EscapeError] holding at most
    three bytes from the percent sign on. *)
Fixpoint PathUnescape `{Library} (s : string) : string + error :=
  match s with
  | EmptyString => inl EmptyString
  | String c rest =>
      if decide (c = "%"%char) then
        match rest with
        | String a (String b rest') =>
            if ishex a && ishex b then
              match PathUnescape rest' with
              | inl t => inl (String (ascii_of_nat (unhex a * 16 + unhex b)) t)
              | inr e => inr e
              end
            else
              inr (errorsNew ("invalid URL escape "
                     +:+ Quote (String c (String a (String b EmptyString)))))
        | _ => inr (errorsNew ("invalid URL escape " +:+ Quote s))
        end
      else
        match PathUnescape rest with
        | inl t => inl (String c t)
        | inr e => inr e
        end
  end.

Definition logf `{Library} (lvl : LogLevel) (format : string) (args : list arg) (w : World)
  : World :=
  {| Locks := Locks w; Log := Log w ++ [(lvl, Sprintf format args)];
     DeletedWorkspaces := DeletedWorkspaces w; DiscardedProjects := DiscardedProjects w;
     Comments := Comments w |}.

(** [respond]: log the response, write the code, then the response as one
    line. *)
Definition respond `{Library} (lvl : LogLevel) (responseCode : Z) (format : string)
    (args : list arg) (w : World) : Response * World :=
  let response := Sprintf format args in
  ({| Code := responseCode; Body := response +:+ newline |},
   {| Locks := Locks w; Log := Log w ++ [(lvl, response)];
      DeletedWorkspaces := DeletedWorkspaces w; DiscardedProjects := DiscardedProjects w;
      Comments := Comments w |}).

Definition discardedComment : string :=
  "**Warning**: The plan for dir: `%s` workspace: `%s` was **discarded** via the Atlantis UI."
  +:+ newline +:+ newline +:+ "To `apply` this plan you must run `plan` again.".

(** The branch of [DeleteLock] taken when the lock's pull request carries a
    base repository: delete the workspace, mark the project discarded,
    comment on the pull request.  Errors are logged and nothing else. *)
Definition notifyPull `{Library} (l : LocksController) (lock : ProjectLock) (w : World)
  : World :=
  let pull := LockPull lock in
  let w :=
    match WorkingDirLockerTryLock l (FullName (BaseRepo pull)) (Num pull)
            (LockWorkspace lock) with
    | Some err =>
        logf Error_ "unable to obtain working dir lock when trying to delete old plans: %s"
          [argError err] w
    | None =>
        let w' :=
          {| Locks := Locks w; Log := Log w;
             DeletedWorkspaces :=
               DeletedWorkspaces w ++ [(BaseRepo pull, pull, LockWorkspace lock)];
             DiscardedProjects := DiscardedProjects w; Comments := Comments w |} in
        match DeleteForWorkspace l (BaseRepo pull) pull (LockWorkspace lock) with
        | Some err => logf Error_ "unable to delete workspace: %s" [argError err] w'
        | None => w'
        end
    end in
  let w :=
    let w' :=
      {| Locks := Locks w; Log := Log w; DeletedWorkspaces := DeletedWorkspaces w;
         DiscardedProjects :=
           DiscardedProjects w ++ [(pull, LockWorkspace lock, Path (LockProject lock))];
         Comments := Comments w |} in
    match UpdateProjectStatus l pull (LockWorkspace lock) (Path (LockProject lock)) with
    | Some err => logf Error_ "unable to update project status: %s" [argError err] w'
    | None => w'
    end in
  let comment :=
    Sprintf discardedComment
      [argString (Path (LockProject lock)); argString (LockWorkspace lock)] in
  let w' :=
    {| Locks := Locks w; Log := Log w; DeletedWorkspaces := DeletedWorkspaces w;
       DiscardedProjects := DiscardedProjects w;
       Comments := Comments w ++ [{| CommentRepo := BaseRepo pull; CommentPull := Num pull;
                                     CommentBody := comment;
                                     CommentCommand := EmptyString |}] |} in
  match CreateComment l (BaseRepo pull) (Num pull) comment EmptyString with
  | Some err => logf Warn "failed commenting on pull request: %s" [argError err] w'
  | None => w'
  end.

(** [LocksController.DeleteLock]. *)
Definition DeleteLock `{Library} (l : LocksController) (r : Request) (w : World)
  : Response * World :=
  match Vars r !! "id" with
  | None => respond Warn StatusBadRequest "No lock id in request" [] w
  | Some id =>
      if decide (id = EmptyString)
      then respond Warn StatusBadRequest "No lock id in request" [] w
      else
        match PathUnescape id with
        | inr err =>
            respond Warn StatusBadRequest "Invalid lock id %q. Failed with error: %s"
              [argString id; argError err] w
        | inl idUnencoded =>
            let '((lock, err), locks) := DeleteLockCommand l idUnencoded (Locks w) in
            let w :=
              {| Locks := locks; Log := Log w; DeletedWorkspaces := DeletedWorkspaces w;
                 DiscardedProjects := DiscardedProjects w; Comments := Comments w |} in
            match err with
            | Some err =>
                respond Error_ StatusInternalServerError "deleting lock failed with: %s"
                  [argError err] w
            | None =>
                match lock with
                | None =>
                    respond Info StatusNotFound "No lock found at id %q"
                      [argString idUnencoded] w
                | Some lock =>
                    let w :=
                      if decide (BaseRepo (LockPull lock) ≠ zeroRepo)
                      then notifyPull l lock w
                      else
                        logf Debug
                          "skipping commenting on pull request and deleting workspace because BaseRepo field is empty"
                          [] w in
                    respond Info StatusOK "Deleted lock id %q" [argString id] w
                end
            end
        end
  end.

(** Modelled from the spec: [DefaultDeleteLockCommand.DeleteLock] is not among
    the sources.  Section 4.J: delete the lock with that id and return it;
    return nil, and no error, when the id matches no lock; a storage error is
    returned as the error. *)
Definition DefaultDeleteLockCommand_DeleteLock (id : string) (b : bucket)
  : (option ProjectLock * option error) * bucket :=
  match Get id b with
  | None => ((None, None), b)
  | Some v =>
      match Unmarshal v with
      | inr err => ((None, Some err), b)
      | inl lock => ((Some lock, None), Delete id b)
      end
  end.

(** The comment as the specification words it. *)
Definition unlockedComment : string :=
  "The workspace has been unlocked via the Atlantis UI. To apply this plan you must run `plan` again.".

Definition commentsUnlocked `{Library} (l : LocksController) (r : Request) (w : World) : Prop :=
  ∃ c, c ∈ Comments (DeleteLock l r w).2 ∧ CommentBody c = unlockedComment.

End server.

(** ** Concrete library functions and values for the examples *)

Module plain.
Import go.

Definition dquote : ascii := ascii_of_nat 34.

(** [strconv.Quote] on printable ASCII text without quotes or backslashes. *)
Definition Quote (s : string) : string := String dquote (s +:+ String dquote EmptyString).

(** [filepath.Join] on elements that are already clean. *)
Definition Join (elems : list string) : string :=
  String.concat "/" (filter (λ e, e ≠ EmptyString) elems).

Fixpoint beforeLastSlash (s : string) : option string :=
  match s with
  | EmptyString => None
  | String c rest =>
      match beforeLastSlash rest with
      | Some d => Some (String c d)
      | None => if decide (c = "/"%char) then Some EmptyString else None
      end
  end.

(** [filepath.Dir] on clean paths. *)
Definition Dir (p : string) : string :=
  match beforeLastSlash p with
  | Some EmptyString => "/"
  | Some d => d
  | None => "."
  end.

(** [filepath.Rel base targ] for a clean [targ] at or below a clean [base]. *)
Definition Rel (base targ : string) : string :=
  if decide (targ = base) then "."
  else if String.prefix (base +:+ "/") targ
       then String.substring (S (String.length base))
              (String.length targ - S (String.length base)) targ
       else targ.

(** [strings.Title] on a single lower-case ASCII word. *)
Definition Title (s : string) : string :=
  match s with
  | EmptyString => EmptyString
  | String c rest =>
      let n := nat_of_ascii c in
      String (if decide (97 ≤ n ≤ 122)%nat then ascii_of_nat (n - 32) else c) rest
  end.

(** [string(k)] for a code point below 128. *)
Definition RuneString (k : Z) : string := String (ascii_of_nat (Z.to_nat k)) EmptyString.

Definition library : Library :=
  {| go.Quote := Quote; go.Join := Join; go.Rel := Rel; go.Dir := Dir;
     go.Title := Title; go.RuneString := RuneString |}.

End plain.

Module fixtures.
Import go models bolt boltdb.

Definition repo (fullName owner name : string) : Repo :=
  {| FullName := fullName; Owner := owner; Name := name;
     CloneURL := "https://github.com/" +:+ fullName +:+ ".git";
     SanitizedCloneURL := "https://github.com/" +:+ fullName +:+ ".git";
     RepoVCSHost := {| Hostname := "github.com"; Type_ := Github |} |}.

Definition pull (r : Repo) (num : Z) : PullRequest :=
  {| Num := num; HeadCommit := "abc123"; URL := "https://github.com/pull";
     Branch := "feature"; Author := "lkysow"; State := Open;
     HeadRepo := r; BaseRepo := r |}.

Definition lockOf (r : Repo) (path workspace : string) (num : Z) : ProjectLock :=
  {| LockProject := NewProject (FullName r) path;
     LockPull := pull r num;
     LockUser := {| Username := "lkysow" |};
     LockWorkspace := workspace;
     LockTime := 1500000000 |}.

Definition ownerRepo : Repo := repo "owner/repo" "owner" "repo".
Definition ownerRepo2 : Repo := repo "owner/repo-2" "owner" "repo-2".

Definition lockRepoPull1 : ProjectLock := lockOf ownerRepo "." "default" 1.
Definition lockRepo2Pull1 : ProjectLock := lockOf ownerRepo2 "." "default" 1.
Definition lockRepoPull2 : ProjectLock := lockOf ownerRepo "." "default" 2.

(** One lock of pull request 1 in each of two repositories, the name of the
    first being a prefix of the name of the second. *)
Definition twoRepos : bucket :=
  @run plain.library [opTryLock lockRepoPull1; opTryLock lockRepo2Pull1].

(** An apply run on pull request 1 of [owner/repo], which planned the root
    project in the default workspace and so holds its lock. *)
Definition cloneDir : string := "/data/repos/owner/repo/1/default".

Definition applyCommand (dir : string) : events.Command :=
  {| events.CmdName := events.ApplyCommand; events.Workspace := "default";
     events.Verbose := false; events.Flags := []; events.CmdDir := dir |}.

Definition applyCtx (dir : string) : events.CommandContext :=
  {| events.CtxBaseRepo := ownerRepo; events.CtxHeadRepo := ownerRepo;
     events.CtxPull := pull ownerRepo 1;
     events.CtxUser := {| Username := "lkysow" |};
     events.CtxCommand := applyCommand dir |}.

Definition regular (name : string) : events.FileInfo :=
  {| events.FileName := name; events.IsDir := false |}.
Definition directory (name : string) : events.FileInfo :=
  {| events.FileName := name; events.IsDir := true |}.

(** The clone holds [main.tf] and the plan of the default workspace at its
    root, and a directory [modules] without a plan. *)
Definition cloneFiles : events.FileSystem :=
  {| events.Stat := λ path,
       if decide (path = cloneDir +:+ "/default.tfplan") then Some (regular "default.tfplan")
       else if decide (path = cloneDir +:+ "/modules") then Some (directory "modules")
       else None;
     events.WalkEntries := λ root,
       if decide (root = cloneDir) then
         [ (cloneDir, directory "default", None);
           (cloneDir +:+ "/default.tfplan", regular "default.tfplan", None);
           (cloneDir +:+ "/main.tf", regular "main.tf", None);
           (cloneDir +:+ "/modules", directory "modules", None) ]
       else [] |}.

Definition preExecutor : events.PreExecutor :=
  {| events.LoadConfig := λ _, inl events.zeroProjectConfig;
     events.RunInit := λ _ _ _, None;
     events.Now := 1500000600 |}.

Definition applyExecutor : events.ApplyExecutor :=
  {| events.PullIsApproved := λ _ _, (true, None);
     events.RequireApproval := false;
     events.GetWorkspace := λ _ _ _, inl cloneDir;
     events.ProjectPreExecute :=
       @events.DefaultProjectPreExecutor_Execute plain.library preExecutor;
     events.RunCommandWithVersion := λ _ _ _ _, ("Apply complete!", None);
     events.RunExecute := λ _ _ _ _ _, (EmptyString, None);
     events.Files := cloneFiles |}.

Definition rootPlan : Plan :=
  {| PlanProject := NewProject "owner/repo" ".";
     LocalPath := cloneDir +:+ "/default.tfplan" |}.

Definition appliedNotice : events.ApplyResult :=
  {| events.HookWorkspace := "default"; events.HookUser := {| Username := "lkysow" |};
     events.HookRepo := ownerRepo; events.HookPull := pull ownerRepo 1;
     events.HookSuccess := true |}.

Definition planned : events.World :=
  {| events.Locks := (TryLock lockRepoPull1 ∅).2; events.Sent := [] |}.

(** A plan of workspace [prod] whose project directory holds
    [env/prod.tfvars], with one extra argument from the configuration and
    one from the comment. *)
Definition planRunner : runtime.PlanStepRunner :=
  {| runtime.DefaultTFVersion := "0.11.10";
     runtime.vTwelveAndUp := λ _, false;
     runtime.GetPlanFilename := λ workspace _, workspace +:+ ".tfplan";
     runtime.StatOK := λ path, bool_decide (path = "/clone/project/env/prod.tfvars") |}.

Definition planCtx : runtime.ProjectCommandContext :=
  {| runtime.BaseRepo := ownerRepo; runtime.Pull := pull ownerRepo 1;
     runtime.User_ := {| Username := "lkysow" |}; runtime.Workspace := "prod";
     runtime.ProjectConfig := None;
     runtime.CommentArgs := ["-target=aws_instance.web"] |}.

Definition configExtraArgs : list string := ["-lock=false"].

(** The admin surface over a store in which pull request 1 holds the lock of
    the root project. *)
Definition locksController : server.LocksController :=
  {| server.DeleteLockCommand := server.DefaultDeleteLockCommand_DeleteLock;
     server.WorkingDirLockerTryLock := λ _ _ _, None;
     server.DeleteForWorkspace := λ _ _ _, None;
     server.UpdateProjectStatus := λ _ _ _, None;
     server.CreateComment := λ _ _ _ _, None |}.

Definition deleteRequest (id : string) : server.Request :=
  {| server.Vars := {[ "id" := id ]} |}.

Definition adminWorld (locks : bucket) : server.World :=
  {| server.Locks := locks; server.Log := []; server.DeletedWorkspaces := [];
     server.DiscardedProjects := []; server.Comments := [] |}.

(** A lock as stored before [BaseRepo] was added to the pull request. *)
Definition oldLock : ProjectLock :=
  {| LockProject := NewProject "owner/repo" "old";
     LockPull := {| Num := 3; HeadCommit := "def456"; URL := "https://github.com/pull3";
                    Branch := "old"; Author := "lkysow"; State := Open;
                    HeadRepo := zeroRepo; BaseRepo := zeroRepo |};
     LockUser := {| Username := "lkysow" |};
     LockWorkspace := "default";
     LockTime := 1400000000 |}.

End fixtures.

(** ** Proof automation *)

(** Compare a concrete list with [pre ++ rest] for every length of [pre]. *)
Ltac peel_prefix Heq pre :=
  destruct pre as [|? pre]; simpl in Heq;
  [ try discriminate Heq
  | try discriminate Heq; injection Heq as _ Heq; peel_prefix Heq pre ].


(* ===================================================================== *)
(** * Part I, continued: the rest of the cited files, their callees and
    callers *)
(* ===================================================================== *)

(** ** package boltdb: reading a lock, and the status of pull requests *)

Module boltdb_status.
Import go models bolt boltdb.

(** [GetLock]: a read transaction.  [Time.Local] keeps the instant. *)
Definition GetLock `{Library} (p : Project) (workspace : string) (b : bucket)
  : option ProjectLock * option error :=
  let key := lockKey p workspace in
  match Get key b with
  | None => (None, None)
  | Some lockBytes =>
      match Unmarshal lockBytes with
      | inr err =>
          (None, Some (errorsWrap err
                   (Sprintf "deserializing lock at key %q" [argString key])))
      | inl lock => (Some lock, None)
      end
  end.

(** The results of a command per project, as the status functions read
    them ([models.ProjectResult]). *)
Record ProjectResult : Type := {
  ResWorkspace : string;
  ResRepoRelDir : string;
  ResProjectName : string;
  ResError : option error;
  ResFailure : string;
  ResPlanSuccess : option events.PlanSuccess;
  ResApplySuccess : string
}.

Inductive ProjectPlanStatus : Type :=
  ErroredPlanStatus | PlannedPlanStatus | AppliedPlanStatus.

#[global] Instance ProjectPlanStatus_eq_dec : EqDecision ProjectPlanStatus.
Proof. solve_decision. Defined.

(** [ProjectPlanStatus.String]. *)
Definition ProjectPlanStatus_String (p : ProjectPlanStatus) : string :=
  match p with
  | ErroredPlanStatus => "errored"
  | PlannedPlanStatus => "planned"
  | AppliedPlanStatus => "applied"
  end.

Record ProjectStatus : Type := {
  ProjWorkspace : string;
  ProjRepoRelDir : string;
  ProjProjectName : string;
  ProjStatus : ProjectPlanStatus
}.

#[global] Instance ProjectStatus_eq_dec : EqDecision ProjectStatus.
Proof. solve_decision. Defined.

Record PullStatus : Type := {
  Projects : list ProjectStatus;
  PullOf : PullRequest
}.

(** The bytes stored in the pulls bucket: a value that [json.Unmarshal]
    accepts is represented by the status it decodes to, any other value by
    its bytes and the decoder's message. *)
Inductive PullBlob : Type :=
| PullJson (p : PullStatus)
| PullUndecodable (raw why : string).

Abbreviation pullBucket := (gmap string PullBlob).

Definition pullKeySeparator : string := "::".

(** [strings.Contains]. *)
Fixpoint Contains (s substr : string) : bool :=
  String.prefix substr s
  || match s with
     | EmptyString => false
     | String _ rest => Contains rest substr
     end.

(** [pullKey]: [fmt.Sprintf("%s::%s::%d", hostname, repo, pull.Num)].  The
    message for a bad repository name is formatted with the hostname, as in
    the source. *)
Definition pullKey `{Library} (pull : PullRequest) : string + error :=
  let hostname := Hostname (RepoVCSHost (BaseRepo pull)) in
  if Contains hostname pullKeySeparator then
    inr (errorsNew (Sprintf "vcs hostname %q contains illegal string %q"
                      [argString hostname; argString pullKeySeparator]))
  else
    let repo := FullName (BaseRepo pull) in
    if Contains repo pullKeySeparator then
      inr (errorsNew (Sprintf "repo name %q contains illegal string %q"
                        [argString hostname; argString pullKeySeparator]))
    else inl (hostname +:+ "::" +:+ repo +:+ "::" +:+ Itoa (Num pull)).

(** [getPullFromBucket]. *)
Definition getPullFromBucket `{Library} (bucket : pullBucket) (key : string)
  : option PullStatus * option error :=
  match bucket !! key with
  | None => (None, None)
  | Some (PullJson p) => (Some p, None)
  | Some (PullUndecodable raw why) =>
      (None, Some (errorsWrap (errorsNew why)
                     (Sprintf "deserializing pull at %q with contents %q"
                        [argString key; argString raw])))
  end.

(** [writePullToBucket]. *)
Definition writePullToBucket (bucket : pullBucket) (key : string) (pull : PullStatus)
  : pullBucket :=
  <[key := PullJson pull]> bucket.

(** [getPlanStatus]. *)
Definition getPlanStatus (p : ProjectResult) : ProjectPlanStatus :=
  if decide (ResError p ≠ None) then ErroredPlanStatus
  else if decide (ResFailure p ≠ EmptyString) then ErroredPlanStatus
  else if decide (ResPlanSuccess p ≠ None) then PlannedPlanStatus
  else if decide (ResApplySuccess p ≠ EmptyString) then AppliedPlanStatus
  else ErroredPlanStatus.

(** [projectResultToProject]. *)
Definition projectResultToProject (p : ProjectResult) : ProjectStatus :=
  {| ProjWorkspace := ResWorkspace p; ProjRepoRelDir := ResRepoRelDir p;
     ProjProjectName := ResProjectName p; ProjStatus := getPlanStatus p |}.

(** The test of the inner loop of [UpdatePullWithResults]. *)
Definition sameProject (res : ProjectResult) (proj : ProjectStatus) : Prop :=
  ResWorkspace res = ProjWorkspace proj
  ∧ ResRepoRelDir res = ProjRepoRelDir proj
  ∧ ResProjectName res = ProjProjectName proj.

#[global] Instance sameProject_dec res proj : Decision (sameProject res proj).
Proof. unfold sameProject. apply _. Defined.

(** What identifies a project within a pull request. *)
Definition projKey (proj : ProjectStatus) : string * string * string :=
  (ProjWorkspace proj, ProjRepoRelDir proj, ProjProjectName proj).

Definition resKey (res : ProjectResult) : string * string * string :=
  (ResWorkspace res, ResRepoRelDir res, ResProjectName res).

(** The inner loop: set the status of the first project that [res] is about;
    [None] when there is none ([updatedExisting] stays false). *)
Fixpoint updateExisting (res : ProjectResult) (projects : list ProjectStatus)
  : option (list ProjectStatus) :=
  match projects with
  | [] => None
  | proj :: rest =>
      if decide (sameProject res proj) then
        Some ({| ProjWorkspace := ProjWorkspace proj;
                 ProjRepoRelDir := ProjRepoRelDir proj;
                 ProjProjectName := ProjProjectName proj;
                 ProjStatus := getPlanStatus res |} :: rest)
      else
        match updateExisting res rest with
        | Some rest' => Some (proj :: rest')
        | None => None
        end
  end.

(** One round of the outer loop. *)
Definition mergeResult (projects : list ProjectStatus) (res : ProjectResult)
  : list ProjectStatus :=
  match updateExisting res projects with
  | Some projects' => projects'
  | None => projects ++ [projectResultToProject res]
  end.

(** [UpdatePullWithResults]: the new status (nil on error), the error, and
    the bucket after the transaction. *)
Definition UpdatePullWithResults `{Library} (pull : PullRequest)
    (newResults : list ProjectResult) (b : pullBucket)
  : (option PullStatus * option error) * pullBucket :=
  match pullKey pull with
  | inr err => ((None, Some err), b)
  | inl key =>
      match getPullFromBucket b key with
      | (_, Some err) => ((None, Some (errorsWrap err "DB transaction failed")), b)
      | (currStatus, None) =>
          let newStatus :=
            match currStatus with
            | Some curr =>
                if decide (HeadCommit (PullOf curr) ≠ HeadCommit pull) then
                  {| PullOf := pull;
                     Projects :=
                       foldl (λ statuses r, statuses ++ [projectResultToProject r]) []
                         newResults |}
                else
                  {| PullOf := PullOf curr;
                     Projects := foldl mergeResult (Projects curr) newResults |}
            | None =>
                {| PullOf := pull;
                   Projects :=
                     foldl (λ statuses r, statuses ++ [projectResultToProject r]) []
                       newResults |}
            end in
          ((Some newStatus, None), writePullToBucket b key newStatus)
      end
  end.

(** [GetPullStatus]. *)
Definition GetPullStatus `{Library} (pull : PullRequest) (b : pullBucket)
  : option PullStatus * option error :=
  match pullKey pull with
  | inr err => (None, Some err)
  | inl key =>
      match getPullFromBucket b key with
      | (pullStatus, Some err) => (pullStatus, Some (errorsWrap err "DB transaction failed"))
      | (pullStatus, None) => (pullStatus, None)
      end
  end.

(** [DeletePullStatus]. *)
Definition DeletePullStatus `{Library} (pull : PullRequest) (b : pullBucket)
  : option error * pullBucket :=
  match pullKey pull with
  | inr err => (Some err, b)
  | inl key => (None, delete key b)
  end.

(** [DeleteProjectStatus]. *)
Definition DeleteProjectStatus `{Library} (pull : PullRequest)
    (workspace repoRelDir : string) (b : pullBucket) : option error * pullBucket :=
  match pullKey pull with
  | inr err => (Some err, b)
  | inl key =>
      match getPullFromBucket b key with
      | (_, Some err) => (Some (errorsWrap err "DB transaction failed"), b)
      | (None, None) => (None, b)
      | (Some currStatus, None) =>
          let newProjects :=
            foldl (λ newProjects p,
                     if decide (ProjWorkspace p = workspace ∧ ProjRepoRelDir p = repoRelDir)
                     then newProjects else newProjects ++ [p])
                  [] (Projects currStatus) in
          (None, writePullToBucket b key
                   {| Projects := newProjects; PullOf := PullOf currStatus |})
      end
  end.

End boltdb_status.

(** ** package terraform: running the tool *)

Module terraform.
Import go.

(** [tfCrashDelim]: how the end of a crash log of the tool looks. *)
Definition tfCrashDelim : string :=
  "[1]: https://github.com/hashicorp/terraform/issues" +:+ newline +:+ newline
  +:+ "!!!!!!!!!!!!!!!!!!!!!!!!!!! TERRAFORM CRASH !!!!!!!!!!!!!!!!!!!!!!!!!!!!".

(** [strings.Join]. *)
Definition StringsJoin (elems : list string) (sep : string) : string :=
  String.concat sep elems.

(** The test of the reading loop of [crashSafeExec]: the last three lines read
    are the crash delimiter. *)
Definition isCrash (outputLines : list string) : bool :=
  bool_decide (3 ≤ length outputLines)%nat
  && bool_decide
       (StringsJoin (drop (length outputLines - 3) outputLines) newline = tfCrashDelim).

(** The reading loop of [crashSafeExec] over the lines that arrive on the
    channel. *)
Fixpoint readLines (ch : list string) (outputLines : list string) : list string :=
  match ch with
  | [] => outputLines
  | line :: rest =>
      let outputLines := outputLines ++ [line] in
      if isCrash outputLines then outputLines else readLines rest outputLines
  end.

(** The client and what it runs on: whether two versions are equal
    (go-version), the environment of the process, whether a pipe can be
    opened, and, for a shell command run in a directory with an environment,
    the lines written to the pipe and the error of starting or waiting. *)
Record DefaultClient : Type := {
  defaultVersion : string;
  terraformPluginCacheDir : string;
  VersionEqual : string → string → bool;
  Environ : list string;
  Pipe : option error;
  Sh : string → string → list string → list string * option error
}.

(** [crashSafeExec]. *)
Definition crashSafeExec (c : DefaultClient) (tfCmd dir : string) (env : list string)
  : string * option error :=
  match Pipe c with
  | Some err => (EmptyString, Some (errorsWrap err "failed to initialize pipe for output"))
  | None =>
      let '(ch, err) := Sh c tfCmd dir env in
      (StringsJoin (readLines ch []) newline, err)
  end.

(** [RunCommandWithVersion]; [v] is [None] for a nil version. *)
Definition RunCommandWithVersion `{Library} (c : DefaultClient) (path : string)
    (args : list string) (v : option string) (workspace : string)
  : string * option error :=
  let '(tfExecutable, tfVersionStr) :=
    match v with
    | Some v =>
        if negb (VersionEqual c v (defaultVersion c))
        then (Sprintf "%s%s" [argString "terraform"; argString v], v)
        else ("terraform", defaultVersion c)
    | None => ("terraform", defaultVersion c)
    end in
  let envVars :=
    [ "TF_IN_AUTOMATION=true";
      Sprintf "TF_PLUGIN_CACHE_DIR=%s" [argString (terraformPluginCacheDir c)];
      Sprintf "WORKSPACE=%s" [argString workspace];
      Sprintf "ATLANTIS_TERRAFORM_VERSION=%s" [argString tfVersionStr];
      Sprintf "DIR=%s" [argString path] ] ++ Environ c in
  let tfCmd := Sprintf "%s %s" [argString tfExecutable; argString (StringsJoin args " ")] in
  match crashSafeExec c tfCmd path envVars with
  | (out, Some err) =>
      (out, Some (errorsNew (Sprintf "%s: running %q in %q"
                               [argError err; argString tfCmd; argString path])))
  | (out, None) => (out, None)
  end.

(** A file on disk: its contents and the error of reading it, if any. *)
Record File : Type := {
  Contents : string;
  ReadErr : option error
}.

(** The disk as [generateRCFile] uses it: the files, and the error of writing
    to a path, if any. *)
Record Disk : Type := {
  Files : gmap string File;
  WriteErr : string → option error
}.

(** [rcFileContents]. *)
Definition rcFileContents : string :=
  "credentials " +:+ String (ascii_of_nat 34) "app.terraform.io"
  +:+ String (ascii_of_nat 34) " {" +:+ newline +:+ "  token = %q" +:+ newline +:+ "}".

(** [generateRCFile]. *)
Definition generateRCFile `{Library} (tfeToken home : string) (d : Disk)
  : option error * Disk :=
  let rcFilename := ".terraformrc" in
  let rcFile := Join [home; rcFilename] in
  let config := Sprintf rcFileContents [argString tfeToken] in
  match Files d !! rcFile with
  | Some file =>
      match ReadErr file with
      | Some err =>
          (Some (errorsWrap err
                   (Sprintf "trying to read %s to ensure we're not overwriting it"
                      [argString rcFile])), d)
      | None =>
          if decide (config ≠ Contents file) then
            (Some (errorsNew
                     (Sprintf "can't write TFE token to %s because that file has contents that would be overwritten"
                        [argString rcFile])), d)
          else (None, d)
      end
  | None =>
      match WriteErr d rcFile with
      | Some err =>
          (Some (errorsWrap err
                   (Sprintf "writing generated %s file with TFE token to %s"
                      [argString rcFilename; argString rcFile])), d)
      | None =>
          (None, {| Files := <[rcFile := {| Contents := config; ReadErr := None |}]> (Files d);
                    WriteErr := WriteErr d |})
      end
  end.

End terraform.

(** ** package runtime: the rest of the plan step *)

Module plan_step.
Import go models runtime.

Definition defaultWorkspace : string := "default".

(** One call of [TerraformExecutor.RunCommandWithVersion]. *)
Record Call : Type := {
  CallPath : string;
  CallArgs : list string;
  CallVersion : string;
  CallWorkspace : string
}.

#[global] Instance Call_eq_dec : EqDecision Call.
Proof. solve_decision. Defined.

(** What the step runs on: the runner, the version constraints [<0.9] and
    [>=0.9,<0.10] of the go-version library, [strings.TrimSpace],
    [filepath.Clean], the executor (its answer to a call may depend on the
    calls made before it), what a call of the executor does to the files on
    disk (the tool writes the plan file, its state and its workspace
    directory), [GetProjectFilenamePrefix] of this package (not among the
    sources), whether [os.Remove] removes a path and the error of
    [ioutil.WriteFile] for a path, if any. *)
Record StepEnv : Type := {
  Runner : PlanStepRunner;
  belowZeroPointNine : string → bool;
  zeroPointNine : string → bool;
  TrimSpace : string → string;
  Clean : string → string;
  Exec : list Call → Call → string * option error;
  Effect : list Call → Call → gmap string string → gmap string string;
  GetProjectFilenamePrefix : string → option ProjectCfg → string;
  RemoveOK : string → bool;
  WriteFileErr : string → option error
}.

Definition runCommand (env : StepEnv) (calls : list Call) (c : Call)
  : (string * option error) * list Call :=
  (Exec env calls c, calls ++ [c]).

Definition workspaceCmd (env : StepEnv) (tfVersion : string) : string :=
  if zeroPointNine env tfVersion then "env" else "workspace".

Definition showCall (env : StepEnv) (ctx : ProjectCommandContext) (path tfVersion : string)
  : Call :=
  {| CallPath := path; CallArgs := [workspaceCmd env tfVersion; "show"];
     CallVersion := tfVersion; CallWorkspace := Workspace ctx |}.

Definition selectCall (env : StepEnv) (ctx : ProjectCommandContext) (path tfVersion : string)
  : Call :=
  {| CallPath := path;
     CallArgs := [workspaceCmd env tfVersion; "select"; "-no-color"; Workspace ctx];
     CallVersion := tfVersion; CallWorkspace := Workspace ctx |}.

Definition newCall (env : StepEnv) (ctx : ProjectCommandContext) (path tfVersion : string)
  : Call :=
  {| CallPath := path;
     CallArgs := [workspaceCmd env tfVersion; "new"; "-no-color"; Workspace ctx];
     CallVersion := tfVersion; CallWorkspace := Workspace ctx |}.

(** The end of [switchWorkspace]: select the workspace, and create it when
    selecting fails. *)
Definition selectOrNew (env : StepEnv) (ctx : ProjectCommandContext)
    (path tfVersion : string) (calls : list Call) : option error * list Call :=
  let '((_, err), calls) := runCommand env calls (selectCall env ctx path tfVersion) in
  match err with
  | Some _ =>
      let '((_, err), calls) := runCommand env calls (newCall env ctx path tfVersion) in
      (err, calls)
  | None => (None, calls)
  end.

(** [switchWorkspace]; [calls] are the calls made to the executor so far. *)
Definition switchWorkspace `{Library} (env : StepEnv) (ctx : ProjectCommandContext)
    (path tfVersion : string) (calls : list Call) : option error * list Call :=
  let noWorkspaceSupport := belowZeroPointNine env tfVersion in
  if noWorkspaceSupport && bool_decide (Workspace ctx ≠ defaultWorkspace) then
    (Some (errorsNew (Sprintf "terraform version %s does not support workspaces"
                        [argString tfVersion])), calls)
  else if noWorkspaceSupport then (None, calls)
  else
    let runningZeroPointNine := zeroPointNine env tfVersion in
    if negb runningZeroPointNine then
      let '((workspaceShowOutput, err), calls) :=
        runCommand env calls (showCall env ctx path tfVersion) in
      match err with
      | Some err => (Some err, calls)
      | None =>
          if decide (TrimSpace env workspaceShowOutput = Workspace ctx) then (None, calls)
          else selectOrNew env ctx path tfVersion calls
      end
    else selectOrNew env ctx path tfVersion calls.

Definition newlineChar : ascii := ascii_of_nat 10.

(** [ReplaceAllString] for the expression [(?m)^ {2}c] with the replacement
    [c], where [c] is the character [marker]: at the start of the text and
    after every newline, two spaces followed by [marker] become [marker];
    matches are searched from left to right and do not overlap.
    [atLineStart] tells whether the position is at the start of a line. *)
Fixpoint replaceDiff (marker : ascii) (atLineStart : bool) (s : string) : string :=
  match s with
  | EmptyString => EmptyString
  | String a rest =>
      match rest with
      | String b (String c rest') =>
          if atLineStart && bool_decide (a = " "%char) && bool_decide (b = " "%char)
             && bool_decide (c = marker)
          then String marker (replaceDiff marker false rest')
          else String a (replaceDiff marker (bool_decide (a = newlineChar)) rest)
      | _ => String a (replaceDiff marker (bool_decide (a = newlineChar)) rest)
      end
  end.

Definition refreshSeparator : string :=
  "------------------------------------------------------------------------" +:+ newline.

(** [fmtPlanOutput]; [String.index 0 sep s] is [strings.Index(s, sep)]. *)
Definition fmtPlanOutput (output : string) : string :=
  let output :=
    match String.index 0 refreshSeparator output with
    | Some sepIdx =>
        let start := (sepIdx + String.length refreshSeparator)%nat in
        String.substring start (String.length output - start) output
    | None => output
    end in
  let output := replaceDiff "+"%char true output in
  let output := replaceDiff "~"%char true output in
  replaceDiff "-"%char true output.

(** What [Run] does: it returns an output and an error, or panics. *)
Inductive Outcome : Type :=
| Returned (output : string) (err : option error)
| Panicked (err : error).

(** The calls made to the executor and the files on disk, by path. *)
Record RunState : Type := {
  Calls : list Call;
  DiskFiles : gmap string string
}.

(** The version that [Run] uses. *)
Definition versionOf (env : StepEnv) (ctx : ProjectCommandContext) : string :=
  match ProjectConfig ctx with
  | Some cfg =>
      match CfgTerraformVersion cfg with
      | Some v => v
      | None => DefaultTFVersion (Runner env)
      end
  | None => DefaultTFVersion (Runner env)
  end.

(** The path of the error file of a plan. *)
Definition planErrorFile `{Library} (env : StepEnv) (ctx : ProjectCommandContext)
    (path : string) : string :=
  Join [path; GetProjectFilenamePrefix env (Workspace ctx) (ProjectConfig ctx)
              +:+ ".tfplan-error"].

(** The call of [Run] that plans. *)
Definition planCall `{Library} (env : StepEnv) (ctx : ProjectCommandContext)
    (extraArgs : list string) (path : string) : Call :=
  {| CallPath := Clean env path;
     CallArgs := buildPlanCmd (Runner env) ctx extraArgs path (versionOf env ctx);
     CallVersion := versionOf env ctx; CallWorkspace := Workspace ctx |}.

(** The files after the calls [added], made in this order after the calls
    [before]. *)
Fixpoint effects (env : StepEnv) (before added : list Call) (disk : gmap string string)
  : gmap string string :=
  match added with
  | [] => disk
  | c :: rest => effects env (before ++ [c]) rest (Effect env before c disk)
  end.

(** [Run].  The files after [switchWorkspace] are those that the calls it
    made have left. *)
Definition Run `{Library} (env : StepEnv) (ctx : ProjectCommandContext)
    (extraArgs : list string) (path : string) (st : RunState) : Outcome * RunState :=
  let tfVersion := versionOf env ctx in
  let '(switchErr, calls) := switchWorkspace env ctx path tfVersion (Calls st) in
  let disk := effects env (Calls st) (drop (length (Calls st)) calls) (DiskFiles st) in
  match switchErr with
  | Some err => (Returned EmptyString (Some err), {| Calls := calls; DiskFiles := disk |})
  | None =>
      let planErrorFile := planErrorFile env ctx path in
      let disk := if RemoveOK env planErrorFile then delete planErrorFile disk else disk in
      let '((output, err), calls') :=
        runCommand env calls (planCall env ctx extraArgs path) in
      let disk := Effect env calls (planCall env ctx extraArgs path) disk in
      match err with
      | Some err =>
          match WriteFileErr env planErrorFile with
          | Some writeErr => (Panicked writeErr, {| Calls := calls'; DiskFiles := disk |})
          | None =>
              (Returned output (Some err),
               {| Calls := calls'; DiskFiles := <[planErrorFile := output]> disk |})
          end
      | None =>
          (Returned (fmtPlanOutput output) None, {| Calls := calls'; DiskFiles := disk |})
      end
  end.

(** A line of a plan with the indentation of a diff marker removed, as the
    comment of [fmtPlanOutput] describes it. *)
Definition unindent (line : string) : string :=
  match line with
  | String a (String b (String c rest)) =>
      if bool_decide (a = " "%char) && bool_decide (b = " "%char)
         && (bool_decide (c = "+"%char) || bool_decide (c = "~"%char)
             || bool_decide (c = "-"%char))
      then String c rest
      else line
  | _ => line
  end.

(** The same for one marker. *)
Definition unindentOne (m : ascii) (line : string) : string :=
  match line with
  | String a (String b (String c rest)) =>
      if bool_decide (a = " "%char) && bool_decide (b = " "%char) && bool_decide (c = m)
      then String c rest
      else line
  | _ => line
  end.

Definition oneLine (line : string) : Prop :=
  newlineChar ∉ list_ascii_of_string line.

#[global] Instance oneLine_dec line : Decision (oneLine line).
Proof. unfold oneLine. apply _. Defined.

End plan_step.

(** ** package events: parsing the events of GitHub *)

Module event_parsing.
Import go models.

(** [github.Repository], [github.PullRequestBranch] and [github.PullRequest]
    as their getters show them: a getter on a nil pointer or of a nil field
    gives the empty string or zero. *)
Record GithubRepository : Type := {
  GhFullName : string;
  GhCloneURL : string
}.

Definition GetFullName (r : option GithubRepository) : string :=
  match r with Some r => GhFullName r | None => EmptyString end.

Definition GetCloneURL (r : option GithubRepository) : string :=
  match r with Some r => GhCloneURL r | None => EmptyString end.

Record PullRequestBranch : Type := {
  SHA : string;
  Ref : string;
  BranchRepo : option GithubRepository
}.

Definition GetSHA (b : option PullRequestBranch) : string :=
  match b with Some b => SHA b | None => EmptyString end.

Definition GetRef (b : option PullRequestBranch) : string :=
  match b with Some b => Ref b | None => EmptyString end.

Record GithubPullRequest : Type := {
  Head : option PullRequestBranch;
  Base : option PullRequestBranch;
  HTMLURL : string;
  UserLogin : string;
  Number : Z;
  GhState : string
}.

(** The parser; [models.NewRepo] is not among the sources. *)
Record EventParser : Type := {
  GithubUser : string;
  GithubToken : string;
  GitlabUser : string;
  GitlabToken : string;
  NewRepo : VCSHostType → string → string → string → string → Repo * option error
}.

(** [ParseGithubRepo]. *)
Definition ParseGithubRepo (e : EventParser) (ghRepo : option GithubRepository)
  : Repo * option error :=
  NewRepo e Github (GetFullName ghRepo) (GetCloneURL ghRepo) (GithubUser e) (GithubToken e).

(** What [ParseGithubPull] does: it returns, or it reads a field of a nil
    pointer. *)
Inductive Parsed : Type :=
| Returns (pull : PullRequest) (repo : Repo) (err : option error)
| NilDereference.

(** [ParseGithubPull]. *)
Definition ParseGithubPull (e : EventParser) (pull : GithubPullRequest) : Parsed :=
  let pullModel := zeroPullRequest in
  let headRepoModel := zeroRepo in
  let commit := GetSHA (Head pull) in
  if decide (commit = EmptyString)
  then Returns pullModel headRepoModel (Some (errorsNew "head.sha is null"))
  else
    let url := HTMLURL pull in
    if decide (url = EmptyString)
    then Returns pullModel headRepoModel (Some (errorsNew "html_url is null"))
    else
      let branch := GetRef (Head pull) in
      if decide (branch = EmptyString)
      then Returns pullModel headRepoModel (Some (errorsNew "head.ref is null"))
      else
        let authorUsername := UserLogin pull in
        if decide (authorUsername = EmptyString)
        then Returns pullModel headRepoModel (Some (errorsNew "user.login is null"))
        else
          let num := Number pull in
          if decide (num = 0)
          then Returns pullModel headRepoModel (Some (errorsNew "number is null"))
          else
            match Head pull with
            | None => NilDereference
            | Some head =>
                let '(headRepoModel, err) := ParseGithubRepo e (BranchRepo head) in
                match err with
                | Some err => Returns pullModel headRepoModel (Some err)
                | None =>
                    match Base pull with
                    | None => NilDereference
                    | Some base =>
                        let '(baseRepoModel, err) := ParseGithubRepo e (BranchRepo base) in
                        match err with
                        | Some err => Returns pullModel headRepoModel (Some err)
                        | None =>
                            let pullState :=
                              if decide (GhState pull = "open") then Open else Closed in
                            Returns
                              {| Author := authorUsername; Branch := branch;
                                 HeadCommit := commit; URL := url; Num := num;
                                 State := pullState; HeadRepo := headRepoModel;
                                 BaseRepo := baseRepoModel |}
                              headRepoModel None
                        end
                    end
                end
            end.

End event_parsing.

(** ** More concrete values for the examples *)

Module fixtures_more.
Import go models bolt boltdb.

(** Plan results of two projects of pull request 1 of [owner/repo]. *)
Definition plannedResult (dir : string) : boltdb_status.ProjectResult :=
  {| boltdb_status.ResWorkspace := "default"; boltdb_status.ResRepoRelDir := dir;
     boltdb_status.ResProjectName := EmptyString; boltdb_status.ResError := None;
     boltdb_status.ResFailure := EmptyString;
     boltdb_status.ResPlanSuccess :=
       Some {| events.TerraformOutput := "Plan: 1 to add";
               events.LockURL := "https://atlantis/lock";
               events.RePlanCmd := "atlantis plan -d " +:+ dir;
               events.ApplyCmd := "atlantis apply -d " +:+ dir |};
     boltdb_status.ResApplySuccess := EmptyString |}.

Definition appliedResult (dir : string) : boltdb_status.ProjectResult :=
  {| boltdb_status.ResWorkspace := "default"; boltdb_status.ResRepoRelDir := dir;
     boltdb_status.ResProjectName := EmptyString; boltdb_status.ResError := None;
     boltdb_status.ResFailure := EmptyString; boltdb_status.ResPlanSuccess := None;
     boltdb_status.ResApplySuccess := "Apply complete!" |}.

Definition pullOne : PullRequest := fixtures.pull fixtures.ownerRepo 1.

(** Pull request 1 at an earlier head commit. *)
Definition pullOneBefore : PullRequest :=
  {| Num := 1; HeadCommit := "000aaa"; URL := "https://github.com/pull";
     Branch := "feature"; Author := "lkysow"; State := Open;
     HeadRepo := fixtures.ownerRepo; BaseRepo := fixtures.ownerRepo |}.

Definition pullOneKey : string := "github.com::owner/repo::1".

(** The pulls bucket after the plans of [a] and [b] were recorded for pull
    request 1. *)
Definition plannedPulls : boltdb_status.pullBucket :=
  (@boltdb_status.UpdatePullWithResults plain.library pullOne
     [plannedResult "a"; plannedResult "b"] ∅).2.

Definition plannedStatus : boltdb_status.PullStatus :=
  {| boltdb_status.Projects :=
       boltdb_status.projectResultToProject <$> [plannedResult "a"; plannedResult "b"];
     boltdb_status.PullOf := pullOne |}.

(** A pull request of a repository whose name holds the separator. *)
Definition separatorPull : PullRequest :=
  fixtures.pull (fixtures.repo "owner/re::po" "owner" "re::po") 1.


(** Two project results, one of them failed. *)
Definition okResult : events.ProjectResult :=
  {| events.ResultPath := "a"; events.ResultError := None;
     events.ResultFailure := EmptyString; events.ResultPlanSuccess := None;
     events.ResultApplySuccess := "Apply complete!" |}.

Definition failedResult : events.ProjectResult :=
  {| events.ResultPath := "b"; events.ResultError := None;
     events.ResultFailure := "apply failed"; events.ResultPlanSuccess := None;
     events.ResultApplySuccess := EmptyString |}.

(** A disk without files on which writing works. *)
Definition emptyDisk : terraform.Disk :=
  {| terraform.Files := ∅; terraform.WriteErr := λ _, None |}.

Fixpoint trimLeft (s : string) : string :=
  match s with
  | String c rest => if Ascii.is_space c then trimLeft rest else s
  | EmptyString => EmptyString
  end.

Definition trimSpace (s : string) : string :=
  String.rev (trimLeft (String.rev (trimLeft s))).

Definition planOutput : string :=
  "Refreshing Terraform state in-memory prior to plan..." +:+ newline
  +:+ plan_step.refreshSeparator
  +:+ "  + aws_instance.web" +:+ newline
  +:+ "      ami: ami-123" +:+ newline
  +:+ "Plan: 1 to add, 0 to change, 0 to destroy.".

(** A tool in which the current workspace is [default] and the workspace
    [staging] does not exist before it is created, and whose plan fails in
    every workspace but [prod]. *)
Definition tool (calls : list plan_step.Call) (c : plan_step.Call)
  : string * option error :=
  match plan_step.CallArgs c with
  | [_; "show"] => ("default" +:+ newline, None)
  | [_; "select"; _; workspace] =>
      if decide (workspace = "staging")
      then ("Workspace staging does not exist", Some (errorsNew "exit status 1"))
      else (EmptyString, None)
  | [_; "new"; _; _] => ("Created and switched to workspace", None)
  | "plan" :: _ =>
      if decide (plan_step.CallWorkspace c = "prod") then (planOutput, None)
      else ("Error: no configuration files", Some (errorsNew "exit status 1"))
  | _ => (EmptyString, None)
  end.

(** What that tool does to the files: creating a workspace records it, and
    a plan that succeeds writes the plan file. *)
Definition toolEffect (calls : list plan_step.Call) (c : plan_step.Call)
    (disk : gmap string string) : gmap string string :=
  match plan_step.CallArgs c with
  | [_; "new"; _; workspace] =>
      <[plan_step.CallPath c +:+ "/.terraform/environment" := workspace]> disk
  | "plan" :: _ =>
      if decide (plan_step.CallWorkspace c = "prod")
      then <[plan_step.CallPath c +:+ "/prod.tfplan" := "plan"]> disk
      else disk
  | _ => disk
  end.

Definition stepEnv : plan_step.StepEnv :=
  {| plan_step.Runner := fixtures.planRunner;
     plan_step.belowZeroPointNine := λ v, bool_decide (v = "0.8.8");
     plan_step.zeroPointNine := λ v, bool_decide (v = "0.9.11");
     plan_step.TrimSpace := trimSpace;
     plan_step.Clean := λ path, path;
     plan_step.Exec := tool;
     plan_step.Effect := toolEffect;
     plan_step.GetProjectFilenamePrefix := λ workspace _, workspace;
     plan_step.RemoveOK := λ _, true;
     plan_step.WriteFileErr := λ _, None |}.

Definition stagingCtx : runtime.ProjectCommandContext :=
  {| runtime.BaseRepo := fixtures.ownerRepo; runtime.Pull := pullOne;
     runtime.User_ := {| Username := "lkysow" |}; runtime.Workspace := "staging";
     runtime.ProjectConfig := None; runtime.CommentArgs := [] |}.

(** A directory that holds the error file of an earlier plan. *)
Definition failedBefore : plan_step.RunState :=
  {| plan_step.Calls := [];
     plan_step.DiskFiles := {[ "/clone/project/staging.tfplan-error" := "old error" ]} |}.

Definition planLines : list string :=
  [ "  + aws_instance.web"; "      ami: ami-123"; "  ~ aws_s3_bucket.logs";
    "  - aws_iam_user.old"; "    + not a marker"; "Plan: 1 to add, 1 to change, 1 to destroy." ].

(** A parser whose [NewRepo] refuses an empty name and otherwise keeps the
    name and the clone URL. *)
Definition eventParser : event_parsing.EventParser :=
  {| event_parsing.GithubUser := "atlantis"; event_parsing.GithubToken := "token";
     event_parsing.GitlabUser := "atlantis"; event_parsing.GitlabToken := "token";
     event_parsing.NewRepo := λ host fullName cloneURL _ _,
       ({| FullName := fullName; Owner := EmptyString; Name := EmptyString;
           CloneURL := cloneURL; SanitizedCloneURL := cloneURL;
           RepoVCSHost := {| Hostname := "github.com"; Type_ := host |} |},
        if decide (fullName = EmptyString)
        then Some (errorsNew "repoFullName can't be empty") else None) |}.

Definition githubBranch (ref : string) : event_parsing.PullRequestBranch :=
  {| event_parsing.SHA := "abc123"; event_parsing.Ref := ref;
     event_parsing.BranchRepo :=
       Some {| event_parsing.GhFullName := "owner/repo";
               event_parsing.GhCloneURL := "https://github.com/owner/repo.git" |} |}.

Definition githubPull : event_parsing.GithubPullRequest :=
  {| event_parsing.Head := Some (githubBranch "feature");
     event_parsing.Base := Some (githubBranch "master");
     event_parsing.HTMLURL := "https://github.com/owner/repo/pull/1";
     event_parsing.UserLogin := "lkysow"; event_parsing.Number := 1;
     event_parsing.GhState := "open" |}.

Definition parsedRepo : Repo :=
  {| FullName := "owner/repo"; Owner := EmptyString; Name := EmptyString;
     CloneURL := "https://github.com/owner/repo.git";
     SanitizedCloneURL := "https://github.com/owner/repo.git";
     RepoVCSHost := {| Hostname := "github.com"; Type_ := Github |} |}.

Definition parsedPull : PullRequest :=
  {| Num := 1; HeadCommit := "abc123"; URL := "https://github.com/owner/repo/pull/1";
     Branch := "feature"; Author := "lkysow"; State := Open;
     HeadRepo := parsedRepo; BaseRepo := parsedRepo |}.

End fixtures_more.

(* ===================================================================== *)
(** * Part II: properties *)
(* ===================================================================== *)

Import go models bolt.

(** ** The lock service *)

Section lock_service.
Context `{Library}.
Import boltdb.

Lemma keyed_empty : keyed ∅.
Proof. apply map_Forall_empty. Qed.

Lemma keyed_TryLock newLock b : keyed b → keyed (TryLock newLock b).2.
Proof.
  intros Hb. unfold TryLock, Get, Put.
  destruct (b !! _) as [v|] eqn:Hget.
  - destruct (Unmarshal v); exact Hb.
  - simpl. apply map_Forall_insert_2; [|exact Hb]. by exists newLock.
Qed.

Lemma keyed_Unlock p workspace b : keyed b → keyed (Unlock p workspace b).2.
Proof.
  intros Hb. unfold Unlock, Get, Delete.
  destruct (b !! _) as [v|] eqn:Hget.
  - destruct (Unmarshal v); simpl; [by apply map_Forall_delete | exact Hb].
  - simpl. by apply map_Forall_delete.
Qed.

Lemma keyed_unlockAll todo b : keyed b → keyed (unlockAll todo b).2.
Proof.
  revert b. induction todo as [|lock rest IH]; intros b Hb; simpl; [exact Hb|].
  pose proof (keyed_Unlock (LockProject lock) (LockWorkspace lock) b Hb) as Hu.
  destruct (Unlock _ _ b) as [[prior [err|]] b']; simpl in *; [exact Hu|].
  by apply IH.
Qed.

Lemma keyed_UnlockByPull repoFullName pullNum b :
  keyed b → keyed (UnlockByPull repoFullName pullNum b).2.
Proof.
  intros Hb. unfold UnlockByPull.
  destruct (scanPull _ _ _ _) as [locks [err|]]; simpl; [exact Hb|].
  pose proof (keyed_unlockAll locks b Hb) as Hu.
  by destruct (unlockAll locks b).
Qed.

Lemma keyed_step b o : keyed b → keyed (step b o).
Proof.
  destruct o; simpl;
    auto using keyed_TryLock, keyed_Unlock, keyed_UnlockByPull.
Qed.

Lemma keyed_run ops : keyed (run ops).
Proof.
  unfold run. generalize keyed_empty. generalize (∅ : bucket).
  induction ops as [|o ops IH]; intros b Hb; simpl; [exact Hb|].
  apply IH. by apply keyed_step.
Qed.

Lemma Cursor_Permutation (b : bucket) : Cursor b ≡ₚ map_to_list b.
Proof. apply merge_sort_Permutation. Qed.

Lemma Cursor_lookup (b : bucket) k v : (k, v) ∈ Cursor b ↔ b !! k = Some v.
Proof. rewrite Cursor_Permutation. apply elem_of_map_to_list. Qed.

Lemma Cursor_NoDup_keys (b : bucket) : NoDup (Cursor b).*1.
Proof. rewrite Cursor_Permutation. apply NoDup_fst_map_to_list. Qed.

Lemma keyed_Cursor b : keyed b → ∃ ls, Cursor b = entry <$> ls.
Proof.
  intros Hb.
  assert (Forall (λ kv, ∃ l, kv = entry l) (Cursor b)) as Hall.
  { apply Forall_forall. intros [k v] Hin%Cursor_lookup.
    destruct (Hb k v Hin) as (l & -> & <-). by exists l. }
  induction Hall as [|kv c [l ->] _ [ls ->]]; [by exists []|].
  by exists (l :: ls).
Qed.

Lemma decodeAll_Json (ls : list ProjectLock) k acc :
  decodeAll k (Json <$> ls) acc = (acc ++ ls, None).
Proof.
  revert k acc. induction ls as [|l ls IH]; intros k acc; simpl.
  - by rewrite app_nil_r.
  - rewrite IH. by rewrite <- app_assoc.
Qed.

Lemma List_keyed b ls : Cursor b = entry <$> ls → List b = (ls, None).
Proof.
  intros Hc. unfold List. rewrite Hc, <- list_fmap_compose.
  change (snd ∘ entry) with Json. apply decodeAll_Json.
Qed.

Lemma length_constant_NoDup {A B} `{EqDecision B} (f : A → B) (c : B) (xs : list A) :
  NoDup (f <$> xs) → Forall (λ x, f x = c) xs → (length xs ≤ 1)%nat.
Proof.
  destruct xs as [|x [|y xs]]; simpl; [lia | lia |].
  intros Hnd Hall. exfalso.
  apply NoDup_cons in Hnd as [Hx _]. apply Hx.
  apply Forall_cons in Hall as [Hfx Hall]. apply Forall_cons in Hall as [Hfy _].
  rewrite Hfx, <- Hfy. left.
Qed.

(** C3: after any sequence of [TryLock], [Unlock] and [UnlockByPull] calls on
    the bucket that [New] creates, [List] reports at most one lock for any
    project and workspace.  The transactions of one [UnlockByPull] interleaved
    with other calls are such a sequence too, its deletes being [Unlock]
    calls. *)
Theorem one_lock_per_project_workspace (ops : list op) (p : Project) (workspace : string) :
  (length (locksFor p workspace (run ops)) ≤ 1)%nat.
Proof.
  destruct (keyed_Cursor (run ops) (keyed_run ops)) as [ls Hc].
  unfold locksFor. rewrite (List_keyed _ ls Hc). simpl.
  apply (length_constant_NoDup (λ l, lockKey (LockProject l) (LockWorkspace l))
           (lockKey p workspace)).
  - pose proof (Cursor_NoDup_keys (run ops)) as Hnd.
    rewrite Hc, <- list_fmap_compose in Hnd.
    eapply sublist_NoDup; [exact Hnd|].
    apply fmap_sublist, sublist_filter.
  - apply Forall_forall. intros l [[-> ->] _]%list_elem_of_filter. done.
Qed.

Lemma TryLock_free (newLock : ProjectLock) (b : bucket) :
  Get (lockKey (LockProject newLock) (LockWorkspace newLock)) b = None →
  TryLock newLock b
  = ((true, newLock, None),
     Put (lockKey (LockProject newLock) (LockWorkspace newLock)) (Marshal newLock) b).
Proof. intros Hfree. unfold TryLock. by rewrite Hfree. Qed.

Lemma TryLock_held (newLock c : ProjectLock) (b : bucket) :
  Get (lockKey (LockProject newLock) (LockWorkspace newLock)) b = Some (Marshal c) →
  TryLock newLock b = ((false, c, None), b).
Proof. intros Hheld. unfold TryLock. by rewrite Hheld. Qed.

(** C4: [TryLock] is a check-and-put in one transaction.  When nothing is
    stored under the new lock's key it stores the new lock there, leaves every
    other key as it was and returns [(true, newLock)]; when the key holds a
    lock [c] it returns [(false, c)] and the bucket is unchanged. *)
Theorem TryLock_check_and_put (newLock : ProjectLock) (b : bucket) :
  (Get (lockKey (LockProject newLock) (LockWorkspace newLock)) b = None →
     TryLock newLock b
       = ((true, newLock, None),
          Put (lockKey (LockProject newLock) (LockWorkspace newLock)) (Marshal newLock) b)
     ∧ Get (lockKey (LockProject newLock) (LockWorkspace newLock)) (TryLock newLock b).2
       = Some (Marshal newLock)
     ∧ ∀ k, k ≠ lockKey (LockProject newLock) (LockWorkspace newLock) →
            Get k (TryLock newLock b).2 = Get k b)
  ∧ (∀ c, Get (lockKey (LockProject newLock) (LockWorkspace newLock)) b = Some (Marshal c) →
     TryLock newLock b = ((false, c, None), b)).
Proof.
  split.
  - intros Hfree. rewrite (TryLock_free _ _ Hfree). simpl.
    unfold Get, Put. split; [done|]. split.
    + apply lookup_insert_eq.
    + intros k Hk. by apply lookup_insert_ne.
  - intros c. apply TryLock_held.
Qed.

Lemma TryLock_check_and_put_witness :
  (Get (lockKey (LockProject fixtures.lockRepoPull1)
                (LockWorkspace fixtures.lockRepoPull1)) ∅ = None
   ∧ TryLock fixtures.lockRepoPull1 ∅
     = ((true, fixtures.lockRepoPull1, None),
        Put (lockKey (LockProject fixtures.lockRepoPull1)
                     (LockWorkspace fixtures.lockRepoPull1))
            (Marshal fixtures.lockRepoPull1) ∅))
  ∧ (Get (lockKey (LockProject fixtures.lockRepoPull2)
                  (LockWorkspace fixtures.lockRepoPull2))
         (TryLock fixtures.lockRepoPull1 ∅).2
     = Some (Marshal fixtures.lockRepoPull1)
     ∧ TryLock fixtures.lockRepoPull2 (TryLock fixtures.lockRepoPull1 ∅).2
       = ((false, fixtures.lockRepoPull1, None), (TryLock fixtures.lockRepoPull1 ∅).2)).
Proof.
  split.
  - split; [reflexivity|].
    apply (proj1 (TryLock_check_and_put fixtures.lockRepoPull1 ∅)). reflexivity.
  - split; [vm_compute; reflexivity|].
    apply (proj2 (TryLock_check_and_put fixtures.lockRepoPull2
                    (TryLock fixtures.lockRepoPull1 ∅).2)).
    vm_compute; reflexivity.
Defined.

Lemma TryLock_same_key (first second : ProjectLock) (b : bucket) :
  keyOf first = keyOf second →
  Get (keyOf first) b = None →
  (TryLock first b).1 = (true, first, None)
  ∧ (TryLock second (TryLock first b).2).1 = (false, first, None).
Proof.
  intros Hkey Hfree. rewrite (TryLock_free first b Hfree). simpl. split; [done|].
  rewrite (TryLock_held second first); [done|].
  fold (keyOf second). rewrite <- Hkey. apply lookup_insert_eq.
Qed.

(** C10: the key joins repository, path and workspace with slashes and does
    not escape them, so path [a/b] with workspace [c] and path [a] with
    workspace [b/c] are different projects of one repository with the same
    key; once either is locked, [TryLock] for the other is refused and names
    the first lock as the holder. *)
Theorem lockKey_collision
    (repoFullName : string) (pullA pullB : PullRequest) (userA userB : User)
    (timeA timeB : Z) (b : bucket) :
  Get (lockKey (NewProject repoFullName "a/b") "c") b = None →
  NewProject repoFullName "a/b" ≠ NewProject repoFullName "a"
  ∧ lockKey (NewProject repoFullName "a/b") "c" = lockKey (NewProject repoFullName "a") "b/c"
  ∧ (TryLock (lockAt (NewProject repoFullName "a/b") "c" pullA userA timeA) b).1
    = (true, lockAt (NewProject repoFullName "a/b") "c" pullA userA timeA, None)
  ∧ (TryLock (lockAt (NewProject repoFullName "a") "b/c" pullB userB timeB)
       (TryLock (lockAt (NewProject repoFullName "a/b") "c" pullA userA timeA) b).2).1
    = (false, lockAt (NewProject repoFullName "a/b") "c" pullA userA timeA, None)
  ∧ (TryLock (lockAt (NewProject repoFullName "a") "b/c" pullB userB timeB) b).1
    = (true, lockAt (NewProject repoFullName "a") "b/c" pullB userB timeB, None)
  ∧ (TryLock (lockAt (NewProject repoFullName "a/b") "c" pullA userA timeA)
       (TryLock (lockAt (NewProject repoFullName "a") "b/c" pullB userB timeB) b).2).1
    = (false, lockAt (NewProject repoFullName "a") "b/c" pullB userB timeB, None).
Proof.
  intros Hfree.
  assert (lockKey (NewProject repoFullName "a/b") "c"
          = lockKey (NewProject repoFullName "a") "b/c") as Hkey.
  { unfold lockKey, NewProject. simpl. reflexivity. }
  split; [intros Heq; by inversion Heq|]. split; [exact Hkey|].
  destruct (TryLock_same_key
              (lockAt (NewProject repoFullName "a/b") "c" pullA userA timeA)
              (lockAt (NewProject repoFullName "a") "b/c" pullB userB timeB) b Hkey Hfree)
    as [HA HB].
  destruct (TryLock_same_key
              (lockAt (NewProject repoFullName "a") "b/c" pullB userB timeB)
              (lockAt (NewProject repoFullName "a/b") "c" pullA userA timeA) b)
    as [HB' HA'].
  { symmetry. exact Hkey. }
  { change (Get (lockKey (NewProject repoFullName "a") "b/c") b = None).
    rewrite <- Hkey. exact Hfree. }
  done.
Qed.

Lemma lockKey_collision_witness :
  Get (lockKey (NewProject "owner/repo" "a/b") "c") ∅ = None
  ∧ (TryLock (lockAt (NewProject "owner/repo" "a") "b/c"
                (fixtures.pull fixtures.ownerRepo 2) {| Username := "bob" |} 20)
       (TryLock (lockAt (NewProject "owner/repo" "a/b") "c"
                   (fixtures.pull fixtures.ownerRepo 1) {| Username := "alice" |} 10) ∅).2).1
    = (false,
       lockAt (NewProject "owner/repo" "a/b") "c"
         (fixtures.pull fixtures.ownerRepo 1) {| Username := "alice" |} 10,
       None).
Proof.
  split; [reflexivity|].
  apply (lockKey_collision "owner/repo"
           (fixtures.pull fixtures.ownerRepo 1) (fixtures.pull fixtures.ownerRepo 2)
           {| Username := "alice" |} {| Username := "bob" |} 10 20 ∅).
  reflexivity.
Defined.

End lock_service.

Section unlock_by_pull.
Context `{Library}.
Import boltdb.

Lemma ascii_compare_refl (a : ascii) : Ascii.compare a a = Eq.
Proof. apply N.compare_refl. Qed.

Lemma ltb_false_le (p k : string) : String.ltb k p = false ↔ String.le p k.
Proof.
  unfold String.ltb, String.le, String.leb. rewrite (String.compare_antisym p k).
  destruct (String.compare k p); simpl; naive_solver.
Qed.

Lemma prefix_not_ltb (p k : string) : String.prefix p k = true → String.ltb k p = false.
Proof.
  unfold String.ltb. revert k. induction p as [|a p IH]; intros [|b k]; simpl; try done.
  destruct (ascii_dec a b) as [->|]; [|done].
  rewrite ascii_compare_refl. apply IH.
Qed.

Lemma prefix_upward (p k k' : string) :
  String.ltb k p = false → String.prefix p k = false → String.le k k' →
  String.prefix p k' = false.
Proof.
  unfold String.ltb, String.le, String.leb.
  revert k k'. induction p as [|a p IH]; intros [|b k] [|c k']; simpl; try done.
  destruct (ascii_dec a c) as [<-|]; [|done].
  destruct (Ascii.compare b a) eqn:Hba; [|done|].
  - apply Ascii.compare_eq_iff in Hba as ->.
    destruct (ascii_dec a a); [|done]. apply IH.
  - simpl. done.
Qed.

Lemma prefix_append (p s : string) : String.prefix p (p +:+ s) = true.
Proof.
  induction p as [|a p IH]; simpl; [by destruct s|].
  destruct (ascii_dec a a); [exact IH|done].
Qed.

Lemma Cursor_sorted (b : bucket) : StronglySorted key_le (Cursor b).
Proof. apply StronglySorted_merge_sort; apply _. Qed.

Lemma filter_none {A} (P : A → Prop) `{∀ x, Decision (P x)} (xs : list A) :
  Forall (λ x, ¬ P x) xs → filter P xs = [].
Proof.
  induction 1 as [|x xs Hx _ IH]; [done|]. by rewrite filter_cons_False.
Qed.

Lemma scanPull_from repoFullName pullNum ls acc :
  StronglySorted key_le (entry <$> ls) →
  Forall (λ l, String.ltb (keyOf l) repoFullName = false) ls →
  scanPull repoFullName pullNum (entry <$> ls) acc
  = (acc ++ filter (taken repoFullName pullNum) ls, None).
Proof.
  revert acc. induction ls as [|l ls IH]; intros acc Hsorted Hge.
  - simpl. by rewrite app_nil_r.
  - rewrite fmap_cons in Hsorted. apply StronglySorted_inv in Hsorted as [Hsorted Hhd].
    apply Forall_cons in Hge as [Hl Hge].
    rewrite fmap_cons. unfold entry at 1. simpl.
    rewrite filter_cons. unfold HasPrefix.
    destruct (String.prefix repoFullName (keyOf l)) eqn:Hp.
    + rewrite (IH _ Hsorted Hge).
      destruct (decide (Num (LockPull l) = pullNum)) as [Hn|Hn].
      * rewrite decide_True by done. by rewrite <- app_assoc.
      * rewrite decide_False by (intros [_ ?]; done). done.
    + rewrite decide_False by (intros [Hp' _]; unfold HasPrefix in Hp'; congruence).
      rewrite (filter_none (taken repoFullName pullNum) ls); [by rewrite app_nil_r|].
      apply Forall_forall. intros l' Hin [Hp' _]. unfold HasPrefix in Hp'.
      rewrite (prefix_upward repoFullName (keyOf l) (keyOf l')) in Hp'; [done..|].
      rewrite Forall_fmap, Forall_forall in Hhd. exact (Hhd l' Hin).
Qed.

Lemma Seek_entries repoFullName pullNum ls :
  StronglySorted key_le (entry <$> ls) →
  ∃ ls', Seek repoFullName (entry <$> ls) = entry <$> ls'
         ∧ StronglySorted key_le (entry <$> ls')
         ∧ Forall (λ l, String.ltb (keyOf l) repoFullName = false) ls'
         ∧ filter (taken repoFullName pullNum) ls = filter (taken repoFullName pullNum) ls'.
Proof.
  induction ls as [|l ls IH]; intros Hsorted.
  - exists []. repeat split; [constructor..].
  - rewrite fmap_cons in Hsorted.
    pose proof Hsorted as Hall.
    apply StronglySorted_inv in Hsorted as [Hsorted Hhd].
    rewrite fmap_cons. unfold entry at 1. simpl.
    destruct (String.ltb (keyOf l) repoFullName) eqn:Hlt.
    + destruct (IH Hsorted) as (ls' & Hseek & Hs' & Hge & Hfilter).
      exists ls'. repeat split; [done..|].
      rewrite filter_cons, decide_False; [done|].
      intros [Hp _]. apply prefix_not_ltb in Hp. congruence.
    + exists (l :: ls). repeat split; [by rewrite fmap_cons..|].
      apply Forall_cons. split; [done|].
      apply Forall_forall. intros l' Hin. apply ltb_false_le.
      etrans; [by apply ltb_false_le|].
      rewrite Forall_fmap, Forall_forall in Hhd. exact (Hhd l' Hin).
Qed.


Lemma scanPull_Cursor repoFullName pullNum (b : bucket) ls :
  Cursor b = entry <$> ls →
  scanPull repoFullName pullNum (Seek repoFullName (Cursor b)) []
  = (filter (taken repoFullName pullNum) ls, None).
Proof.
  intros Hc. pose proof (Cursor_sorted b) as Hsorted. rewrite Hc in Hsorted |- *.
  destruct (Seek_entries repoFullName pullNum ls Hsorted)
    as (ls' & -> & Hs' & Hge & ->).
  by rewrite (scanPull_from _ _ _ [] Hs' Hge).
Qed.

Lemma Unlock_keyed p workspace b :
  keyed b → ∃ prior, Unlock p workspace b = ((prior, None), Delete (lockKey p workspace) b).
Proof.
  intros Hb. unfold Unlock, Get.
  destruct (b !! lockKey p workspace) as [v|] eqn:Hget; [|by eexists].
  destruct (Hb _ _ Hget) as (l & -> & _). by eexists.
Qed.

Lemma keyed_Delete k b : keyed b → keyed (Delete k b).
Proof. intros Hb. by apply map_Forall_delete. Qed.

Lemma unlockAll_keyed todo b : keyed b → unlockAll todo b = (None, deleteAll todo b).
Proof.
  revert b. induction todo as [|l todo IH]; intros b Hb; simpl; [done|].
  destruct (Unlock_keyed (LockProject l) (LockWorkspace l) b Hb) as [prior ->].
  apply IH. by apply keyed_Delete.
Qed.

Lemma lookup_deleteAll todo (b : bucket) k :
  deleteAll todo b !! k = if decide (k ∈ keyOf <$> todo) then None else b !! k.
Proof.
  revert b. induction todo as [|l todo IH]; intros b.
  - destruct (decide _) as [Hin|]; [by apply elem_of_nil in Hin | done].
  - change (deleteAll (l :: todo) b) with (deleteAll todo (Delete (keyOf l) b)).
    rewrite IH, fmap_cons. unfold Delete.
    destruct (decide (k ∈ keyOf <$> todo)) as [Hin|Hin].
    + rewrite decide_True; [done|]. by right.
    + destruct (decide (k = keyOf l)) as [->|Hne].
      * rewrite decide_True by left. apply lookup_delete_eq.
      * rewrite decide_False by (intros [?|?]%elem_of_cons; done).
        by apply lookup_delete_ne.
Qed.

Theorem UnlockByPull_keyed repoFullName pullNum (b : bucket) :
  keyed b →
  ∃ removed,
    UnlockByPull repoFullName pullNum b = ((removed, None), deleteAll removed b)
    ∧ (∀ l, l ∈ removed ↔ b !! keyOf l = Some (Json l) ∧ taken repoFullName pullNum l).
Proof.
  intros Hb. destruct (keyed_Cursor b Hb) as [ls Hc].
  exists (filter (taken repoFullName pullNum) ls). split.
  - unfold UnlockByPull. rewrite (scanPull_Cursor _ _ _ _ Hc).
    by rewrite (unlockAll_keyed _ _ Hb).
  - intros l. rewrite list_elem_of_filter.
    assert (l ∈ ls ↔ b !! keyOf l = Some (Json l)) as <-; [|naive_solver].
    rewrite <- Cursor_lookup, Hc. split.
    + intros Hin. apply list_elem_of_fmap. by exists l.
    + intros (l' & Heq & Hin)%list_elem_of_fmap. by injection Heq as _ ->.
Qed.

(** X7: what [UnlockByPull] does on a bucket of the service: it returns, in key
    order, exactly the stored locks whose key starts with the repository name
    and whose pull request has the number, and deletes their keys; no lock of
    that repository and pull number is left, and every other lock stays. *)
Lemma UnlockByPull_removes_taken (ops : list op) repoFullName pullNum :
  ∃ removed,
    UnlockByPull repoFullName pullNum (run ops)
    = ((removed, None), deleteAll removed (run ops))
    ∧ (∀ l, l ∈ removed
            ↔ run ops !! keyOf l = Some (Json l) ∧ taken repoFullName pullNum l)
    ∧ (∀ k l, (UnlockByPull repoFullName pullNum (run ops)).2 !! k = Some (Json l) →
              ¬ (RepoFullName (LockProject l) = repoFullName
                 ∧ Num (LockPull l) = pullNum))
    ∧ (∀ k l, run ops !! k = Some (Json l) → ¬ taken repoFullName pullNum l →
              (UnlockByPull repoFullName pullNum (run ops)).2 !! k = Some (Json l)).
Proof.
  pose proof (keyed_run ops) as Hb.
  destruct (UnlockByPull_keyed repoFullName pullNum (run ops) Hb) as (removed & Heq & Hrem).
  exists removed. split; [exact Heq|]. split; [exact Hrem|].
  rewrite Heq. simpl. split.
  - intros k l Hk [Hrepo Hnum]. rewrite lookup_deleteAll in Hk.
    destruct (decide (k ∈ keyOf <$> removed)) as [|Hout]; [done|].
    destruct (Hb k _ Hk) as (l' & [= <-] & Hkey). subst k. apply Hout.
    apply list_elem_of_fmap. exists l. split; [done|].
    apply Hrem. split; [exact Hk|]. split; [|done].
    unfold HasPrefix, keyOf, lockKey. rewrite <- Hrepo. apply prefix_append.
  - intros k l Hk Hnot. rewrite lookup_deleteAll.
    destruct (decide (k ∈ keyOf <$> removed)) as [Hin|]; [|done].
    apply list_elem_of_fmap in Hin as (l' & -> & Hin). apply Hrem in Hin as [Hl' Htaken].
    rewrite Hk in Hl'. injection Hl' as ->. done.
Qed.

End unlock_by_pull.


Section lock_service_examples.
Import boltdb.
#[local] Existing Instance plain.library.

(** C2 fails on the code: the scan takes every key that starts with the
    repository name, so [UnlockByPull] for pull request 1 of [owner/repo]
    also returns and deletes the lock that pull request 1 of [owner/repo-2]
    holds. *)
Theorem UnlockByPull_deletes_other_repo :
  RepoFullName (LockProject fixtures.lockRepo2Pull1) ≠ "owner/repo"
  ∧ FullName (BaseRepo (LockPull fixtures.lockRepo2Pull1)) ≠ "owner/repo"
  ∧ Get (lockKey (LockProject fixtures.lockRepo2Pull1)
                 (LockWorkspace fixtures.lockRepo2Pull1)) fixtures.twoRepos
    = Some (Json fixtures.lockRepo2Pull1)
  ∧ UnlockByPull "owner/repo" 1 fixtures.twoRepos
    = (([fixtures.lockRepo2Pull1; fixtures.lockRepoPull1], None), ∅).
Proof.
  split; [discriminate|]. split; [discriminate|].
  split; vm_compute; reflexivity.
Qed.

End lock_service_examples.

(** ** Commit status *)

Section commit_status.
Context `{Library}.
Import events.

Lemma statuses_fmap (results : list ProjectResult) (acc : list CommitStatus) :
  foldl (λ statuses p, statuses ++ [Status p]) acc results = acc ++ (Status <$> results).
Proof.
  revert acc. induction results as [|p results IH]; intros acc; simpl.
  - by rewrite app_nil_r.
  - rewrite IH. by rewrite <- app_assoc.
Qed.

Lemma Status_Failed (p : ProjectResult) :
  Status p = FailedCommitStatus ↔ failedResult p.
Proof.
  unfold Status, failedResult.
  destruct (decide (ResultError p ≠ None)); [naive_solver|].
  destruct (decide (ResultFailure p ≠ EmptyString)); naive_solver.
Qed.

Lemma worstStatus_Failed (ss : list CommitStatus) :
  worstStatus ss = FailedCommitStatus ↔ FailedCommitStatus ∈ ss.
Proof.
  induction ss as [|s ss IH]; simpl.
  - split; [done|]. by intros ?%elem_of_nil.
  - destruct (decide (s = FailedCommitStatus)) as [->|Hs].
    + split; [left|done].
    + rewrite IH, elem_of_cons. naive_solver.
Qed.

Lemma worstStatus_cases (ss : list CommitStatus) :
  worstStatus ss = FailedCommitStatus ∨ worstStatus ss = SuccessCommitStatus.
Proof.
  induction ss as [|s ss IH]; simpl; [by right|].
  destruct (decide (s = FailedCommitStatus)); [by left | exact IH].
Qed.

Lemma aggregate_Failed ctx commandName res :
  StatusState (UpdateProjectResult ctx commandName res) = FailedCommitStatus
  ↔ Error_ res ≠ None ∨ Failure res ≠ EmptyString ∨ Exists failedResult (ProjectResults res).
Proof.
  unfold UpdateProjectResult, Update. simpl.
  destruct (decide (Error_ res ≠ None ∨ Failure res ≠ EmptyString)) as [Htop|Htop].
  - naive_solver.
  - rewrite statuses_fmap, app_nil_l, worstStatus_Failed, list_elem_of_fmap, Exists_exists.
    split.
    + intros (p & Hp & Hin). right. right. exists p. split; [done|].
      by apply Status_Failed.
    + intros [?|[?|(p & Hin & Hp)]]; [naive_solver..|].
      exists p. split; [|done]. symmetry. by apply Status_Failed.
Qed.

(** C7: the commit status posted for a command result is Failed exactly when
    the top-level Error or Failure is set or some project result carries an
    Error or a non-empty Failure, and Success otherwise; with no top-level
    error and no project results it is Success. *)
Theorem aggregate_commit_status (ctx : CommandContext) (commandName : CommandName)
    (res : CommandResult) :
  (StatusState (UpdateProjectResult ctx commandName res) = FailedCommitStatus
   ↔ Error_ res ≠ None ∨ Failure res ≠ EmptyString
     ∨ Exists failedResult (ProjectResults res))
  ∧ (StatusState (UpdateProjectResult ctx commandName res) = SuccessCommitStatus
     ↔ ¬ (Error_ res ≠ None ∨ Failure res ≠ EmptyString
          ∨ Exists failedResult (ProjectResults res)))
  ∧ StatusState (UpdateProjectResult ctx commandName (resultsResponse []))
    = SuccessCommitStatus.
Proof.
  split; [apply aggregate_Failed|]. split; [|reflexivity].
  rewrite <- aggregate_Failed.
  assert (StatusState (UpdateProjectResult ctx commandName res) = FailedCommitStatus
          ∨ StatusState (UpdateProjectResult ctx commandName res) = SuccessCommitStatus)
    as [Hs|Hs].
  { unfold UpdateProjectResult, Update. simpl.
    destruct (decide _); [by left | apply worstStatus_cases]. }
  - rewrite Hs. split; [done|]. intros Hn. by destruct Hn.
  - rewrite Hs. split; [intros _; done | done].
Qed.

End commit_status.

(** ** The apply executor *)

Section apply_executor.
Context `{Library}.
Import boltdb events.

Lemma apply_Locks a ctx repoDir plan w :
  Locks (apply a ctx repoDir plan w).2
  = (ProjectPreExecute a ctx repoDir (PlanProject plan) (Locks w)).2.
Proof.
  unfold apply.
  destruct (ProjectPreExecute a ctx repoDir (PlanProject plan) (Locks w)) as [pre locks].
  destruct (decide _); simpl; [done|].
  destruct (RunCommandWithVersion a _ _ _ _) as [output [e|]]; simpl; [done|].
  destruct (PostApply _); simpl; [done|].
  by destruct (RunExecute a _ _ _ _ _) as [? [?|]].
Qed.

(** C1, amended: the apply executor never unlocks.  The lock store after a
    run of [apply] is the store the pre-executor left, so when the tool's
    apply succeeded, a lock that the pull request held for the project and
    workspace after pre-execution is still held after the run. *)
Theorem apply_keeps_lock (a : ApplyExecutor) (ctx : CommandContext) (repoDir : string)
    (plan : models.Plan) (w : World) :
  Locks (apply a ctx repoDir plan w).2
  = (ProjectPreExecute a ctx repoDir (PlanProject plan) (Locks w)).2
  ∧ (toolApplySucceeded a ctx repoDir plan w →
     heldByPull ctx plan (ProjectPreExecute a ctx repoDir (PlanProject plan) (Locks w)).2 →
     heldByPull ctx plan (Locks (apply a ctx repoDir plan w).2)).
Proof.
  split; [apply apply_Locks|].
  intros _ Hheld. by rewrite apply_Locks.
Qed.

Lemma Walk_collect ctx repoDir entries acc :
  Forall (λ e, e.2 = None) entries →
  Walk entries (collect ctx repoDir) acc
  = (None, acc ++ ((λ e, planAt ctx repoDir e.1.1) <$> filter (isPlanFile ctx) entries)).
Proof.
  intros Hok. revert acc.
  induction Hok as [|[[path info] err] entries Herr _ IH]; intros acc; simpl.
  - by rewrite app_nil_r.
  - simpl in Herr. subst err. unfold collect at 1.
    rewrite filter_cons.
    destruct (decide (isPlanFile ctx (path, info, None))) as [[Hfile Hname]|Hno];
      simpl in *.
    + rewrite Hfile, bool_decide_true by done. simpl.
      rewrite IH, <- app_assoc. done.
    + assert (negb (IsDir info)
              && bool_decide (FileName info = Workspace (CtxCommand ctx) +:+ ".tfplan")
              = false) as ->; [|apply IH].
      apply not_true_is_false. intros [Hfile Hname]%andb_true_iff.
      apply bool_decide_eq_true in Hname.
      apply Hno. split; simpl; [by destruct (IsDir info) | exact Hname].
Qed.

Lemma applyAll_paths a ctx repoDir plans results w :
  ResultPath <$> (applyAll a ctx repoDir plans results w).1
  = (ResultPath <$> results) ++ (LocalPath <$> plans).
Proof.
  revert results w. induction plans as [|plan plans IH]; intros results w; simpl.
  - by rewrite app_nil_r.
  - destruct (apply a ctx repoDir plan w) as [result w'].
    rewrite IH, fmap_app, <- app_assoc. done.
Qed.

Lemma Execute_approved a ctx w :
  RequireApproval a = false
  ∨ PullIsApproved a (CtxBaseRepo ctx) (CtxPull ctx) = (true, None) →
  Execute a ctx w = executeApproved a ctx w.
Proof.
  unfold Execute. intros [Hoff|Hyes].
  - by rewrite Hoff.
  - rewrite Hyes. by destruct (RequireApproval a).
Qed.

Lemma executeApproved_plans a ctx repoDir plans w :
  GetWorkspace a (CtxBaseRepo ctx) (CtxPull ctx) (Workspace (CtxCommand ctx)) = inl repoDir →
  findPlans a ctx repoDir = inl plans →
  (plans = [] →
   executeApproved a ctx w = (failureResponse "No plans found for that workspace.", w))
  ∧ (plans ≠ [] →
     executeApproved a ctx w
     = (resultsResponse (applyAll a ctx repoDir plans [] w).1,
        (applyAll a ctx repoDir plans [] w).2)
     ∧ ResultPath <$> ProjectResults (executeApproved a ctx w).1 = LocalPath <$> plans).
Proof.
  intros Hws Hfind. unfold executeApproved. rewrite Hws, Hfind.
  destruct plans as [|plan plans]; [by split|].
  split; [done|]. intros _.
  pose proof (applyAll_paths a ctx repoDir (plan :: plans) [] w) as Hpaths.
  destruct (applyAll a ctx repoDir (plan :: plans) [] w) as [results w'].
  by split.
Qed.

(** C5: how [Execute] collects the plans, once the approval check is passed
    and the workspace is found.  With no directory in the command [Execute]
    applies, in walk order, exactly the visited files named after the
    workspace, and its response has one result for each of them, with its
    path; when there is none the response is the Failure, not an Error.
    With a directory only the one path is looked at: when a file is there
    [Execute] applies that plan alone, and when none is there the response is
    an Error whose text quotes that directory. *)
Theorem apply_collects_plans (a : ApplyExecutor) (ctx : CommandContext) (repoDir : string)
    (w : World) :
  RequireApproval a = false
  ∨ PullIsApproved a (CtxBaseRepo ctx) (CtxPull ctx) = (true, None) →
  GetWorkspace a (CtxBaseRepo ctx) (CtxPull ctx) (Workspace (CtxCommand ctx)) = inl repoDir →
  (CmdDir (CtxCommand ctx) = EmptyString →
   Forall (λ e, e.2 = None) (WalkEntries (Files a) repoDir) →
   (filter (isPlanFile ctx) (WalkEntries (Files a) repoDir) = [] →
    Execute a ctx w
    = ({| Error_ := None; Failure := "No plans found for that workspace.";
          ProjectResults := [] |}, w))
   ∧ (filter (isPlanFile ctx) (WalkEntries (Files a) repoDir) ≠ [] →
      Execute a ctx w
      = (resultsResponse
           (applyAll a ctx repoDir
              ((λ e, planAt ctx repoDir e.1.1)
                 <$> filter (isPlanFile ctx) (WalkEntries (Files a) repoDir)) [] w).1,
         (applyAll a ctx repoDir
            ((λ e, planAt ctx repoDir e.1.1)
               <$> filter (isPlanFile ctx) (WalkEntries (Files a) repoDir)) [] w).2)
      ∧ ResultPath <$> ProjectResults (Execute a ctx w).1
        = (λ e, e.1.1) <$> filter (isPlanFile ctx) (WalkEntries (Files a) repoDir)))
  ∧ (CmdDir (CtxCommand ctx) ≠ EmptyString →
     (∀ stat, Stat (Files a) (planPath ctx repoDir) = Some stat → IsDir stat = true) →
     ∃ e, Execute a ctx w = (errorResponse e, w)
          ∧ Error e = "no plan found at path " +:+ Quote (CmdDir (CtxCommand ctx))
                      +:+ " and workspace " +:+ Quote (Workspace (CtxCommand ctx))
                      +:+ "–did you run plan?")
  ∧ (CmdDir (CtxCommand ctx) ≠ EmptyString →
     ∀ stat, Stat (Files a) (planPath ctx repoDir) = Some stat → IsDir stat = false →
     Execute a ctx w
     = (resultsResponse
          (applyAll a ctx repoDir [planAt ctx repoDir (planPath ctx repoDir)] [] w).1,
        (applyAll a ctx repoDir [planAt ctx repoDir (planPath ctx repoDir)] [] w).2)
     ∧ ResultPath <$> ProjectResults (Execute a ctx w).1 = [planPath ctx repoDir]).
Proof.
  intros Hgate Hws. rewrite (Execute_approved a ctx w Hgate). split; [|split].
  - intros Hdir Hok.
    assert (findPlans a ctx repoDir
            = inl ((λ e, planAt ctx repoDir e.1.1)
                     <$> filter (isPlanFile ctx) (WalkEntries (Files a) repoDir)))
      as Hfind.
    { unfold findPlans. rewrite decide_True by done.
      by rewrite (Walk_collect _ _ _ [] Hok). }
    destruct (executeApproved_plans a ctx repoDir _ w Hws Hfind) as [Hnone Hsome].
    split.
    + intros Hempty. apply Hnone. by rewrite Hempty.
    + intros Hfound.
      destruct Hsome as [Heq Hpaths].
      { intros Hnil. apply fmap_nil_inv in Hnil. done. }
      split; [exact Heq|]. rewrite Hpaths, <- list_fmap_compose. done.
  - intros Hdir Hnone. eexists. split.
    + unfold executeApproved. rewrite Hws. unfold findPlans.
      rewrite decide_False by done. fold (planPath ctx repoDir).
      destruct (Stat (Files a) (planPath ctx repoDir)) as [stat|] eqn:Hstat; [|reflexivity].
      by rewrite (Hnone stat eq_refl).
    + reflexivity.
  - intros Hdir stat Hstat Hfile.
    assert (findPlans a ctx repoDir = inl [planAt ctx repoDir (planPath ctx repoDir)])
      as Hfind.
    { unfold findPlans. rewrite decide_False by done. fold (planPath ctx repoDir).
      by rewrite Hstat, Hfile. }
    destruct (executeApproved_plans a ctx repoDir _ w Hws Hfind) as [_ Hsome].
    by destruct Hsome as [Heq Hpaths].
Qed.

End apply_executor.

Section apply_examples.
Import boltdb events.
#[local] Existing Instance plain.library.

(** C1 as stated fails: pull request 1 planned the root project, the tool's
    apply succeeds, and the pull request still holds the lock afterwards. *)
Lemma apply_does_not_release_lock :
  ¬ releasedOnSuccess fixtures.applyExecutor (fixtures.applyCtx EmptyString)
      fixtures.cloneDir fixtures.rootPlan fixtures.planned.
Proof.
  intros Hreleased. apply Hreleased.
  - exists fixtures.appliedNotice. split; vm_compute; reflexivity.
  - exists fixtures.lockRepoPull1. split; vm_compute; reflexivity.
Qed.

Lemma apply_keeps_lock_witness :
  toolApplySucceeded fixtures.applyExecutor (fixtures.applyCtx EmptyString)
    fixtures.cloneDir fixtures.rootPlan fixtures.planned
  ∧ heldByPull (fixtures.applyCtx EmptyString) fixtures.rootPlan
      (ProjectPreExecute fixtures.applyExecutor (fixtures.applyCtx EmptyString)
         fixtures.cloneDir (PlanProject fixtures.rootPlan) (Locks fixtures.planned)).2
  ∧ heldByPull (fixtures.applyCtx EmptyString) fixtures.rootPlan
      (Locks (apply fixtures.applyExecutor (fixtures.applyCtx EmptyString)
                fixtures.cloneDir fixtures.rootPlan fixtures.planned).2).
Proof.
  assert (toolApplySucceeded fixtures.applyExecutor (fixtures.applyCtx EmptyString)
            fixtures.cloneDir fixtures.rootPlan fixtures.planned) as Hok.
  { exists fixtures.appliedNotice. split; vm_compute; reflexivity. }
  assert (heldByPull (fixtures.applyCtx EmptyString) fixtures.rootPlan
            (ProjectPreExecute fixtures.applyExecutor (fixtures.applyCtx EmptyString)
               fixtures.cloneDir (PlanProject fixtures.rootPlan)
               (Locks fixtures.planned)).2) as Hheld.
  { exists fixtures.lockRepoPull1. split; vm_compute; reflexivity. }
  split; [exact Hok|]. split; [exact Hheld|].
  exact (proj2 (apply_keeps_lock fixtures.applyExecutor (fixtures.applyCtx EmptyString)
                  fixtures.cloneDir fixtures.rootPlan fixtures.planned) Hok Hheld).
Defined.

Lemma apply_collects_plans_witness :
  RequireApproval fixtures.applyExecutor = false
  ∧ GetWorkspace fixtures.applyExecutor fixtures.ownerRepo
      (fixtures.pull fixtures.ownerRepo 1) "default" = inl fixtures.cloneDir
  ∧ ResultPath <$> ProjectResults
                     (Execute fixtures.applyExecutor (fixtures.applyCtx EmptyString)
                        fixtures.planned).1
    = [fixtures.cloneDir +:+ "/default.tfplan"]
  ∧ ∃ e, Execute fixtures.applyExecutor (fixtures.applyCtx "modules") fixtures.planned
         = (errorResponse e, fixtures.planned)
         ∧ Error e = "no plan found at path " +:+ Quote "modules"
                     +:+ " and workspace " +:+ Quote "default"
                     +:+ "–did you run plan?".
Proof.
  split; [reflexivity|]. split; [reflexivity|]. split.
  - rewrite (proj2 (proj2 (proj1 (apply_collects_plans fixtures.applyExecutor
                                    (fixtures.applyCtx EmptyString) fixtures.cloneDir
                                    fixtures.planned (or_introl eq_refl) eq_refl)
                             eq_refl ltac:(repeat constructor))
                      ltac:(vm_compute; discriminate))).
    vm_compute. reflexivity.
  - apply (proj1 (proj2 (apply_collects_plans fixtures.applyExecutor
                           (fixtures.applyCtx "modules") fixtures.cloneDir fixtures.planned
                           (or_introl eq_refl) eq_refl))).
    + vm_compute. discriminate.
    + intros stat. vm_compute. discriminate.
Defined.

End apply_examples.

(** ** Building the plan command *)

Lemma append_empty_r (s : string) : s +:+ EmptyString = s.
Proof. induction s as [|c s IH]; [done|]. unfold String.app in *. simpl. by rewrite IH. Qed.

Section plan_command.
Context `{Library}.
Import runtime.

(** C6, amended: when [env/{workspace}.tfvars] exists in the project
    directory, the pair [-var-file], [{path}/env/{workspace}.tfvars] is
    appended: it ends the argument list, after the [-var] arguments, the
    extra arguments of the configuration and those of the comment. *)
Theorem buildPlanCmd_var_file_last (p : PlanStepRunner) (ctx : ProjectCommandContext)
    (extraArgs : list string) (path tfVersion : string) :
  StatOK p (Join [path; "env"; Workspace ctx +:+ ".tfvars"]) = true →
  buildPlanCmd p ctx extraArgs path tfVersion
  = [ "plan"; "-input=false"; "-refresh"; "-no-color"; "-out";
      Quote (Join [path; GetPlanFilename p (Workspace ctx) (ProjectConfig ctx)]) ]
    ++ tfVars p ctx tfVersion ++ extraArgs ++ CommentArgs ctx
    ++ ["-var-file"; Join [path; "env"; Workspace ctx +:+ ".tfvars"]].
Proof.
  intros Hstat. unfold buildPlanCmd, flatten. rewrite Hstat. simpl.
  rewrite append_empty_r. by rewrite <- !app_assoc.
Qed.

End plan_command.

Section plan_command_examples.
Import runtime.
#[local] Existing Instance plain.library.

(** C6 as stated fails: with extra arguments from the configuration and from
    the comment, [-var-file] does not come before them. *)
Lemma var_file_not_before_extra_args :
  StatOK fixtures.planRunner (Join ["/clone/project"; "env"; "prod" +:+ ".tfvars"]) = true
  ∧ ¬ varFileBeforeExtraArgs
        (buildPlanCmd fixtures.planRunner fixtures.planCtx fixtures.configExtraArgs
           "/clone/project" "0.11.10")
        fixtures.configExtraArgs (CommentArgs fixtures.planCtx).
Proof.
  split; [reflexivity|].
  intros (pre & file & mid & post & Heq). vm_compute in Heq.
  peel_prefix Heq pre.
  injection Heq as _ Heq. destruct mid; discriminate Heq.
Qed.

Lemma buildPlanCmd_var_file_last_witness :
  StatOK fixtures.planRunner (Join ["/clone/project"; "env"; "prod" +:+ ".tfvars"]) = true
  ∧ buildPlanCmd fixtures.planRunner fixtures.planCtx fixtures.configExtraArgs
      "/clone/project" "0.11.10"
    = [ "plan"; "-input=false"; "-refresh"; "-no-color"; "-out";
        Quote (Join ["/clone/project"; "prod.tfplan"]) ]
      ++ tfVars fixtures.planRunner fixtures.planCtx "0.11.10"
      ++ ["-lock=false"] ++ ["-target=aws_instance.web"]
      ++ ["-var-file"; "/clone/project/env/prod.tfvars"].
Proof.
  split; [reflexivity|].
  exact (buildPlanCmd_var_file_last fixtures.planRunner fixtures.planCtx
           fixtures.configExtraArgs "/clone/project" "0.11.10" eq_refl).
Defined.

End plan_command_examples.

(** ** The lock admin surface *)

Section lock_admin.
Context `{Library}.
Import server.



Lemma notifyPull_Comments l lock w :
  Comments (notifyPull l lock w)
  = Comments w
    ++ [{| CommentRepo := BaseRepo (LockPull lock);
           CommentPull := Num (LockPull lock);
           CommentBody :=
             Sprintf discardedComment
               [argString (Path (LockProject lock)); argString (LockWorkspace lock)];
           CommentCommand := EmptyString |}].
Proof.
  unfold notifyPull.
  destruct (WorkingDirLockerTryLock l _ _ _); [|destruct (DeleteForWorkspace l _ _ _)];
    destruct (UpdateProjectStatus l _ _ _); destruct (CreateComment l _ _ _ _); done.
Qed.

Lemma discardedComment_text (path workspace : string) :
  Sprintf discardedComment [argString path; argString workspace]
  = "**Warning**: The plan for dir: `" +:+ path +:+ "` workspace: `" +:+ workspace
    +:+ "` was **discarded** via the Atlantis UI." +:+ newline +:+ newline
    +:+ "To `apply` this plan you must run `plan` again.".
Proof. vm_compute. reflexivity. Qed.


(** C9, amended: after a successful delete of a lock whose pull request
    carries a base repository, exactly one comment is made on that pull
    request, with the text [**Warning**: The plan for dir: `{path}`
    workspace: `{workspace}` was **discarded** via the Atlantis UI.], an empty
    line and [To `apply` this plan you must run `plan` again.]; when the base
    repository is absent no comment is made; the response is 200 in both
    cases. *)
Theorem DeleteLock_comments (l : LocksController) (r : Request) (w : World)
    (id idUnencoded : string) (lock : ProjectLock) (locks : bucket) :
  Vars r !! "id" = Some id → id ≠ EmptyString → PathUnescape id = inl idUnencoded →
  DeleteLockCommand l idUnencoded (Locks w) = ((Some lock, None), locks) →
  Code (DeleteLock l r w).1 = 200
  ∧ (BaseRepo (LockPull lock) ≠ zeroRepo →
     Comments (DeleteLock l r w).2
     = Comments w
       ++ [{| CommentRepo := BaseRepo (LockPull lock);
              CommentPull := Num (LockPull lock);
              CommentBody :=
                "**Warning**: The plan for dir: `" +:+ Path (LockProject lock)
                +:+ "` workspace: `" +:+ LockWorkspace lock
                +:+ "` was **discarded** via the Atlantis UI." +:+ newline +:+ newline
                +:+ "To `apply` this plan you must run `plan` again.";
              CommentCommand := EmptyString |}])
  ∧ (BaseRepo (LockPull lock) = zeroRepo →
     Comments (DeleteLock l r w).2 = Comments w).
Proof.
  intros Hid Hne Hdec Hdel. unfold DeleteLock.
  rewrite Hid, decide_False, Hdec, Hdel by done.
  split; [done|]. split; intros Hbase.
  - rewrite decide_True by done. simpl.
    by rewrite notifyPull_Comments, discardedComment_text.
  - by rewrite decide_False by (intros Hn; by apply Hn).
Qed.

End lock_admin.

Section lock_admin_examples.
Import boltdb server.
#[local] Existing Instance plain.library.


(** C9 as stated fails: the comment made after the delete does not have the
    text of the specification. *)
Lemma DeleteLock_comment_text_differs :
  BaseRepo (LockPull fixtures.lockRepoPull1) ≠ zeroRepo
  ∧ (DeleteLock fixtures.locksController
       (fixtures.deleteRequest "owner%2Frepo%2F.%2Fdefault")
       (fixtures.adminWorld (TryLock fixtures.lockRepoPull1 ∅).2)).1
    = {| Code := 200;
         Body := "Deleted lock id " +:+ Quote "owner%2Frepo%2F.%2Fdefault" +:+ newline |}
  ∧ ¬ commentsUnlocked fixtures.locksController
        (fixtures.deleteRequest "owner%2Frepo%2F.%2Fdefault")
        (fixtures.adminWorld (TryLock fixtures.lockRepoPull1 ∅).2).
Proof.
  split; [discriminate|]. split; [vm_compute; reflexivity|].
  intros (c & Hin & Hbody).
  assert (Comments (DeleteLock fixtures.locksController
                      (fixtures.deleteRequest "owner%2Frepo%2F.%2Fdefault")
                      (fixtures.adminWorld (TryLock fixtures.lockRepoPull1 ∅).2)).2
          = [{| CommentRepo := fixtures.ownerRepo; CommentPull := 1;
                CommentBody :=
                  "**Warning**: The plan for dir: `.` workspace: `default` was **discarded** via the Atlantis UI."
                  +:+ newline +:+ newline
                  +:+ "To `apply` this plan you must run `plan` again.";
                CommentCommand := EmptyString |}]) as Hcomments.
  { vm_compute. reflexivity. }
  rewrite Hcomments in Hin. apply list_elem_of_singleton in Hin. subst c.
  vm_compute in Hbody. discriminate Hbody.
Qed.

Lemma DeleteLock_comments_witness :
  (BaseRepo (LockPull fixtures.lockRepoPull1) ≠ zeroRepo
   ∧ length (Comments (DeleteLock fixtures.locksController
                         (fixtures.deleteRequest "owner%2Frepo%2F.%2Fdefault")
                         (fixtures.adminWorld (TryLock fixtures.lockRepoPull1 ∅).2)).2)
     = 1%nat)
  ∧ (BaseRepo (LockPull fixtures.oldLock) = zeroRepo
     ∧ Comments (DeleteLock fixtures.locksController
                   (fixtures.deleteRequest "owner%2Frepo%2Fold%2Fdefault")
                   (fixtures.adminWorld (TryLock fixtures.oldLock ∅).2)).2 = []).
Proof.
  split.
  - split; [discriminate|].
    rewrite (proj1 (proj2 (DeleteLock_comments fixtures.locksController
               (fixtures.deleteRequest "owner%2Frepo%2F.%2Fdefault")
               (fixtures.adminWorld (TryLock fixtures.lockRepoPull1 ∅).2)
               "owner%2Frepo%2F.%2Fdefault" "owner/repo/./default"
               fixtures.lockRepoPull1 ∅
               eq_refl ltac:(discriminate) eq_refl ltac:(vm_compute; reflexivity)))).
    + reflexivity.
    + discriminate.
  - split; [reflexivity|].
    apply (proj2 (proj2 (DeleteLock_comments fixtures.locksController
             (fixtures.deleteRequest "owner%2Frepo%2Fold%2Fdefault")
             (fixtures.adminWorld (TryLock fixtures.oldLock ∅).2)
             "owner%2Frepo%2Fold%2Fdefault" "owner/repo/old/default"
             fixtures.oldLock ∅
             eq_refl ltac:(discriminate) eq_refl ltac:(vm_compute; reflexivity)))).
    reflexivity.
Defined.

End lock_admin_examples.

(** ** The cases of the repository's tests *)

Section test_cases.
Import boltdb server.
#[local] Existing Instance plain.library.

(** [TestDeleteLock_NoLockID]. *)
Example DeleteLock_NoLockID :
  (DeleteLock fixtures.locksController {| Vars := ∅ |} (fixtures.adminWorld ∅)).1
  = {| Code := 400; Body := "No lock id in request" +:+ newline |}.
Proof. reflexivity. Qed.

(** [TestDeleteLock_InvalidLockID]. *)
Example DeleteLock_InvalidLockID :
  (DeleteLock fixtures.locksController (fixtures.deleteRequest "%A@")
     (fixtures.adminWorld ∅)).1
  = {| Code := 400;
       Body := "Invalid lock id " +:+ Quote "%A@"
               +:+ ". Failed with error: invalid URL escape " +:+ Quote "%A@"
               +:+ newline |}.
Proof. vm_compute. reflexivity. Qed.

(** The lock of the root project in the default workspace. *)
Example lockKey_root :
  lockKey (NewProject "owner/repo" ".") "default" = "owner/repo/./default".
Proof. reflexivity. Qed.

(** A second pull request is refused while the first holds the lock, and is
    told who holds it. *)
Example TryLock_second_pull :
  (TryLock fixtures.lockRepoPull2 (TryLock fixtures.lockRepoPull1 ∅).2).1
  = (false, fixtures.lockRepoPull1, None).
Proof. vm_compute. reflexivity. Qed.

(** [Unlock] returns the lock it deleted, and nil when there is none. *)
Example Unlock_twice :
  (Unlock (NewProject "owner/repo" ".") "default" (TryLock fixtures.lockRepoPull1 ∅).2)
  = ((Some fixtures.lockRepoPull1, None), ∅)
  ∧ Unlock (NewProject "owner/repo" ".") "default" ∅ = ((None, None), ∅).
Proof. split; vm_compute; reflexivity. Qed.

(** The plan command of the fixture: [-var-file] comes last. *)
Example buildPlanCmd_prod :
  runtime.buildPlanCmd fixtures.planRunner fixtures.planCtx fixtures.configExtraArgs
    "/clone/project" "0.11.10"
  = [ "plan"; "-input=false"; "-refresh"; "-no-color"; "-out";
      Quote "/clone/project/prod.tfplan";
      "-var"; "atlantis_user=" +:+ Quote "lkysow";
      "-var"; "atlantis_repo=" +:+ Quote "owner/repo";
      "-var"; "atlantis_repo_name=" +:+ Quote "repo";
      "-var"; "atlantis_repo_owner=" +:+ Quote "owner";
      "-var"; "atlantis_pull_num=1";
      "-lock=false"; "-target=aws_instance.web";
      "-var-file"; "/clone/project/env/prod.tfvars" ].
Proof. vm_compute. reflexivity. Qed.

End test_cases.

(* ===================================================================== *)
(** * Part II, continued: further properties of the code *)
(* ===================================================================== *)

(** ** The lock service: composition, errors, what it never does *)

Section lock_service_more.
Context `{Library}.
Import boltdb boltdb_status.

(** X1: unlocking twice.  When [Unlock] returns without error, a second
    [Unlock] of the same project and workspace finds nothing: it returns nil,
    no error, and leaves the bucket as it is. *)
Theorem Unlock_twice_nil (p : Project) (workspace : string) (b : bucket) :
  (Unlock p workspace b).1.2 = None →
  Get (lockKey p workspace) (Unlock p workspace b).2 = None
  ∧ Unlock p workspace (Unlock p workspace b).2 = ((None, None), (Unlock p workspace b).2).
Proof.
  intros Hok.
  assert (Get (lockKey p workspace) (Unlock p workspace b).2 = None) as Hgone.
  { revert Hok. unfold Unlock, Get, Delete.
    destruct (b !! lockKey p workspace) as [v|] eqn:Hget; simpl.
    - destruct (Unmarshal v); simpl; [intros _; apply lookup_delete_eq | done].
    - intros _. apply lookup_delete_eq. }
  split; [exact Hgone|].
  unfold Unlock at 1. rewrite Hgone. f_equal.
  unfold Delete. apply delete_id. exact Hgone.
Qed.

(** X2: lock and unlock.  On a bucket with nothing under the lock's key,
    [TryLock] followed by [Unlock] returns the lock that was stored and gives
    back the bucket exactly as it was. *)
Theorem TryLock_Unlock_round_trip (l : ProjectLock) (b : bucket) :
  Get (keyOf l) b = None →
  Unlock (LockProject l) (LockWorkspace l) (TryLock l b).2 = ((Some l, None), b).
Proof.
  intros Hfree. rewrite (TryLock_free l b Hfree). simpl.
  unfold Unlock, Get, Put, Delete, Marshal. fold (keyOf l).
  rewrite lookup_insert_eq. simpl. f_equal.
  rewrite delete_insert_eq. apply delete_id. exact Hfree.
Qed.

(** X3: [TryLock] never overwrites.  The lock is acquired exactly when the key
    was free; every value stored before is still stored under its key
    afterwards; and when the lock is not acquired, whether refused or failed,
    the bucket is unchanged. *)
Theorem TryLock_never_overwrites (newLock : ProjectLock) (b : bucket) :
  ((TryLock newLock b).1.1.1 = true ↔ Get (keyOf newLock) b = None)
  ∧ (∀ k v, Get k b = Some v → Get k (TryLock newLock b).2 = Some v)
  ∧ ((TryLock newLock b).1.1.1 = false → (TryLock newLock b).2 = b).
Proof.
  unfold TryLock. fold (keyOf newLock).
  destruct (Get (keyOf newLock) b) as [v|] eqn:Hget.
  - destruct (Unmarshal v); simpl; (split; [split; done|]); split; done.
  - simpl. split; [done|]. split; [|done].
    intros k v Hk. unfold Get, Put in *.
    rewrite lookup_insert_ne; [done|]. intros <-. congruence.
Qed.

Lemma Unlock_subseteq p workspace (b : bucket) : (Unlock p workspace b).2 ⊆ b.
Proof.
  unfold Unlock, Get, Delete.
  destruct (b !! lockKey p workspace) as [v|]; [destruct (Unmarshal v)|]; simpl;
    done || apply delete_subseteq.
Qed.

Lemma unlockAll_subseteq todo (b : bucket) : (unlockAll todo b).2 ⊆ b.
Proof.
  revert b. induction todo as [|l todo IH]; intros b; simpl; [done|].
  pose proof (Unlock_subseteq (LockProject l) (LockWorkspace l) b) as Hu.
  destruct (Unlock _ _ b) as [[prior [err|]] b']; simpl in *; [exact Hu|].
  etrans; [apply IH | exact Hu].
Qed.

Lemma Seek_elem_of seek (c : list (string * Blob)) kv : kv ∈ Seek seek c → kv ∈ c.
Proof.
  induction c as [|x c IH]; simpl; [done|].
  destruct (String.ltb x.1 seek); [|done]. intros Hin. right. by apply IH.
Qed.

Lemma scanPull_elem_of repoFullName pullNum c acc l :
  l ∈ (scanPull repoFullName pullNum c acc).1 →
  l ∈ acc ∨ ∃ k, (k, Json l) ∈ c ∧ HasPrefix k repoFullName = true
                 ∧ Num (LockPull l) = pullNum.
Proof.
  revert acc. induction c as [|[k v] c IH]; intros acc; simpl; [by left|].
  destruct (HasPrefix k repoFullName) eqn:Hp; [|by left].
  destruct v as [lock|why]; simpl; [|by left].
  intros [Hin|(k' & Hin & Hp' & Hn)]%IH.
  - destruct (decide (Num (LockPull lock) = pullNum)) as [Hn|]; [|by left].
    apply elem_of_app in Hin as [Hin|Hin]; [by left|].
    apply list_elem_of_singleton in Hin as ->. right. exists k. split; [left|done].
  - right. exists k'. split; [by right|done].
Qed.

(** X4: [UnlockByPull] only deletes, and only reports what was stored.  On
    any bucket, with or without an error: every value stored afterwards was
    stored before under the same key, and every lock returned was stored
    before under a key that starts with the repository name and has the pull
    number asked for. *)
Theorem UnlockByPull_only_deletes (repoFullName : string) (pullNum : Z) (b : bucket) :
  (∀ k v, Get k (UnlockByPull repoFullName pullNum b).2 = Some v → Get k b = Some v)
  ∧ (∀ l, l ∈ (UnlockByPull repoFullName pullNum b).1.1 →
          ∃ k, Get k b = Some (Json l) ∧ HasPrefix k repoFullName = true
               ∧ Num (LockPull l) = pullNum).
Proof.
  unfold UnlockByPull.
  pose proof (scanPull_elem_of repoFullName pullNum
                (Seek repoFullName (Cursor b)) []) as Hscan.
  destruct (scanPull _ _ _ _) as [locks err]. simpl in Hscan.
  assert (∀ l, l ∈ locks →
               ∃ k, Get k b = Some (Json l) ∧ HasPrefix k repoFullName = true
                    ∧ Num (LockPull l) = pullNum) as Hlocks.
  { intros l [Hin|(k & Hin & Hp & Hn)]%Hscan; [by apply elem_of_nil in Hin|].
    exists k. split; [|done]. by apply Seek_elem_of, Cursor_lookup in Hin. }
  destruct err as [err|]; simpl; [split; done|].
  pose proof (unlockAll_subseteq locks b) as Hsub.
  destruct (unlockAll locks b) as [err b']. simpl in *. split; [|done].
  intros k v Hk. unfold Get in *. by eapply lookup_weaken.
Qed.

(** X5: [GetLock] after [TryLock].  Whenever [TryLock] returns without error,
    [GetLock] for the same project and workspace then returns the lock that
    [TryLock] reported as the holder: the new lock if it was acquired, the
    earlier one if not. *)
Theorem GetLock_after_TryLock (newLock holder : ProjectLock) (acquired : bool) (b : bucket) :
  (TryLock newLock b).1 = (acquired, holder, None) →
  GetLock (LockProject newLock) (LockWorkspace newLock) (TryLock newLock b).2
  = (Some holder, None).
Proof.
  unfold TryLock, GetLock. fold (keyOf newLock).
  destruct (Get (keyOf newLock) b) as [v|] eqn:Hget; simpl.
  - destruct v as [c|why]; simpl; [|done]. intros [= _ <-]. by rewrite Hget.
  - intros [= _ <-]. unfold Get, Put. by rewrite lookup_insert_eq.
Qed.

(** X6: what [List] reports.  After any sequence of lock-service operations
    [List] returns without error; a lock is listed exactly when it is stored
    under its own key; no lock is listed twice; and the locks come in the byte
    order of their keys. *)
Theorem List_reports_stored_locks (ops : list op) :
  ∃ locks,
    List (run ops) = (locks, None)
    ∧ (∀ l, l ∈ locks ↔ Get (keyOf l) (run ops) = Some (Json l))
    ∧ NoDup locks
    ∧ StronglySorted (λ l1 l2, String.le (keyOf l1) (keyOf l2)) locks.
Proof.
  destruct (keyed_Cursor (run ops) (keyed_run ops)) as [ls Hc].
  exists ls. split; [by apply List_keyed|]. split; [|split].
  - intros l. unfold Get. rewrite <- Cursor_lookup, Hc. split.
    + intros Hin. apply list_elem_of_fmap. by exists l.
    + intros (l' & Heq & Hin)%list_elem_of_fmap. by injection Heq as _ ->.
  - pose proof (Cursor_NoDup_keys (run ops)) as Hnd.
    rewrite Hc, <- list_fmap_compose in Hnd. by apply NoDup_fmap_1 in Hnd.
  - pose proof (Cursor_sorted (run ops)) as Hsorted. rewrite Hc in Hsorted.
    clear Hc. induction ls as [|l ls IH]; [constructor|].
    rewrite fmap_cons in Hsorted. apply StronglySorted_inv in Hsorted as [Hs Hhd].
    constructor; [by apply IH|]. by rewrite Forall_fmap in Hhd.
Qed.

(** X8: [UnlockByPull] a second time.  After any sequence of lock-service
    operations, repeating an [UnlockByPull] that has just run returns no
    locks, no error, and leaves the bucket as it is. *)
Theorem UnlockByPull_twice_empty (ops : list op) (repoFullName : string) (pullNum : Z) :
  UnlockByPull repoFullName pullNum (UnlockByPull repoFullName pullNum (run ops)).2
  = (([], None), (UnlockByPull repoFullName pullNum (run ops)).2).
Proof.
  pose proof (keyed_run ops) as Hb.
  destruct (UnlockByPull_keyed repoFullName pullNum (run ops) Hb)
    as (removed & Heq & Hrem).
  rewrite Heq. simpl.
  assert (keyed (deleteAll removed (run ops))) as Hb'.
  { pose proof (keyed_UnlockByPull repoFullName pullNum (run ops) Hb) as Hk.
    by rewrite Heq in Hk. }
  destruct (UnlockByPull_keyed repoFullName pullNum _ Hb') as (again & Heq' & Hagain).
  assert (again = []) as ->; [|by rewrite Heq'].
  destruct again as [|l again]; [done|]. exfalso.
  destruct (proj1 (Hagain l)) as [Hstored Htaken]; [left|].
  rewrite lookup_deleteAll in Hstored.
  destruct (decide (keyOf l ∈ keyOf <$> removed)) as [|Hout]; [done|].
  apply Hout, list_elem_of_fmap. exists l. split; [done|]. by apply Hrem.
Qed.

End lock_service_more.

(** ** The status of pull requests *)

Section pull_status.
Context `{Library}.
Import boltdb_status.

Lemma sameProject_keys res proj : sameProject res proj ↔ resKey res = projKey proj.
Proof.
  unfold sameProject, resKey, projKey. split.
  - intros (-> & -> & ->). done.
  - intros [= -> -> ->]. done.
Qed.

Lemma statuses_of_results (rs : list ProjectResult) (acc : list ProjectStatus) :
  foldl (λ statuses r, statuses ++ [projectResultToProject r]) acc rs
  = acc ++ (projectResultToProject <$> rs).
Proof.
  revert acc. induction rs as [|r rs IH]; intros acc; simpl.
  - by rewrite app_nil_r.
  - rewrite IH. by rewrite <- app_assoc.
Qed.

Lemma updateExisting_Some res ps ps' :
  updateExisting res ps = Some ps' →
  projKey <$> ps' = projKey <$> ps
  ∧ (∀ i proj, ps !! i = Some proj → ¬ sameProject res proj → ps' !! i = Some proj)
  ∧ ∃ i proj, ps' !! i = Some proj ∧ sameProject res proj
              ∧ ProjStatus proj = getPlanStatus res.
Proof.
  revert ps'. induction ps as [|p ps IH]; intros ps'; simpl; [done|].
  destruct (decide (sameProject res p)) as [Hsame|Hdiff].
  - intros [= <-]. split; [done|]. split.
    + intros [|i] proj; simpl; [|done]. intros [= <-] Hn. done.
    + exists 0%nat. eexists. split; [done|]. split; [exact Hsame|done].
  - destruct (updateExisting res ps) as [rest'|]; [|done].
    intros [= <-]. destruct (IH rest' eq_refl) as (Hkeys & Hkeep & i & proj & Hi & Hs & Hst).
    split; [by rewrite !fmap_cons, Hkeys|]. split.
    + intros [|j] q; simpl; [done|]. apply Hkeep.
    + by exists (S i), proj.
Qed.

Lemma updateExisting_None res ps :
  updateExisting res ps = None → Forall (λ proj, ¬ sameProject res proj) ps.
Proof.
  induction ps as [|p ps IH]; simpl; [constructor|].
  destruct (decide (sameProject res p)); [done|].
  destruct (updateExisting res ps); [done|]. intros _. constructor; [done|by apply IH].
Qed.

Lemma mergeResult_spec ps res :
  projKey <$> ps `prefix_of` projKey <$> mergeResult ps res
  ∧ (∀ i proj, ps !! i = Some proj → ¬ sameProject res proj →
               mergeResult ps res !! i = Some proj)
  ∧ ∃ i proj, mergeResult ps res !! i = Some proj ∧ sameProject res proj
              ∧ ProjStatus proj = getPlanStatus res.
Proof.
  unfold mergeResult. destruct (updateExisting res ps) as [ps'|] eqn:Hu.
  - destruct (updateExisting_Some _ _ _ Hu) as (Hkeys & Hkeep & Hex).
    split; [by rewrite Hkeys|]. done.
  - split; [rewrite fmap_app; by apply prefix_app_r|]. split.
    + intros i proj Hi _. by apply lookup_app_l_Some.
    + exists (length ps), (projectResultToProject res).
      split; [by rewrite list_lookup_middle|]. done.
Qed.

Lemma merge_results_keep ps rs :
  projKey <$> ps `prefix_of` projKey <$> foldl mergeResult ps rs
  ∧ (∀ i proj, ps !! i = Some proj → (∀ res, res ∈ rs → ¬ sameProject res proj) →
               foldl mergeResult ps rs !! i = Some proj).
Proof.
  revert ps. induction rs as [|r rs IH]; intros ps; simpl; [done|].
  destruct (mergeResult_spec ps r) as (Hpre & Hkeep & _).
  destruct (IH (mergeResult ps r)) as [Hpre' Hkeep']. split.
  - by etrans.
  - intros i proj Hi Hnone. apply Hkeep'.
    + apply Hkeep; [done|]. apply Hnone. left.
    + intros res Hin. apply Hnone. by right.
Qed.

Lemma merge_results_last ps rs1 res rs2 :
  (∀ r, r ∈ rs2 → resKey r ≠ resKey res) →
  ∃ i proj, foldl mergeResult ps (rs1 ++ res :: rs2) !! i = Some proj
            ∧ sameProject res proj ∧ ProjStatus proj = getPlanStatus res.
Proof.
  intros Hlater. rewrite foldl_app. simpl.
  destruct (mergeResult_spec (foldl mergeResult ps rs1) res)
    as (_ & _ & i & proj & Hi & Hsame & Hst).
  exists i, proj. split; [|done].
  apply merge_results_keep; [done|].
  intros r Hin Hr. apply (Hlater r Hin).
  apply sameProject_keys in Hr, Hsame. congruence.
Qed.

(** X9: a status written is the status read.  When [UpdatePullWithResults]
    returns a status without error, [GetPullStatus] for the same pull request
    on the resulting bucket returns that status (a stored value is
    represented by the status it decodes to). *)
Theorem UpdatePull_then_GetPull (pull : PullRequest) (newResults : list ProjectResult)
    (b b' : pullBucket) (status : PullStatus) :
  UpdatePullWithResults pull newResults b = ((Some status, None), b') →
  GetPullStatus pull b' = (Some status, None).
Proof.
  unfold UpdatePullWithResults, GetPullStatus.
  destruct (pullKey pull) as [key|err]; [|done].
  destruct (getPullFromBucket b key) as [curr [err|]]; [done|].
  intros [= <- <-]. unfold getPullFromBucket, writePullToBucket.
  by rewrite lookup_insert_eq.
Qed.

(** X10: a new head commit starts afresh.  When no status is stored for the
    pull request, or the stored one is for another head commit, the new
    status holds the pull request as given and one project per new result, in
    order: what was recorded for other projects at the earlier commit is
    dropped. *)
Theorem UpdatePull_new_commit (pull : PullRequest) (newResults : list ProjectResult)
    (b : pullBucket) (key : string) :
  pullKey pull = inl key →
  (b !! key = None
   ∨ ∃ curr, b !! key = Some (PullJson curr)
             ∧ HeadCommit (PullOf curr) ≠ HeadCommit pull) →
  (UpdatePullWithResults pull newResults b).1
  = (Some {| Projects := projectResultToProject <$> newResults; PullOf := pull |}, None).
Proof.
  intros Hkey Hstored. unfold UpdatePullWithResults, getPullFromBucket. rewrite Hkey.
  destruct Hstored as [->|(curr & -> & Hcommit)]; simpl.
  - by rewrite statuses_of_results.
  - rewrite decide_True by done. by rewrite statuses_of_results.
Qed.

(** X11: the same head commit merges.  When a status is stored for the same
    head commit, the update keeps the stored pull request; keeps every stored
    project in its place, with its status when no new result is about that
    project; and for a result that no later result repeats, some project of
    the new status is that result's project and has that result's plan
    status. *)
Theorem UpdatePull_same_commit (pull : PullRequest) (newResults : list ProjectResult)
    (b : pullBucket) (key : string) (curr : PullStatus) :
  pullKey pull = inl key →
  b !! key = Some (PullJson curr) →
  HeadCommit (PullOf curr) = HeadCommit pull →
  ∃ status,
    (UpdatePullWithResults pull newResults b).1 = (Some status, None)
    ∧ PullOf status = PullOf curr
    ∧ projKey <$> Projects curr `prefix_of` projKey <$> Projects status
    ∧ (∀ i proj, Projects curr !! i = Some proj →
                 (∀ res, res ∈ newResults → ¬ sameProject res proj) →
                 Projects status !! i = Some proj)
    ∧ (∀ rs1 res rs2, newResults = rs1 ++ res :: rs2 →
                      (∀ r, r ∈ rs2 → resKey r ≠ resKey res) →
                      ∃ i proj, Projects status !! i = Some proj ∧ sameProject res proj
                                ∧ ProjStatus proj = getPlanStatus res).
Proof.
  intros Hkey Hstored Hcommit. unfold UpdatePullWithResults, getPullFromBucket.
  rewrite Hkey, Hstored. simpl. rewrite decide_False by (intros Hn; done).
  eexists. split; [done|]. simpl. split; [done|].
  destruct (merge_results_keep (Projects curr) newResults) as [Hpre Hkeep].
  split; [done|]. split; [done|].
  intros rs1 res rs2 -> Hlater. by apply merge_results_last.
Qed.

Lemma kept_projects workspace repoRelDir (ps acc : list ProjectStatus) :
  foldl (λ newProjects p,
           if decide (ProjWorkspace p = workspace ∧ ProjRepoRelDir p = repoRelDir)
           then newProjects else newProjects ++ [p]) acc ps
  = acc ++ filter (λ p, ¬ (ProjWorkspace p = workspace ∧ ProjRepoRelDir p = repoRelDir)) ps.
Proof.
  revert acc. induction ps as [|p ps IH]; intros acc; simpl.
  - by rewrite app_nil_r.
  - rewrite IH, filter_cons.
    destruct (decide (ProjWorkspace p = workspace ∧ ProjRepoRelDir p = repoRelDir)).
    + by rewrite decide_False by (intros Hn; done).
    + rewrite decide_True by done. by rewrite <- app_assoc.
Qed.

(** X12: deleting the status of a project.  [DeleteProjectStatus] leaves, of the
    projects recorded for the pull request, exactly those that are not for the
    given workspace and directory, in their order and with their statuses,
    whatever their project names; the pull request recorded stays.  When
    nothing is recorded for the pull request it changes nothing and returns
    no error. *)
Theorem DeleteProjectStatus_removes (pull : PullRequest) (workspace repoRelDir : string)
    (b : pullBucket) (key : string) :
  pullKey pull = inl key →
  (∀ curr, b !! key = Some (PullJson curr) →
     (DeleteProjectStatus pull workspace repoRelDir b).1 = None
     ∧ GetPullStatus pull (DeleteProjectStatus pull workspace repoRelDir b).2
       = (Some {| Projects :=
                    filter (λ p, ¬ (ProjWorkspace p = workspace
                                    ∧ ProjRepoRelDir p = repoRelDir)) (Projects curr);
                  PullOf := PullOf curr |}, None))
  ∧ (b !! key = None → DeleteProjectStatus pull workspace repoRelDir b = (None, b)).
Proof.
  intros Hkey. unfold DeleteProjectStatus, GetPullStatus, getPullFromBucket.
  rewrite Hkey. split.
  - intros curr ->. simpl. split; [done|].
    unfold writePullToBucket. rewrite lookup_insert_eq. by rewrite kept_projects.
  - by intros ->.
Qed.

(** X13: deleting the status of a pull request.  After [DeletePullStatus],
    [GetPullStatus] for that pull request returns nil and no error, and what
    is read for a pull request with another key is what was read before. *)
Theorem DeletePullStatus_then_GetPull (pull other : PullRequest) (b : pullBucket)
    (key otherKey : string) :
  pullKey pull = inl key →
  pullKey other = inl otherKey →
  otherKey ≠ key →
  (DeletePullStatus pull b).1 = None
  ∧ GetPullStatus pull (DeletePullStatus pull b).2 = (None, None)
  ∧ GetPullStatus other (DeletePullStatus pull b).2 = GetPullStatus other b.
Proof.
  intros Hkey Hother Hne. unfold DeletePullStatus, GetPullStatus, getPullFromBucket.
  rewrite Hkey, Hother. simpl. split; [done|].
  rewrite lookup_delete_eq. split; [done|]. by rewrite lookup_delete_ne.
Qed.

(** X14: names with the separator.  When the hostname or the full name of the
    base repository contains [::], every status operation returns an error
    and leaves the bucket as it is: nothing is read, written or deleted. *)
Theorem pull_status_rejects_separator (pull : PullRequest) (newResults : list ProjectResult)
    (workspace repoRelDir : string) (b : pullBucket) :
  Contains (Hostname (RepoVCSHost (BaseRepo pull))) "::" = true
  ∨ Contains (FullName (BaseRepo pull)) "::" = true →
  (∃ err, UpdatePullWithResults pull newResults b = ((None, Some err), b))
  ∧ (∃ err, GetPullStatus pull b = (None, Some err))
  ∧ (∃ err, DeletePullStatus pull b = (Some err, b))
  ∧ (∃ err, DeleteProjectStatus pull workspace repoRelDir b = (Some err, b)).
Proof.
  intros Hbad.
  assert (∃ err, pullKey pull = inr err) as [err Herr].
  { unfold pullKey, pullKeySeparator.
    destruct (Contains (Hostname _) "::"); [by eexists|].
    destruct Hbad as [Hhost|Hrepo]; [done|]. rewrite Hrepo. by eexists. }
  unfold UpdatePullWithResults, GetPullStatus, DeletePullStatus, DeleteProjectStatus.
  rewrite Herr. repeat split; by exists err.
Qed.

End pull_status.

(** ** The apply executor: early exits, one result per plan, the notice *)

Section apply_executor_more.
Context `{Library}.
Import boltdb events.

Lemma executeApproved_cases a ctx w :
  ((Error_ (executeApproved a ctx w).1 ≠ None
    ∨ Failure (executeApproved a ctx w).1 ≠ EmptyString)
   ∧ (executeApproved a ctx w).2 = w
   ∧ ProjectResults (executeApproved a ctx w).1 = [])
  ∨ (Error_ (executeApproved a ctx w).1 = None
     ∧ Failure (executeApproved a ctx w).1 = EmptyString
     ∧ ∃ repoDir plans,
         GetWorkspace a (CtxBaseRepo ctx) (CtxPull ctx) (Workspace (CtxCommand ctx))
         = inl repoDir
         ∧ findPlans a ctx repoDir = inl plans
         ∧ plans ≠ []
         ∧ executeApproved a ctx w
           = (resultsResponse (applyAll a ctx repoDir plans [] w).1,
              (applyAll a ctx repoDir plans [] w).2)).
Proof.
  unfold executeApproved.
  destruct (GetWorkspace a _ _ _) as [repoDir|err] eqn:Hws.
  2:{ left. split; [right; done|done]. }
  destruct (findPlans a ctx repoDir) as [plans|response] eqn:Hfind.
  - destruct plans as [|plan plans]; [left; split; [right; done|done]|].
    right.
    destruct (applyAll a ctx repoDir (plan :: plans) [] w) as [results w'] eqn:Hall.
    split; [done|]. split; [done|].
    exists repoDir, (plan :: plans). rewrite Hall. done.
  - left. simpl. split; [|split; [done|]].
    + revert Hfind. unfold findPlans.
      destruct (decide _) as [Hdir|Hdir].
      * destruct (Walk _ _ _) as [[werr|] plans]; intros [= <-]; by left.
      * destruct (Stat _ _) as [stat|]; [destruct (IsDir stat)|]; intros [= <-]; by left.
    + revert Hfind. unfold findPlans.
      destruct (decide _) as [Hdir|Hdir].
      * by destruct (Walk _ _ _) as [[werr|] plans]; intros [= <-].
      * by destruct (Stat _ _) as [stat|]; [destruct (IsDir stat)|]; intros [= <-].
Qed.

Lemma Execute_cases a ctx w :
  ((Error_ (Execute a ctx w).1 ≠ None ∨ Failure (Execute a ctx w).1 ≠ EmptyString)
   ∧ (Execute a ctx w).2 = w
   ∧ ProjectResults (Execute a ctx w).1 = [])
  ∨ (Error_ (Execute a ctx w).1 = None
     ∧ Failure (Execute a ctx w).1 = EmptyString
     ∧ ∃ repoDir plans,
         GetWorkspace a (CtxBaseRepo ctx) (CtxPull ctx) (Workspace (CtxCommand ctx))
         = inl repoDir
         ∧ findPlans a ctx repoDir = inl plans
         ∧ plans ≠ []
         ∧ Execute a ctx w
           = (resultsResponse (applyAll a ctx repoDir plans [] w).1,
              (applyAll a ctx repoDir plans [] w).2)).
Proof.
  unfold Execute. destruct (RequireApproval a); [|apply executeApproved_cases].
  destruct (PullIsApproved a _ _) as [[|] [e|]]; try apply executeApproved_cases;
    left; (split; [by (left + right)|done]).
Qed.

Lemma applyAll_spec a ctx repoDir plans results w :
  ∃ news,
    (applyAll a ctx repoDir plans results w).1 = results ++ news
    ∧ length news = length plans
    ∧ (applyAll a ctx repoDir plans results w).2
      = foldl (λ w p, (apply a ctx repoDir p w).2) w plans
    ∧ ∀ i plan,
        plans !! i = Some plan →
        news !! i
        = Some {| ResultPath := LocalPath plan;
                  ResultError :=
                    ResultError
                      (apply a ctx repoDir plan
                         (foldl (λ w p, (apply a ctx repoDir p w).2) w (take i plans))).1;
                  ResultFailure :=
                    ResultFailure
                      (apply a ctx repoDir plan
                         (foldl (λ w p, (apply a ctx repoDir p w).2) w (take i plans))).1;
                  ResultPlanSuccess :=
                    ResultPlanSuccess
                      (apply a ctx repoDir plan
                         (foldl (λ w p, (apply a ctx repoDir p w).2) w (take i plans))).1;
                  ResultApplySuccess :=
                    ResultApplySuccess
                      (apply a ctx repoDir plan
                         (foldl (λ w p, (apply a ctx repoDir p w).2) w (take i plans))).1 |}.
Proof.
  revert results w. induction plans as [|p plans IH]; intros results w.
  - exists []. cbn. rewrite app_nil_r. by repeat split.
  - cbn [applyAll].
    destruct (apply a ctx repoDir p w) as [result w'] eqn:Happly.
    destruct (IH (results ++
                    [{| ResultPath := LocalPath p; ResultError := ResultError result;
                        ResultFailure := ResultFailure result;
                        ResultPlanSuccess := ResultPlanSuccess result;
                        ResultApplySuccess := ResultApplySuccess result |}]) w')
      as (news & Hres & Hlen & Hw & Hnth).
    exists ({| ResultPath := LocalPath p; ResultError := ResultError result;
               ResultFailure := ResultFailure result;
               ResultPlanSuccess := ResultPlanSuccess result;
               ResultApplySuccess := ResultApplySuccess result |} :: news).
    split; [by rewrite Hres, <- app_assoc|].
    split; [cbn; by rewrite Hlen|].
    split; [cbn [foldl]; by rewrite Happly|].
    intros [|i] plan Hplan.
    + cbn in Hplan. injection Hplan as <-. cbn. by rewrite Happly.
    + cbn in Hplan. cbn [take foldl lookup list_lookup]. rewrite Happly. cbn [snd].
      by apply Hnth.
Qed.

(** X15: a top-level Error or Failure means nothing was done.  Whenever the
    response of [Execute] carries a top-level Error or Failure (approval
    missing or not checkable, no workspace, no plan found), the lock store
    and the notifications are as before the call and the response has no
    project results: no pre-execution, no apply, no notice. *)
Theorem Execute_failure_does_nothing (a : ApplyExecutor) (ctx : CommandContext) (w : World) :
  Error_ (Execute a ctx w).1 ≠ None ∨ Failure (Execute a ctx w).1 ≠ EmptyString →
  (Execute a ctx w).2 = w ∧ ProjectResults (Execute a ctx w).1 = [].
Proof.
  intros Hfail. destruct (Execute_cases a ctx w) as [(_ & Hw & Hr)|(He & Hf & _)]; [done|].
  destruct Hfail; done.
Qed.

(** X16: every plan found is applied.  A response of [Execute] without
    top-level Error or Failure has exactly one project result for every plan
    found, in the order the plans were found: the result at a plan's position
    is the result of [apply] for that plan, with the path of the plan, run on
    the lock store and notifications that the applies of the plans before it
    left, whether those succeeded or failed; and what [Execute] leaves is what
    the applies of all the plans left. *)
Theorem Execute_one_result_per_plan (a : ApplyExecutor) (ctx : CommandContext) (w : World) :
  Error_ (Execute a ctx w).1 = None →
  Failure (Execute a ctx w).1 = EmptyString →
  ∃ repoDir plans,
    GetWorkspace a (CtxBaseRepo ctx) (CtxPull ctx) (Workspace (CtxCommand ctx)) = inl repoDir
    ∧ findPlans a ctx repoDir = inl plans
    ∧ plans ≠ []
    ∧ length (ProjectResults (Execute a ctx w).1) = length plans
    ∧ (∀ i plan,
         plans !! i = Some plan →
         ProjectResults (Execute a ctx w).1 !! i
         = Some {| ResultPath := LocalPath plan;
                   ResultError :=
                     ResultError
                       (apply a ctx repoDir plan
                          (foldl (λ w p, (apply a ctx repoDir p w).2) w (take i plans))).1;
                   ResultFailure :=
                     ResultFailure
                       (apply a ctx repoDir plan
                          (foldl (λ w p, (apply a ctx repoDir p w).2) w (take i plans))).1;
                   ResultPlanSuccess :=
                     ResultPlanSuccess
                       (apply a ctx repoDir plan
                          (foldl (λ w p, (apply a ctx repoDir p w).2) w (take i plans))).1;
                   ResultApplySuccess :=
                     ResultApplySuccess
                       (apply a ctx repoDir plan
                          (foldl (λ w p, (apply a ctx repoDir p w).2) w (take i plans))).1 |})
    ∧ (Execute a ctx w).2 = foldl (λ w p, (apply a ctx repoDir p w).2) w plans.
Proof.
  intros He Hf.
  destruct (Execute_cases a ctx w)
    as [([Hn|Hn] & _)|(_ & _ & repoDir & plans & Hws & Hfind & Hne & Heq)]; [done..|].
  exists repoDir, plans. split; [done|]. split; [done|]. split; [done|].
  destruct (applyAll_spec a ctx repoDir plans [] w) as (news & Hres & Hlen & Hw & Hnth).
  rewrite Heq. cbn [fst snd resultsResponse ProjectResults]. rewrite Hres, app_nil_l.
  split; [done|]. split; [done|]. by rewrite Hw.
Qed.

(** X17: the notice of [apply].  When the pre-executor returns a project
    result, [apply] returns it and sends no notice.  Otherwise it sends
    exactly one notice, for the command's workspace, user, repository and pull
    request; a notice of failure comes with an Error result, and a result
    without Error comes with a notice of success and holds the tool's output:
    the notice is sent before the [post_apply] hooks run, so an Error from
    the hooks follows a notice of success. *)
Theorem apply_notice (a : ApplyExecutor) (ctx : CommandContext) (repoDir : string)
    (plan : models.Plan) (w : World) :
  (PreProjectResult (ProjectPreExecute a ctx repoDir (PlanProject plan) (Locks w)).1
   ≠ zeroProjectResult →
   (apply a ctx repoDir plan w).1
   = PreProjectResult (ProjectPreExecute a ctx repoDir (PlanProject plan) (Locks w)).1
   ∧ Sent (apply a ctx repoDir plan w).2 = Sent w)
  ∧ (PreProjectResult (ProjectPreExecute a ctx repoDir (PlanProject plan) (Locks w)).1
     = zeroProjectResult →
     ∃ success,
       Sent (apply a ctx repoDir plan w).2
       = Sent w ++ [{| HookWorkspace := Workspace (CtxCommand ctx);
                       HookUser := CtxUser ctx; HookRepo := CtxBaseRepo ctx;
                       HookPull := CtxPull ctx; HookSuccess := success |}]
       ∧ (success = false → ResultError (apply a ctx repoDir plan w).1 ≠ None)
       ∧ (ResultError (apply a ctx repoDir plan w).1 = None →
          success = true
          ∧ ∃ args path,
              RunCommandWithVersion a path
                ("apply" :: "-no-color" :: args ++ [LocalPath plan])
                (PreTerraformVersion
                   (ProjectPreExecute a ctx repoDir (PlanProject plan) (Locks w)).1)
                (Workspace (CtxCommand ctx))
              = (ResultApplySuccess (apply a ctx repoDir plan w).1, None))).
Proof.
  unfold apply.
  destruct (ProjectPreExecute a ctx repoDir (PlanProject plan) (Locks w)) as [pre locks].
  simpl. split; intros Hpre.
  - by rewrite decide_True.
  - rewrite decide_False by (intros Hn; done).
    destruct (RunCommandWithVersion a _ _ _ _) as [output [e|]] eqn:Hrun; simpl.
    + exists false. split; [done|]. split; done.
    + exists true.
      assert (∃ args path,
                RunCommandWithVersion a path
                  ("apply" :: "-no-color" :: args ++ [LocalPath plan])
                  (PreTerraformVersion pre) (Workspace (CtxCommand ctx))
                = (output, None)) as Htool.
      { eexists _, _. rewrite <- Hrun. f_equal. simpl. by rewrite <- app_assoc. }
      destruct (PostApply _); simpl; [done|].
      destruct (RunExecute a _ _ _ _ _) as [? [?|]]; simpl; [|done].
      split; [done|]. split; done.
Qed.

End apply_executor_more.

(** ** Running the tool *)

Section terraform_client.
Context `{Library}.
Import terraform.

Lemma readLines_spec ch acc :
  ∃ taken,
    readLines ch acc = acc ++ taken
    ∧ taken `prefix_of` ch
    ∧ (taken = ch ∨ isCrash (acc ++ taken) = true)
    ∧ (∀ p, p `prefix_of` taken → p ≠ [] → p ≠ taken → isCrash (acc ++ p) = false).
Proof.
  revert acc. induction ch as [|line ch IH]; intros acc; simpl.
  - exists []. rewrite app_nil_r. split; [done|]. split; [done|]. split; [by left|].
    intros p Hp%prefix_nil_inv. done.
  - destruct (isCrash (acc ++ [line])) eqn:Hcrash.
    + exists [line]. split; [done|]. split; [by apply prefix_cons, prefix_nil|].
      split; [by right|].
      intros [|x p] Hp Hne Hne'; [done|].
      destruct Hp as [rest Hp]. injection Hp as <- Hp.
      symmetry in Hp. apply app_eq_nil in Hp as [-> _]. done.
    + destruct (IH (acc ++ [line])) as (taken & Heq & Hpre & Hend & Hfirst).
      exists (line :: taken). rewrite Heq, <- app_assoc. split; [done|].
      split; [by apply prefix_cons|]. split.
      * destruct Hend as [->|Hend]; [by left|right]. by rewrite <- app_assoc in Hend.
      * intros [|x p] Hp Hne Hne'; [done|].
        destruct Hp as [rest Hp]. injection Hp as <- Hp.
        destruct p as [|y p]; [exact Hcrash|].
        specialize (Hfirst (y :: p)). rewrite <- app_assoc in Hfirst. apply Hfirst.
        -- by exists rest.
        -- done.
        -- intros Heq'. apply Hne'. by rewrite Heq'.
Qed.

(** X18: reading the tool's output.  The lines that [crashSafeExec] collects
    are the first lines that arrive: all of them when no crash delimiter is
    seen, and otherwise the lines up to and including the first point at
    which the last three lines read are the crash delimiter; nothing after
    that point is read. *)
Theorem readLines_up_to_crash (ch : list string) :
  readLines ch [] `prefix_of` ch
  ∧ (readLines ch [] = ch ∨ isCrash (readLines ch []) = true)
  ∧ (∀ p, p `prefix_of` readLines ch [] → p ≠ readLines ch [] → isCrash p = false).
Proof.
  destruct (readLines_spec ch []) as (taken & Heq & Hpre & Hend & Hfirst).
  simpl in *. rewrite Heq. split; [done|]. split; [done|].
  intros [|x p] Hp Hne; [done|]. by apply Hfirst.
Qed.

Lemma generateRCFile_present (tfeToken home : string) (d : Disk) (file : File) :
  Files d !! Join [home; ".terraformrc"] = Some file →
  (generateRCFile tfeToken home d).2 = d
  ∧ ((generateRCFile tfeToken home d).1 = None
     ↔ ReadErr file = None ∧ Contents file = Sprintf rcFileContents [argString tfeToken]).
Proof.
  intros Hfile. unfold generateRCFile. rewrite Hfile.
  destruct (ReadErr file) as [err|]; [by split; [|split; [|intros [? _]]]|].
  destruct (decide _) as [Hdiff|Hsame]; cbn [fst snd].
  - split; [done|]. split; [done|]. intros [_ Heq]. by destruct Hdiff.
  - split; [done|]. split; [|done]. intros _. split; [done|].
    by apply dec_stable in Hsame.
Qed.

Lemma generateRCFile_absent (tfeToken home : string) (d : Disk) :
  Files d !! Join [home; ".terraformrc"] = None →
  (generateRCFile tfeToken home d).1 = None →
  Files (generateRCFile tfeToken home d).2
  = <[Join [home; ".terraformrc"] :=
        {| Contents := Sprintf rcFileContents [argString tfeToken]; ReadErr := None |}]>
      (Files d).
Proof.
  intros Hfile. unfold generateRCFile. rewrite Hfile.
  by destruct (WriteErr d _).
Qed.

(** X19: the credentials file.  [generateRCFile] never changes a file that
    [os.Stat] finds, whatever it returns; when it returns without error the
    file [home/.terraformrc] holds the configuration for the token; and
    running it again then succeeds and changes nothing. *)
Theorem generateRCFile_never_overwrites (tfeToken home : string) (d : Disk) :
  (∀ file, Files d !! Join [home; ".terraformrc"] = Some file →
           (generateRCFile tfeToken home d).2 = d)
  ∧ ((generateRCFile tfeToken home d).1 = None →
     (∃ file, Files (generateRCFile tfeToken home d).2 !! Join [home; ".terraformrc"]
              = Some file
              ∧ Contents file = Sprintf rcFileContents [argString tfeToken])
     ∧ generateRCFile tfeToken home (generateRCFile tfeToken home d).2
       = (None, (generateRCFile tfeToken home d).2)).
Proof.
  split.
  - intros file Hfile. by destruct (generateRCFile_present tfeToken home d file Hfile).
  - intros Hok.
    assert (∃ file, Files (generateRCFile tfeToken home d).2 !! Join [home; ".terraformrc"]
                    = Some file
                    ∧ ReadErr file = None
                    ∧ Contents file = Sprintf rcFileContents [argString tfeToken])
      as (file & Hfile & Hread & Hcontents).
    { destruct (Files d !! Join [home; ".terraformrc"]) as [file|] eqn:Hfile.
      - destruct (generateRCFile_present tfeToken home d file Hfile) as [-> Hiff].
        exists file. split; [done|]. by apply Hiff.
      - rewrite (generateRCFile_absent tfeToken home d Hfile Hok).
        eexists. by rewrite lookup_insert_eq. }
    split; [by exists file|].
    destruct (generateRCFile_present tfeToken home _ file Hfile) as [Hsame Hiff].
    apply injective_projections; cbn [fst snd]; [by apply Hiff | done].
Qed.

End terraform_client.

(** ** The plan step: workspaces, the error file and the output *)

Section plan_step_more.
Context `{Library}.
Import runtime plan_step.

Lemma selectOrNew_cases env ctx path v calls :
  (∃ out, Exec env calls (selectCall env ctx path v) = (out, None)
          ∧ selectOrNew env ctx path v calls = (None, calls ++ [selectCall env ctx path v]))
  ∨ (∃ out e out',
        Exec env calls (selectCall env ctx path v) = (out, Some e)
        ∧ selectOrNew env ctx path v calls
          = ((Exec env (calls ++ [selectCall env ctx path v]) (newCall env ctx path v)).2,
             calls ++ [selectCall env ctx path v; newCall env ctx path v])
        ∧ (Exec env (calls ++ [selectCall env ctx path v]) (newCall env ctx path v)).1 = out').
Proof.
  unfold selectOrNew, runCommand.
  destruct (Exec env calls (selectCall env ctx path v)) as [out [e|]] eqn:Hsel.
  - right. exists out, e.
    destruct (Exec env (calls ++ [selectCall env ctx path v]) (newCall env ctx path v))
      as [out' err'] eqn:Hnew.
    exists out'. by rewrite <- app_assoc.
  - left. by exists out.
Qed.

(** X20: versions without workspaces.  For a version below 0.9
    [switchWorkspace] runs no command at all, and it succeeds exactly when the
    workspace is the default one. *)
Theorem switchWorkspace_old_versions env ctx path v calls :
  belowZeroPointNine env v = true →
  (switchWorkspace env ctx path v calls).2 = calls
  ∧ ((switchWorkspace env ctx path v calls).1 = None ↔ Workspace ctx = "default").
Proof.
  intros Hold. unfold switchWorkspace. rewrite Hold. cbn [andb].
  unfold defaultWorkspace. case_bool_decide as Hws; cbn [fst snd].
  - split; [done|]. by split.
  - split; [done|]. by split.
Qed.

(** X21: a successful switch was confirmed by the tool.  For a version with
    workspaces, [switchWorkspace] returns no error only if the last command
    it ran succeeded, and that command is [show] answering the wanted
    workspace, or [select], or [new]. *)
Theorem switchWorkspace_success_confirmed env ctx path v calls :
  belowZeroPointNine env v = false →
  (switchWorkspace env ctx path v calls).1 = None →
  ∃ before c out,
    (switchWorkspace env ctx path v calls).2 = calls ++ before ++ [c]
    ∧ Exec env (calls ++ before) c = (out, None)
    ∧ ((c = showCall env ctx path v ∧ TrimSpace env out = Workspace ctx)
       ∨ c = selectCall env ctx path v
       ∨ c = newCall env ctx path v).
Proof.
  intros Hnew. unfold switchWorkspace. rewrite Hnew. cbn [andb].
  assert (∀ calls',
    (selectOrNew env ctx path v calls').1 = None →
    ∃ before c out,
      (selectOrNew env ctx path v calls').2 = calls' ++ before ++ [c]
      ∧ Exec env (calls' ++ before) c = (out, None)
      ∧ (c = selectCall env ctx path v ∨ c = newCall env ctx path v)) as Hselect.
  { intros calls'.
    destruct (selectOrNew_cases env ctx path v calls')
      as [(out & Hsel & ->)|(out & e & out' & Hsel & -> & Hout')]; cbn [fst snd].
    - intros _. exists [], (selectCall env ctx path v), out.
      rewrite app_nil_r. by eauto.
    - intros Hok. exists [selectCall env ctx path v], (newCall env ctx path v), out'.
      split; [done|]. split; [|by right].
      destruct (Exec env _ (newCall env ctx path v)) as [o e'].
      cbn [fst snd] in *. by subst. }
  destruct (zeroPointNine env v) eqn:Hnine; cbn [negb].
  - intros Hok. destruct (Hselect calls Hok) as (before & c & out & Heq & Hexec & Hc).
    exists before, c, out. by eauto.
  - unfold runCommand.
    destruct (Exec env calls (showCall env ctx path v)) as [out [e|]] eqn:Hshow;
      [done|].
    destruct (decide _) as [Hsame|Hdiff]; cbn [fst snd].
    + intros _. exists [], (showCall env ctx path v), out.
      rewrite app_nil_r. by eauto.
    + intros Hok.
      destruct (Hselect _ Hok) as (before & c & out' & Heq & Hexec & Hc).
      exists (showCall env ctx path v :: before), c, out'.
      rewrite Heq. rewrite <- !app_assoc in *. cbn [app] in *. by eauto.
Qed.

(** X22: the commands of a switch.  Whatever happens, [switchWorkspace] only
    adds calls to those made before; a workspace is created only right after
    selecting it failed; and version 0.9 is never asked to [show]. *)
Theorem switchWorkspace_new_after_failed_select env ctx path v calls :
  ∃ added,
    (switchWorkspace env ctx path v calls).2 = calls ++ added
    ∧ (newCall env ctx path v ∈ added →
       ∃ before out e,
         added = before ++ [selectCall env ctx path v; newCall env ctx path v]
         ∧ Exec env (calls ++ before) (selectCall env ctx path v) = (out, Some e))
    ∧ (zeroPointNine env v = true → showCall env ctx path v ∉ added).
Proof.
  assert (newCall env ctx path v ≠ selectCall env ctx path v) as Hns
    by (intros [=]).
  assert (newCall env ctx path v ≠ showCall env ctx path v) as Hnsh
    by (intros [=]).
  assert (showCall env ctx path v ≠ selectCall env ctx path v) as Hshs
    by (intros [=]).
  assert (showCall env ctx path v ≠ newCall env ctx path v) as Hshn
    by (intros [=]).
  assert (∀ calls',
    ∃ added,
      (selectOrNew env ctx path v calls').2 = calls' ++ added
      ∧ (newCall env ctx path v ∈ added →
         ∃ out e,
           added = [selectCall env ctx path v; newCall env ctx path v]
           ∧ Exec env calls' (selectCall env ctx path v) = (out, Some e))
      ∧ showCall env ctx path v ∉ added) as Hselect.
  { intros calls'.
    destruct (selectOrNew_cases env ctx path v calls')
      as [(out & Hsel & ->)|(out & e & out' & Hsel & -> & Hout')]; cbn [fst snd].
    - exists [selectCall env ctx path v]. split; [done|]. split.
      + intros Hin%list_elem_of_singleton. done.
      + intros Hin%list_elem_of_singleton. done.
    - exists [selectCall env ctx path v; newCall env ctx path v].
      split; [done|]. split; [by eauto|].
      intros Hin. apply elem_of_cons in Hin as [Hin|Hin]; [done|].
      apply list_elem_of_singleton in Hin. done. }
  unfold switchWorkspace.
  destruct (belowZeroPointNine env v) eqn:Hold; cbn [andb].
  { exists []. rewrite app_nil_r.
    split; [by case_bool_decide|]. split; [by intros ?%elem_of_nil|].
    by intros _ ?%elem_of_nil. }
  destruct (zeroPointNine env v) eqn:Hnine; cbn [negb].
  - destruct (Hselect calls) as (added & Heq & Hnew & Hshow).
    exists added. split; [done|]. split; [|done].
    intros Hin. destruct (Hnew Hin) as (out & e & -> & Hexec).
    exists [], out, e. by rewrite app_nil_r.
  - unfold runCommand.
    destruct (Exec env calls (showCall env ctx path v)) as [out [e|]] eqn:Hshow;
      cbn [fst snd].
    { exists [showCall env ctx path v]. split; [done|]. split; [|done].
      intros Hin%list_elem_of_singleton. done. }
    destruct (decide _) as [Hsame|Hdiff]; cbn [fst snd].
    { exists [showCall env ctx path v]. split; [done|]. split; [|done].
      intros Hin%list_elem_of_singleton. done. }
    destruct (Hselect (calls ++ [showCall env ctx path v]))
      as (added & Heq & Hnew & _).
    exists (showCall env ctx path v :: added). rewrite Heq, <- app_assoc.
    split; [done|]. split; [|done].
    intros Hin. apply elem_of_cons in Hin as [Hin|Hin]; [done|].
    destruct (Hnew Hin) as (out' & e & -> & Hexec).
    exists [showCall env ctx path v], out', e. by split.
Qed.

Lemma switchWorkspace_appends env ctx path v calls :
  ∃ added, (switchWorkspace env ctx path v calls).2 = calls ++ added.
Proof.
  assert (∀ calls', ∃ added,
            (selectOrNew env ctx path v calls').2 = calls' ++ added) as Hselect.
  { intros calls'.
    destruct (selectOrNew_cases env ctx path v calls')
      as [(out & _ & ->)|(out & e & out' & _ & -> & _)]; by eexists. }
  unfold switchWorkspace.
  destruct (belowZeroPointNine env v); cbn [andb].
  { exists []. rewrite app_nil_r. by case_bool_decide. }
  destruct (zeroPointNine env v); cbn [negb]; [apply Hselect|].
  unfold runCommand.
  destruct (Exec env calls (showCall env ctx path v)) as [out [e|]]; [by eexists|].
  destruct (decide _); [by eexists|].
  destruct (Hselect (calls ++ [showCall env ctx path v])) as [added ->].
  exists (showCall env ctx path v :: added). by rewrite <- app_assoc.
Qed.

(** X23: the files of a plan run.  What [Run] itself does to the files
    concerns the file [<prefix>.tfplan-error] of the directory alone; all
    else is what the calls of the tool do.  If switching the workspace
    failed, [Run] returns that error with an empty output, runs no plan and
    does nothing to the files, so an error file of an earlier plan stays.
    Otherwise it removes the error file, if it can, before it runs the plan
    after the calls of the switch; when the plan fails it returns the tool's
    output as it is and the error file then holds exactly that output; when
    the plan succeeds it returns the formatted output and writes nothing. *)
Theorem Run_error_file env ctx extraArgs path st out err st' :
  Run env ctx extraArgs path st = (Returned out err, st') →
  ∃ added,
    (switchWorkspace env ctx path (versionOf env ctx) (Calls st)).2 = Calls st ++ added
    ∧ (∀ e, (switchWorkspace env ctx path (versionOf env ctx) (Calls st)).1 = Some e →
            out = EmptyString ∧ err = Some e
            ∧ Calls st' = Calls st ++ added
            ∧ DiskFiles st' = effects env (Calls st) added (DiskFiles st))
    ∧ ((switchWorkspace env ctx path (versionOf env ctx) (Calls st)).1 = None →
       ∃ raw,
         Exec env (Calls st ++ added) (planCall env ctx extraArgs path) = (raw, err)
         ∧ Calls st' = (Calls st ++ added) ++ [planCall env ctx extraArgs path]
         ∧ (err ≠ None →
            out = raw
            ∧ DiskFiles st'
              = <[planErrorFile env ctx path := raw]>
                  (Effect env (Calls st ++ added) (planCall env ctx extraArgs path)
                     (if RemoveOK env (planErrorFile env ctx path)
                      then delete (planErrorFile env ctx path)
                             (effects env (Calls st) added (DiskFiles st))
                      else effects env (Calls st) added (DiskFiles st))))
         ∧ (err = None →
            out = fmtPlanOutput raw
            ∧ DiskFiles st'
              = Effect env (Calls st ++ added) (planCall env ctx extraArgs path)
                  (if RemoveOK env (planErrorFile env ctx path)
                   then delete (planErrorFile env ctx path)
                          (effects env (Calls st) added (DiskFiles st))
                   else effects env (Calls st) added (DiskFiles st)))).
Proof.
  intros Hrun.
  destruct (switchWorkspace_appends env ctx path (versionOf env ctx) (Calls st))
    as [added Hadded].
  exists added. split; [done|].
  unfold Run, runCommand in Hrun.
  destruct (switchWorkspace env ctx path (versionOf env ctx) (Calls st))
    as [switchErr calls]. cbn [fst snd] in *. subst calls.
  rewrite drop_app_length in Hrun.
  destruct switchErr as [e|].
  - injection Hrun as <- <- <-. cbn [Calls DiskFiles]. split; [|done].
    by intros e' [= <-].
  - split; [done|]. intros _.
    destruct (Exec env (Calls st ++ added) (planCall env ctx extraArgs path))
      as [output [e|]].
    + destruct (WriteFileErr env _); [done|].
      injection Hrun as <- <- <-. cbn [Calls DiskFiles]. exists output.
      split; [done|]. split; [done|]. split; [done|]. by intros [=].
    + injection Hrun as <- <- <-. cbn [Calls DiskFiles]. exists output.
      split; [done|]. split; [done|]. split; [done|]. done.
Qed.

Lemma replaceDiff_step m start a s :
  replaceDiff m start (String a s)
  = match s with
    | String b (String c rest') =>
        if start && bool_decide (a = " "%char) && bool_decide (b = " "%char)
           && bool_decide (c = m)
        then String m (replaceDiff m false rest')
        else String a (replaceDiff m (bool_decide (a = newlineChar)) s)
    | _ => String a (replaceDiff m (bool_decide (a = newlineChar)) s)
    end.
Proof. by destruct s as [|b [|c s]]. Qed.

Lemma replaceDiff_false_step m a s :
  replaceDiff m false (String a s)
  = String a (replaceDiff m (bool_decide (a = newlineChar)) s).
Proof. by destruct s as [|b [|c s]]. Qed.

Lemma newlineChar_not_space : newlineChar ≠ " "%char.
Proof. by vm_compute. Qed.

Lemma oneLine_cons a l :
  oneLine (String a l) ↔ a ≠ newlineChar ∧ oneLine l.
Proof.
  unfold oneLine. cbn [list_ascii_of_string]. rewrite not_elem_of_cons.
  split; intros [? ?]; split; congruence.
Qed.

Lemma append_String a l t : String a l +:+ t = String a (l +:+ t).
Proof. reflexivity. Qed.

Lemma replaceDiff_false_line m l tail :
  oneLine l →
  replaceDiff m false (l +:+ tail) = l +:+ replaceDiff m false tail.
Proof.
  induction l as [|a l IH]; [done|]. intros [Ha Hl]%oneLine_cons.
  rewrite !append_String, replaceDiff_false_step.
  rewrite bool_decide_eq_false_2 by done. by rewrite IH.
Qed.

Lemma replaceDiff_newline m b s :
  replaceDiff m b (String newlineChar s) = String newlineChar (replaceDiff m true s).
Proof.
  rewrite replaceDiff_step.
  rewrite (bool_decide_eq_false_2 (newlineChar = " "%char))
    by apply newlineChar_not_space.
  rewrite (bool_decide_eq_true_2 (newlineChar = newlineChar)) by done.
  destruct s as [|x [|y s]]; [done|done|].
  by rewrite andb_false_r.
Qed.

Lemma replaceDiff_line m l tail :
  m ≠ newlineChar → oneLine l →
  tail = EmptyString ∨ (∃ r, tail = String newlineChar r) →
  replaceDiff m true (l +:+ tail) = unindentOne m l +:+ replaceDiff m false tail.
Proof.
  intros Hm Hl Htail.
  assert (replaceDiff m true tail = replaceDiff m false tail) as Hsame.
  { destruct Htail as [->|[r ->]]; [done|]. by rewrite !replaceDiff_newline. }
  destruct l as [|a l]; [done|].
  apply oneLine_cons in Hl as [Ha Hl].
  assert (∀ s, replaceDiff m (bool_decide (a = newlineChar)) s = replaceDiff m false s)
    as Hfa by (intros s; by rewrite bool_decide_eq_false_2).
  rewrite append_String, replaceDiff_step, Hfa.
  destruct l as [|b l].
  { change (EmptyString +:+ tail) with tail. cbn [unindentOne].
    destruct Htail as [->|[r ->]]; [done|].
    destruct r as [|c r]; [done|].
    rewrite (bool_decide_eq_false_2 (newlineChar = " "%char))
      by apply newlineChar_not_space.
    by rewrite andb_false_r. }
  apply oneLine_cons in Hl as [Hb Hl]. rewrite append_String.
  destruct l as [|c l].
  { change (EmptyString +:+ tail) with tail. cbn [unindentOne].
    destruct Htail as [->|[r ->]]; [done|].
    rewrite (bool_decide_eq_false_2 (newlineChar = m)) by congruence.
    rewrite andb_false_r, replaceDiff_false_step.
    by rewrite (bool_decide_eq_false_2 (b = newlineChar)) by done. }
  apply oneLine_cons in Hl as [Hc Hl]. rewrite append_String.
  cbn [unindentOne andb].
  destruct (bool_decide (a = " "%char) && bool_decide (b = " "%char)
            && bool_decide (c = m)) eqn:Hmatch.
  - apply andb_prop in Hmatch as [_ Hcm%bool_decide_eq_true_1]. subst c.
    rewrite append_String. by rewrite replaceDiff_false_line.
  - change (String b (String c (l +:+ tail))) with (String b (String c l) +:+ tail).
    rewrite replaceDiff_false_line; [done|]. by rewrite !oneLine_cons.
Qed.

Lemma replaceDiff_lines m lines :
  m ≠ newlineChar → Forall oneLine lines →
  replaceDiff m true (String.concat newline lines)
  = String.concat newline (unindentOne m <$> lines).
Proof.
  intros Hm. induction lines as [|l lines IH]; [done|].
  intros [Hl Hlines]%Forall_cons. destruct lines as [|l' lines].
  - cbn [String.concat fmap list_fmap].
    rewrite <- (append_empty_r l) at 1.
    rewrite replaceDiff_line by (done || by left).
    cbn [replaceDiff]. by rewrite append_empty_r.
  - change (String.concat newline (l :: l' :: lines))
      with (l +:+ String newlineChar (String.concat newline (l' :: lines))).
    rewrite replaceDiff_line by (done || right; by eexists).
    rewrite replaceDiff_newline, IH by done.
    reflexivity.
Qed.

Lemma unindentOne_oneLine m l : oneLine l → oneLine (unindentOne m l).
Proof.
  intros Hl. destruct l as [|a [|b [|c l]]]; try done. cbn [unindentOne].
  destruct (_ && _); [|done].
  by apply oneLine_cons in Hl as [_ [_ Hl]%oneLine_cons].
Qed.

Lemma unindentOne_three m a b c l :
  unindentOne m (String a (String b (String c l)))
  = if bool_decide (a = " "%char) && bool_decide (b = " "%char) && bool_decide (c = m)
    then String c l
    else String a (String b (String c l)).
Proof. reflexivity. Qed.

Lemma unindentOne_marker m a l : a ≠ " "%char → unindentOne m (String a l) = String a l.
Proof.
  intros Ha. destruct l as [|b [|c l]]; [done|done|].
  by rewrite unindentOne_three, (bool_decide_eq_false_2 (a = " "%char)).
Qed.

Lemma unindentOne_passes l :
  unindentOne "-" (unindentOne "~" (unindentOne "+" l)) = unindent l.
Proof.
  destruct l as [|a [|b [|c l]]]; [done|done|done|].
  rewrite (unindentOne_three "+"). unfold unindent.
  destruct (bool_decide (a = " "%char) && bool_decide (b = " "%char)) eqn:Hindent;
    cbn [andb].
  - destruct (decide (c = "+"%char)) as [->|Hplus].
    { rewrite (bool_decide_eq_true_2 ("+"%char = "+"%char)) by done.
      cbn [orb]. by rewrite !unindentOne_marker. }
    rewrite (bool_decide_eq_false_2 (c = "+"%char)) by done.
    rewrite (unindentOne_three "~"), Hindent. cbn [andb orb].
    destruct (decide (c = "~"%char)) as [->|Htilde].
    { rewrite (bool_decide_eq_true_2 ("~"%char = "~"%char)) by done.
      cbn [orb]. by rewrite !unindentOne_marker. }
    rewrite (bool_decide_eq_false_2 (c = "~"%char)) by done.
    rewrite (unindentOne_three "-"), Hindent. by cbn [andb orb].
  - rewrite (unindentOne_three "~"), Hindent. cbn [andb].
    by rewrite (unindentOne_three "-"), Hindent.
Qed.

Lemma diff_passes lines :
  Forall oneLine lines →
  replaceDiff "-" true
    (replaceDiff "~" true (replaceDiff "+" true (String.concat newline lines)))
  = String.concat newline (unindent <$> lines).
Proof.
  intros Hlines.
  rewrite !replaceDiff_lines; try done.
  - rewrite <- !list_fmap_compose. f_equal. apply list_fmap_ext.
    intros i l _. apply unindentOne_passes.
  - apply Forall_fmap. eapply Forall_impl; [|intros l; apply unindentOne_oneLine].
    apply Forall_fmap. eapply Forall_impl; [exact Hlines|].
    intros l; apply unindentOne_oneLine.
  - apply Forall_fmap. eapply Forall_impl; [exact Hlines|].
    intros l; apply unindentOne_oneLine.
Qed.

Lemma substring_all s : String.substring 0 (String.length s) s = s.
Proof. induction s as [|a s IH]; [done|]. cbn. by rewrite IH. Qed.

Lemma substring_after head s :
  String.substring (String.length head) (String.length s) (head +:+ s) = s.
Proof. induction head as [|a head IH]; [apply substring_all|done]. Qed.

Lemma length_append s t :
  String.length (s +:+ t) = (String.length s + String.length t)%nat.
Proof.
  induction s as [|a s IH]; [done|]. rewrite append_String. cbn [String.length].
  by rewrite IH.
Qed.

Lemma append_assoc (s t u : string) : (s +:+ t) +:+ u = s +:+ t +:+ u.
Proof. induction s as [|a s IH]; [done|]. by rewrite !append_String, IH. Qed.

(** X24: the format of the plan output.  When the first separator line of
    the output ends its preamble [head], [fmtPlanOutput] drops the preamble
    and the separator; without a separator it drops nothing.  In what is
    left, a line that starts with two spaces and [+], [~] or [-] loses the
    two spaces, and every other line is kept as it is. *)
Theorem fmtPlanOutput_lines (head : string) (lines : list string) :
  Forall oneLine lines →
  (String.index 0 refreshSeparator
     (head +:+ refreshSeparator +:+ String.concat newline lines)
   = Some (String.length head) →
   fmtPlanOutput (head +:+ refreshSeparator +:+ String.concat newline lines)
   = String.concat newline (unindent <$> lines))
  ∧ (String.index 0 refreshSeparator (String.concat newline lines) = None →
     fmtPlanOutput (String.concat newline lines)
     = String.concat newline (unindent <$> lines)).
Proof.
  intros Hlines. split; intros Hidx; unfold fmtPlanOutput; rewrite Hidx.
  - rewrite <- (diff_passes lines Hlines). do 3 f_equal.
    rewrite !length_append.
    replace (String.length head + (String.length refreshSeparator
               + String.length (String.concat newline lines))
             - (String.length head + String.length refreshSeparator))%nat
      with (String.length (String.concat newline lines)) by lia.
    rewrite <- length_append.
    rewrite <- append_assoc. apply substring_after.
  - by apply diff_passes.
Qed.

End plan_step_more.

(** ** The lock admin surface: what a delete does besides the lock *)

Section lock_admin_more.
Context `{Library}.
Import server.





(** X26: a delete that does not answer 200 touches nothing but the log and
    what the delete command did to the lock store: no workspace is deleted,
    no project is marked discarded and no comment is made. *)
Theorem DeleteLock_failure_no_side_effects (l : LocksController) (r : Request) (w : World) :
  Code (DeleteLock l r w).1 ≠ 200 →
  DeletedWorkspaces (DeleteLock l r w).2 = DeletedWorkspaces w
  ∧ DiscardedProjects (DeleteLock l r w).2 = DiscardedProjects w
  ∧ Comments (DeleteLock l r w).2 = Comments w.
Proof.
  unfold DeleteLock.
  destruct (Vars r !! "id") as [id|]; [|done].
  destruct (decide (id = EmptyString)); [done|].
  destruct (PathUnescape id) as [idUnencoded|err]; [|done].
  destruct (DeleteLockCommand l idUnencoded (Locks w)) as [[[lock|] [err|]] locks];
    done.
Qed.

End lock_admin_more.

(** ** The commit status: order and repetition of the results *)

Section commit_status_more.
Context `{Library}.
Import events.

(** X27: the commit status of a command depends on its project results only
    as a set: two results with the same top-level error and failure whose
    project results are the same up to order and repetition post the same
    status. *)
Theorem commit_status_order_independent (ctx : CommandContext) (commandName : CommandName)
    (res res' : CommandResult) :
  Error_ res = Error_ res' → Failure res = Failure res' →
  (∀ p, p ∈ ProjectResults res ↔ p ∈ ProjectResults res') →
  UpdateProjectResult ctx commandName res = UpdateProjectResult ctx commandName res'.
Proof.
  intros Herr Hfail Hsame. unfold UpdateProjectResult. rewrite <- Herr, <- Hfail.
  destruct (decide _) as [Htop|Htop]; [done|]. f_equal.
  rewrite !statuses_fmap, !app_nil_l.
  assert (∀ rs rs' : list ProjectResult,
    (∀ p, p ∈ rs → p ∈ rs') →
    worstStatus (Status <$> rs) = FailedCommitStatus →
    worstStatus (Status <$> rs') = FailedCommitStatus) as Hmono.
  { intros rs rs' Hsub. rewrite !worstStatus_Failed, !list_elem_of_fmap.
    intros (p & Hp & Hin). exists p. by eauto. }
  destruct (worstStatus_cases (Status <$> ProjectResults res)) as [Hf|Hs];
    destruct (worstStatus_cases (Status <$> ProjectResults res')) as [Hf'|Hs'];
    try congruence.
  - apply (Hmono _ (ProjectResults res')) in Hf; [congruence|]. intros p. apply Hsame.
  - apply (Hmono _ (ProjectResults res)) in Hf'; [congruence|]. intros p. apply Hsame.
Qed.

End commit_status_more.

(** ** Parsing a pull request of GitHub *)

Section event_parsing_more.
Import event_parsing.

(** X28: a parsed pull request is complete.  When [ParseGithubPull] returns
    without error, the pull request has a head commit, a URL, a branch, an
    author and a number different from zero, all as in the event; it is open
    exactly when the event says [open]; both repositories were accepted by
    [NewRepo], and the repository returned with it is its head repository.
    When it returns an error, the pull request returned is the zero value. *)
Theorem ParseGithubPull_validates (e : EventParser) (pull : GithubPullRequest)
    (p : PullRequest) (repo : Repo) (err : option error) :
  ParseGithubPull e pull = Returns p repo err →
  (err = None →
   HeadCommit p = GetSHA (Head pull) ∧ HeadCommit p ≠ EmptyString
   ∧ URL p = HTMLURL pull ∧ URL p ≠ EmptyString
   ∧ Branch p = GetRef (Head pull) ∧ Branch p ≠ EmptyString
   ∧ Author p = UserLogin pull ∧ Author p ≠ EmptyString
   ∧ Num p = Number pull ∧ Num p ≠ 0
   ∧ (State p = Open ↔ GhState pull = "open")
   ∧ repo = HeadRepo p
   ∧ (∃ head, Head pull = Some head
              ∧ ParseGithubRepo e (BranchRepo head) = (HeadRepo p, None))
   ∧ (∃ base, Base pull = Some base
              ∧ ParseGithubRepo e (BranchRepo base) = (BaseRepo p, None)))
  ∧ (err ≠ None → p = zeroPullRequest).
Proof.
  unfold ParseGithubPull.
  repeat (destruct (decide (_ = _)) as [?|?];
          [intros [= <- <- <-]; by split|]).
  destruct (Head pull) as [head|] eqn:Hhead; [|done].
  destruct (ParseGithubRepo e (BranchRepo head)) as [headRepo [herr|]] eqn:Hheadrepo;
    [intros [= <- <- <-]; by split|].
  destruct (Base pull) as [base|] eqn:Hbase; [|done].
  destruct (ParseGithubRepo e (BranchRepo base)) as [baseRepo [berr|]] eqn:Hbaserepo;
    [intros [= <- <- <-]; by split|].
  intros [= <- <- <-]. split; [|done]. intros _. cbn.
  repeat (split; [done|]).
  split; [by destruct (decide (GhState pull = "open"))|].
  split; [done|]. split; by eauto.
Qed.

End event_parsing_more.

(** ** The properties above at concrete values *)

Section more_examples.
Import boltdb boltdb_status.
#[local] Existing Instance plain.library.

Lemma Unlock_twice_nil_witness :
  (Unlock (LockProject fixtures.lockRepoPull1) "default"
     (TryLock fixtures.lockRepoPull1 ∅).2).1.2 = None
  ∧ Get (lockKey (LockProject fixtures.lockRepoPull1) "default")
        (Unlock (LockProject fixtures.lockRepoPull1) "default"
           (TryLock fixtures.lockRepoPull1 ∅).2).2 = None
  ∧ Unlock (LockProject fixtures.lockRepoPull1) "default"
      (Unlock (LockProject fixtures.lockRepoPull1) "default"
         (TryLock fixtures.lockRepoPull1 ∅).2).2
    = ((None, None),
       (Unlock (LockProject fixtures.lockRepoPull1) "default"
          (TryLock fixtures.lockRepoPull1 ∅).2).2).
Proof.
  split; [vm_compute; reflexivity|].
  apply (Unlock_twice_nil (LockProject fixtures.lockRepoPull1) "default"
           (TryLock fixtures.lockRepoPull1 ∅).2).
  vm_compute; reflexivity.
Defined.

Lemma TryLock_Unlock_round_trip_witness :
  Get (keyOf fixtures.lockRepoPull1) ∅ = None
  ∧ Unlock (LockProject fixtures.lockRepoPull1) (LockWorkspace fixtures.lockRepoPull1)
      (TryLock fixtures.lockRepoPull1 ∅).2
    = ((Some fixtures.lockRepoPull1, None), ∅).
Proof.
  split; [reflexivity|].
  apply (TryLock_Unlock_round_trip fixtures.lockRepoPull1 ∅). reflexivity.
Defined.

Lemma GetLock_after_TryLock_witness :
  (TryLock fixtures.lockRepoPull2 (TryLock fixtures.lockRepoPull1 ∅).2).1
  = (false, fixtures.lockRepoPull1, None)
  ∧ GetLock (LockProject fixtures.lockRepoPull2) (LockWorkspace fixtures.lockRepoPull2)
      (TryLock fixtures.lockRepoPull2 (TryLock fixtures.lockRepoPull1 ∅).2).2
    = (Some fixtures.lockRepoPull1, None).
Proof.
  assert ((TryLock fixtures.lockRepoPull2 (TryLock fixtures.lockRepoPull1 ∅).2).1
          = (false, fixtures.lockRepoPull1, None)) as Hheld
    by (vm_compute; reflexivity).
  split; [exact Hheld|].
  exact (GetLock_after_TryLock fixtures.lockRepoPull2 fixtures.lockRepoPull1 false
           (TryLock fixtures.lockRepoPull1 ∅).2 Hheld).
Defined.

Lemma UpdatePull_then_GetPull_witness :
  UpdatePullWithResults fixtures_more.pullOne
    [fixtures_more.plannedResult "a"; fixtures_more.plannedResult "b"] ∅
  = ((Some fixtures_more.plannedStatus, None), fixtures_more.plannedPulls)
  ∧ GetPullStatus fixtures_more.pullOne fixtures_more.plannedPulls
    = (Some fixtures_more.plannedStatus, None).
Proof.
  assert (UpdatePullWithResults fixtures_more.pullOne
            [fixtures_more.plannedResult "a"; fixtures_more.plannedResult "b"] ∅
          = ((Some fixtures_more.plannedStatus, None), fixtures_more.plannedPulls))
    as Hupdate by (vm_compute; reflexivity).
  split; [exact Hupdate|].
  exact (UpdatePull_then_GetPull _ _ _ _ _ Hupdate).
Defined.

Lemma UpdatePull_new_commit_witness :
  pullKey fixtures_more.pullOne = inl fixtures_more.pullOneKey
  ∧ (∃ curr,
       (UpdatePullWithResults fixtures_more.pullOneBefore
          [fixtures_more.plannedResult "a"] ∅).2 !! fixtures_more.pullOneKey
       = Some (PullJson curr)
       ∧ HeadCommit (PullOf curr) ≠ HeadCommit fixtures_more.pullOne)
  ∧ (UpdatePullWithResults fixtures_more.pullOne [fixtures_more.plannedResult "b"]
       (UpdatePullWithResults fixtures_more.pullOneBefore
          [fixtures_more.plannedResult "a"] ∅).2).1
    = (Some {| Projects := projectResultToProject <$> [fixtures_more.plannedResult "b"];
               PullOf := fixtures_more.pullOne |}, None).
Proof.
  assert (pullKey fixtures_more.pullOne = inl fixtures_more.pullOneKey) as Hkey
    by (vm_compute; reflexivity).
  assert (∃ curr,
            (UpdatePullWithResults fixtures_more.pullOneBefore
               [fixtures_more.plannedResult "a"] ∅).2 !! fixtures_more.pullOneKey
            = Some (PullJson curr)
            ∧ HeadCommit (PullOf curr) ≠ HeadCommit fixtures_more.pullOne) as Hold.
  { exists {| Projects := projectResultToProject <$> [fixtures_more.plannedResult "a"];
              PullOf := fixtures_more.pullOneBefore |}.
    split; [vm_compute; reflexivity | vm_compute; discriminate]. }
  split; [exact Hkey|]. split; [exact Hold|].
  exact (UpdatePull_new_commit fixtures_more.pullOne [fixtures_more.plannedResult "b"]
           _ fixtures_more.pullOneKey Hkey (or_intror Hold)).
Defined.

Lemma UpdatePull_same_commit_witness :
  pullKey fixtures_more.pullOne = inl fixtures_more.pullOneKey
  ∧ fixtures_more.plannedPulls !! fixtures_more.pullOneKey
    = Some (PullJson fixtures_more.plannedStatus)
  ∧ HeadCommit (PullOf fixtures_more.plannedStatus) = HeadCommit fixtures_more.pullOne
  ∧ ∃ status,
      (UpdatePullWithResults fixtures_more.pullOne [fixtures_more.appliedResult "a"]
         fixtures_more.plannedPulls).1 = (Some status, None)
      ∧ PullOf status = fixtures_more.pullOne
      ∧ ∃ i proj, Projects status !! i = Some proj
                  ∧ sameProject (fixtures_more.appliedResult "a") proj
                  ∧ ProjStatus proj = AppliedPlanStatus.
Proof.
  assert (pullKey fixtures_more.pullOne = inl fixtures_more.pullOneKey) as Hkey
    by (vm_compute; reflexivity).
  assert (fixtures_more.plannedPulls !! fixtures_more.pullOneKey
          = Some (PullJson fixtures_more.plannedStatus)) as Hcurr
    by (vm_compute; reflexivity).
  split; [exact Hkey|]. split; [exact Hcurr|]. split; [reflexivity|].
  destruct (UpdatePull_same_commit fixtures_more.pullOne
              [fixtures_more.appliedResult "a"] fixtures_more.plannedPulls
              fixtures_more.pullOneKey fixtures_more.plannedStatus Hkey Hcurr eq_refl)
    as (status & Hstatus & Hpull & _ & _ & Hlast).
  exists status. split; [exact Hstatus|]. split; [exact Hpull|].
  apply (Hlast [] (fixtures_more.appliedResult "a") [] eq_refl).
  intros r Hin. by apply elem_of_nil in Hin.
Defined.

Lemma DeleteProjectStatus_removes_witness :
  pullKey fixtures_more.pullOne = inl fixtures_more.pullOneKey
  ∧ fixtures_more.plannedPulls !! fixtures_more.pullOneKey
    = Some (PullJson fixtures_more.plannedStatus)
  ∧ GetPullStatus fixtures_more.pullOne
      (DeleteProjectStatus fixtures_more.pullOne "default" "a"
         fixtures_more.plannedPulls).2
    = (Some {| Projects :=
                 filter (λ p, ¬ (ProjWorkspace p = "default" ∧ ProjRepoRelDir p = "a"))
                   (Projects fixtures_more.plannedStatus);
               PullOf := PullOf fixtures_more.plannedStatus |}, None).
Proof.
  assert (pullKey fixtures_more.pullOne = inl fixtures_more.pullOneKey) as Hkey
    by (vm_compute; reflexivity).
  assert (fixtures_more.plannedPulls !! fixtures_more.pullOneKey
          = Some (PullJson fixtures_more.plannedStatus)) as Hcurr
    by (vm_compute; reflexivity).
  split; [exact Hkey|]. split; [exact Hcurr|].
  exact (proj2 (proj1 (DeleteProjectStatus_removes fixtures_more.pullOne "default" "a"
                         fixtures_more.plannedPulls fixtures_more.pullOneKey Hkey)
                  fixtures_more.plannedStatus Hcurr)).
Defined.

Lemma DeletePullStatus_then_GetPull_witness :
  pullKey fixtures_more.pullOne = inl fixtures_more.pullOneKey
  ∧ pullKey (fixtures.pull fixtures.ownerRepo 2) = inl "github.com::owner/repo::2"
  ∧ (DeletePullStatus fixtures_more.pullOne fixtures_more.plannedPulls).1 = None
  ∧ GetPullStatus fixtures_more.pullOne
      (DeletePullStatus fixtures_more.pullOne fixtures_more.plannedPulls).2 = (None, None)
  ∧ GetPullStatus (fixtures.pull fixtures.ownerRepo 2)
      (DeletePullStatus fixtures_more.pullOne fixtures_more.plannedPulls).2
    = GetPullStatus (fixtures.pull fixtures.ownerRepo 2) fixtures_more.plannedPulls.
Proof.
  assert (pullKey fixtures_more.pullOne = inl fixtures_more.pullOneKey) as Hkey
    by (vm_compute; reflexivity).
  assert (pullKey (fixtures.pull fixtures.ownerRepo 2) = inl "github.com::owner/repo::2")
    as Hother by (vm_compute; reflexivity).
  split; [exact Hkey|]. split; [exact Hother|].
  apply (DeletePullStatus_then_GetPull fixtures_more.pullOne
           (fixtures.pull fixtures.ownerRepo 2) fixtures_more.plannedPulls
           fixtures_more.pullOneKey "github.com::owner/repo::2" Hkey Hother).
  discriminate.
Defined.

Lemma pull_status_rejects_separator_witness :
  Contains (FullName (BaseRepo fixtures_more.separatorPull)) "::" = true
  ∧ (∃ err, UpdatePullWithResults fixtures_more.separatorPull
              [fixtures_more.plannedResult "a"] fixtures_more.plannedPulls
            = ((None, Some err), fixtures_more.plannedPulls))
  ∧ (∃ err, GetPullStatus fixtures_more.separatorPull fixtures_more.plannedPulls
            = (None, Some err))
  ∧ (∃ err, DeletePullStatus fixtures_more.separatorPull fixtures_more.plannedPulls
            = (Some err, fixtures_more.plannedPulls))
  ∧ (∃ err, DeleteProjectStatus fixtures_more.separatorPull "default" "a"
              fixtures_more.plannedPulls
            = (Some err, fixtures_more.plannedPulls)).
Proof.
  assert (Contains (FullName (BaseRepo fixtures_more.separatorPull)) "::" = true)
    as Hsep by (vm_compute; reflexivity).
  split; [exact Hsep|].
  exact (pull_status_rejects_separator fixtures_more.separatorPull
           [fixtures_more.plannedResult "a"] "default" "a" fixtures_more.plannedPulls
           (or_intror Hsep)).
Defined.

End more_examples.

Section more_examples_apply.
Import boltdb events.
#[local] Existing Instance plain.library.

Lemma Execute_failure_does_nothing_witness :
  Error_ (Execute fixtures.applyExecutor (fixtures.applyCtx "modules")
            fixtures.planned).1 ≠ None
  ∧ (Execute fixtures.applyExecutor (fixtures.applyCtx "modules") fixtures.planned).2
    = fixtures.planned
  ∧ ProjectResults
      (Execute fixtures.applyExecutor (fixtures.applyCtx "modules") fixtures.planned).1
    = [].
Proof.
  assert (Error_ (Execute fixtures.applyExecutor (fixtures.applyCtx "modules")
                    fixtures.planned).1 ≠ None) as Herr
    by (vm_compute; discriminate).
  split; [exact Herr|].
  exact (Execute_failure_does_nothing fixtures.applyExecutor (fixtures.applyCtx "modules")
           fixtures.planned (or_introl Herr)).
Defined.

Lemma Execute_one_result_per_plan_witness :
  Error_ (Execute fixtures.applyExecutor (fixtures.applyCtx EmptyString)
            fixtures.planned).1 = None
  ∧ Failure (Execute fixtures.applyExecutor (fixtures.applyCtx EmptyString)
               fixtures.planned).1 = EmptyString
  ∧ ∃ repoDir plans,
      GetWorkspace fixtures.applyExecutor (CtxBaseRepo (fixtures.applyCtx EmptyString))
        (CtxPull (fixtures.applyCtx EmptyString))
        (Workspace (CtxCommand (fixtures.applyCtx EmptyString))) = inl repoDir
      ∧ findPlans fixtures.applyExecutor (fixtures.applyCtx EmptyString) repoDir
        = inl plans
      ∧ length (ProjectResults
                  (Execute fixtures.applyExecutor (fixtures.applyCtx EmptyString)
                     fixtures.planned).1) = length plans
      ∧ (Execute fixtures.applyExecutor (fixtures.applyCtx EmptyString)
           fixtures.planned).2
        = foldl (λ w p, (apply fixtures.applyExecutor (fixtures.applyCtx EmptyString)
                           repoDir p w).2) fixtures.planned plans.
Proof.
  assert (Error_ (Execute fixtures.applyExecutor (fixtures.applyCtx EmptyString)
                    fixtures.planned).1 = None) as Herr
    by (vm_compute; reflexivity).
  assert (Failure (Execute fixtures.applyExecutor (fixtures.applyCtx EmptyString)
                     fixtures.planned).1 = EmptyString) as Hfail
    by (vm_compute; reflexivity).
  split; [exact Herr|]. split; [exact Hfail|].
  destruct (Execute_one_result_per_plan fixtures.applyExecutor
              (fixtures.applyCtx EmptyString) fixtures.planned Herr Hfail)
    as (repoDir & plans & Hws & Hfind & _ & Hlen & _ & Hworld).
  exists repoDir, plans. split; [exact Hws|]. split; [exact Hfind|].
  split; [exact Hlen | exact Hworld].
Defined.

End more_examples_apply.

Section more_examples_plan.
Import runtime plan_step terraform.
#[local] Existing Instance plain.library.

Lemma generateRCFile_never_overwrites_witness :
  (generateRCFile "token" "/home/atlantis" fixtures_more.emptyDisk).1 = None
  ∧ (∃ file,
       Files (generateRCFile "token" "/home/atlantis" fixtures_more.emptyDisk).2
         !! Join ["/home/atlantis"; ".terraformrc"] = Some file
       ∧ Contents file = Sprintf rcFileContents [argString "token"])
  ∧ generateRCFile "token" "/home/atlantis"
      (generateRCFile "token" "/home/atlantis" fixtures_more.emptyDisk).2
    = (None, (generateRCFile "token" "/home/atlantis" fixtures_more.emptyDisk).2).
Proof.
  assert ((generateRCFile "token" "/home/atlantis" fixtures_more.emptyDisk).1 = None)
    as Hok by (vm_compute; reflexivity).
  split; [exact Hok|].
  exact (proj2 (generateRCFile_never_overwrites "token" "/home/atlantis"
                  fixtures_more.emptyDisk) Hok).
Defined.

Lemma switchWorkspace_old_versions_witness :
  belowZeroPointNine fixtures_more.stepEnv "0.8.8" = true
  ∧ (switchWorkspace fixtures_more.stepEnv fixtures_more.stagingCtx "/clone/project"
       "0.8.8" []).2 = []
  ∧ ((switchWorkspace fixtures_more.stepEnv fixtures_more.stagingCtx "/clone/project"
        "0.8.8" []).1 = None
     ↔ Workspace fixtures_more.stagingCtx = "default").
Proof.
  split; [reflexivity|].
  apply (switchWorkspace_old_versions fixtures_more.stepEnv fixtures_more.stagingCtx
           "/clone/project" "0.8.8" []).
  reflexivity.
Defined.

Lemma switchWorkspace_success_confirmed_witness :
  belowZeroPointNine fixtures_more.stepEnv "0.11.10" = false
  ∧ (switchWorkspace fixtures_more.stepEnv fixtures_more.stagingCtx "/clone/project"
       "0.11.10" []).1 = None
  ∧ ∃ before c out,
      (switchWorkspace fixtures_more.stepEnv fixtures_more.stagingCtx "/clone/project"
         "0.11.10" []).2 = [] ++ before ++ [c]
      ∧ Exec fixtures_more.stepEnv ([] ++ before) c = (out, None)
      ∧ ((c = showCall fixtures_more.stepEnv fixtures_more.stagingCtx "/clone/project"
                "0.11.10"
          ∧ TrimSpace fixtures_more.stepEnv out = Workspace fixtures_more.stagingCtx)
         ∨ c = selectCall fixtures_more.stepEnv fixtures_more.stagingCtx "/clone/project"
                 "0.11.10"
         ∨ c = newCall fixtures_more.stepEnv fixtures_more.stagingCtx "/clone/project"
                 "0.11.10").
Proof.
  assert ((switchWorkspace fixtures_more.stepEnv fixtures_more.stagingCtx
             "/clone/project" "0.11.10" []).1 = None) as Hok
    by (vm_compute; reflexivity).
  split; [reflexivity|]. split; [exact Hok|].
  exact (switchWorkspace_success_confirmed fixtures_more.stepEnv fixtures_more.stagingCtx
           "/clone/project" "0.11.10" [] eq_refl Hok).
Defined.

Lemma Run_error_file_witness :
  Run fixtures_more.stepEnv fixtures_more.stagingCtx [] "/clone/project"
    fixtures_more.failedBefore
  = (Returned "Error: no configuration files" (Some (errorsNew "exit status 1")),
     (Run fixtures_more.stepEnv fixtures_more.stagingCtx [] "/clone/project"
        fixtures_more.failedBefore).2)
  ∧ DiskFiles (Run fixtures_more.stepEnv fixtures_more.stagingCtx [] "/clone/project"
                 fixtures_more.failedBefore).2
      !! planErrorFile fixtures_more.stepEnv fixtures_more.stagingCtx "/clone/project"
    = Some "Error: no configuration files"
  ∧ DiskFiles (Run fixtures_more.stepEnv fixtures_more.stagingCtx [] "/clone/project"
                 fixtures_more.failedBefore).2
      !! "/clone/project/.terraform/environment"
    = Some "staging".
Proof.
  assert (Run fixtures_more.stepEnv fixtures_more.stagingCtx [] "/clone/project"
            fixtures_more.failedBefore
          = (Returned "Error: no configuration files" (Some (errorsNew "exit status 1")),
             (Run fixtures_more.stepEnv fixtures_more.stagingCtx [] "/clone/project"
                fixtures_more.failedBefore).2)) as Hrun
    by (vm_compute; reflexivity).
  split; [exact Hrun|]. split; [|vm_compute; reflexivity].
  destruct (Run_error_file fixtures_more.stepEnv fixtures_more.stagingCtx []
              "/clone/project" fixtures_more.failedBefore _ _ _ Hrun)
    as (added & _ & _ & Hplanned).
  destruct (Hplanned ltac:(vm_compute; reflexivity)) as (raw & _ & _ & Hfailed & _).
  destruct (Hfailed ltac:(discriminate)) as [<- ->].
  apply lookup_insert_eq.
Defined.

Lemma fmtPlanOutput_lines_witness :
  Forall oneLine fixtures_more.planLines
  ∧ String.index 0 refreshSeparator
      (("Refreshing state..." +:+ newline) +:+ refreshSeparator
       +:+ String.concat newline fixtures_more.planLines)
    = Some (String.length ("Refreshing state..." +:+ newline))
  ∧ fmtPlanOutput
      (("Refreshing state..." +:+ newline) +:+ refreshSeparator
       +:+ String.concat newline fixtures_more.planLines)
    = String.concat newline (unindent <$> fixtures_more.planLines).
Proof.
  assert (Forall oneLine fixtures_more.planLines) as Hlines
    by (apply (bool_decide_unpack _); vm_compute; exact I).
  assert (String.index 0 refreshSeparator
            (("Refreshing state..." +:+ newline) +:+ refreshSeparator
             +:+ String.concat newline fixtures_more.planLines)
          = Some (String.length ("Refreshing state..." +:+ newline))) as Hsep
    by (vm_compute; reflexivity).
  split; [exact Hlines|]. split; [exact Hsep|].
  exact (proj1 (fmtPlanOutput_lines ("Refreshing state..." +:+ newline)
                  fixtures_more.planLines Hlines) Hsep).
Defined.

End more_examples_plan.

Section more_examples_admin.
Import boltdb server events event_parsing.
#[local] Existing Instance plain.library.


Lemma DeleteLock_failure_no_side_effects_witness :
  Code (DeleteLock fixtures.locksController (fixtures.deleteRequest "nolock")
          (fixtures.adminWorld (TryLock fixtures.lockRepoPull1 ∅).2)).1 ≠ 200
  ∧ DeletedWorkspaces
      (DeleteLock fixtures.locksController (fixtures.deleteRequest "nolock")
         (fixtures.adminWorld (TryLock fixtures.lockRepoPull1 ∅).2)).2
    = DeletedWorkspaces (fixtures.adminWorld (TryLock fixtures.lockRepoPull1 ∅).2)
  ∧ DiscardedProjects
      (DeleteLock fixtures.locksController (fixtures.deleteRequest "nolock")
         (fixtures.adminWorld (TryLock fixtures.lockRepoPull1 ∅).2)).2
    = DiscardedProjects (fixtures.adminWorld (TryLock fixtures.lockRepoPull1 ∅).2)
  ∧ Comments
      (DeleteLock fixtures.locksController (fixtures.deleteRequest "nolock")
         (fixtures.adminWorld (TryLock fixtures.lockRepoPull1 ∅).2)).2
    = Comments (fixtures.adminWorld (TryLock fixtures.lockRepoPull1 ∅).2).
Proof.
  assert (Code (DeleteLock fixtures.locksController (fixtures.deleteRequest "nolock")
                  (fixtures.adminWorld (TryLock fixtures.lockRepoPull1 ∅).2)).1 ≠ 200)
    as Hcode by (vm_compute; discriminate).
  split; [exact Hcode|].
  exact (DeleteLock_failure_no_side_effects fixtures.locksController
           (fixtures.deleteRequest "nolock")
           (fixtures.adminWorld (TryLock fixtures.lockRepoPull1 ∅).2) Hcode).
Defined.

Lemma commit_status_order_independent_witness :
  (∀ p, p ∈ ProjectResults
              (resultsResponse [fixtures_more.okResult; fixtures_more.failedResult])
        ↔ p ∈ ProjectResults
                (resultsResponse [fixtures_more.failedResult; fixtures_more.okResult;
                                  fixtures_more.failedResult]))
  ∧ UpdateProjectResult (fixtures.applyCtx EmptyString) ApplyCommand
      (resultsResponse [fixtures_more.okResult; fixtures_more.failedResult])
    = UpdateProjectResult (fixtures.applyCtx EmptyString) ApplyCommand
        (resultsResponse [fixtures_more.failedResult; fixtures_more.okResult;
                          fixtures_more.failedResult]).
Proof.
  assert (∀ p, p ∈ ProjectResults
                     (resultsResponse [fixtures_more.okResult; fixtures_more.failedResult])
               ↔ p ∈ ProjectResults
                       (resultsResponse [fixtures_more.failedResult;
                                         fixtures_more.okResult;
                                         fixtures_more.failedResult])) as Hsame.
  { intros p. cbn [ProjectResults resultsResponse]. rewrite !elem_of_cons. tauto. }
  split; [exact Hsame|].
  exact (commit_status_order_independent (fixtures.applyCtx EmptyString) ApplyCommand
           (resultsResponse [fixtures_more.okResult; fixtures_more.failedResult])
           (resultsResponse [fixtures_more.failedResult; fixtures_more.okResult;
                             fixtures_more.failedResult])
           eq_refl eq_refl Hsame).
Defined.

Lemma ParseGithubPull_validates_witness :
  ParseGithubPull fixtures_more.eventParser fixtures_more.githubPull
  = Returns fixtures_more.parsedPull fixtures_more.parsedRepo None
  ∧ HeadCommit fixtures_more.parsedPull ≠ EmptyString
  ∧ Num fixtures_more.parsedPull ≠ 0
  ∧ fixtures_more.parsedRepo = HeadRepo fixtures_more.parsedPull.
Proof.
  assert (ParseGithubPull fixtures_more.eventParser fixtures_more.githubPull
          = Returns fixtures_more.parsedPull fixtures_more.parsedRepo None) as Hparsed
    by (vm_compute; reflexivity).
  split; [exact Hparsed|].
  destruct (proj1 (ParseGithubPull_validates fixtures_more.eventParser
                     fixtures_more.githubPull fixtures_more.parsedPull
                     fixtures_more.parsedRepo None Hparsed) eq_refl)
    as (_ & Hcommit & _ & _ & _ & _ & _ & _ & _ & Hnum & _ & Hrepo & _).
  split; [exact Hcommit|]. split; [exact Hnum|]. exact Hrepo.
Defined.

End more_examples_admin.
